(** * nnounce scripting SDK: the transport and coordination core

    A shallow embedding of [src/communication/WebSocketCommunication.ts]
    (connection manager, request correlator, subscription registry,
    heartbeat monitor) and of the single-flight design loader of
    [src/dspDesign/DesignUtil.ts] with its getters, followed by the
    classes that sit on top of them: [RetryUtil], the listener registries
    of [NnDuckerStatesUtil], [IOControlStates] and [ButtonStates], the
    digital reading of an input pin, [ANnDspComponent.setGain] and the
    system variables.

    The program runs on a single-threaded event loop.  Every listener,
    timer callback and public method is one non-preemptible turn, and is
    modelled as a function from the state before the turn to the state
    after it.  The state holds the fields of the class together with the
    part of the host that the class talks to: the WebSocket objects it
    created, the timer table, the promises it handed out, and the traces
    of what it wrote (frames, close calls, log lines, handler calls). *)

From Stdlib Require Import ZArith List Bool PrimFloat.
From stdpp Require Import gmap strings list fin_maps pretty.

Local Open Scope string_scope.
Local Open Scope list_scope.

(** ** JSON values, as [JSON.parse] produces them and [JSON.stringify]
    consumes them *)

Module Js.

#[local] Set Warnings "-register-all".

Inductive JsValue : Type :=
| JNull
| JBool (b : bool)
| JNum (x : float)
| JStr (s : string)
| JArr (items : list JsValue)
| JObj (fields : list (string * JsValue)).

(** Own property [k] of an object whose properties were set in the order
    of [fields]: a later binding of the same key overrides an earlier one. *)
Fixpoint assoc (k : string) (fields : list (string * JsValue)) : option JsValue :=
  match fields with
  | [] => None
  | (k', v) :: rest =>
      match assoc k rest with
      | Some w => Some w
      | None => if String.eqb k k' then Some v else None
      end
  end.

(** [v.k] for the property names the program reads ([requestId], [type],
    [state], [failReason]): [None] is JavaScript's [undefined].  Primitives
    and arrays have none of these properties. *)
Definition prop (v : JsValue) (k : string) : option JsValue :=
  match v with
  | JObj fields => assoc k fields
  | _ => None
  end.

(** JavaScript truthiness of a value that may be [undefined]. *)
Definition truthy (v : option JsValue) : bool :=
  match v with
  | None => false
  | Some JNull => false
  | Some (JBool b) => b
  | Some (JNum x) => negb (PrimFloat.is_zero x || PrimFloat.is_nan x)
  | Some (JStr s) => negb (String.eqb s "")
  | Some (JArr _) => true
  | Some (JObj _) => true
  end.

End Js.

Import Js.

(** ** WebSocketCommunication *)

Module WebSocketCommunication.

(** [WebSocket.readyState]. *)
Inductive ReadyState : Type := CONNECTING | OPEN | CLOSING | CLOSED.

(** The handlers stored in [eventHandlers].  [HeartbeatHandler] is the
    arrow function that [onConnect] registers (it stamps
    [lastIncomeHeartbeat]); [ClientHandler h] is a closure handed in by a
    caller of [addEventHandler] or of a subscribe method, known here only
    by its identity [h]. *)
Inductive EventHandler : Type :=
| HeartbeatHandler
| ClientHandler (h : nat).

(** The only closures ever stored in [eventResultHandlers] are the ones
    [sendEventWithResponse] builds: each captures [resolve] and [reject]
    of the promise created by that call. *)
Record ResultHandler : Type := { rh_promise : nat }.

(** A promise of [sendEventWithResponse].  While pending it carries the
    continuation that [await promise] attached: on fulfilment that
    continuation runs [clearTimeout(timeout)], so the timer handle it
    captured is kept here.  A rejection reason is any JavaScript value
    ([response.failReason] may be [undefined]). *)
Inductive PromiseState : Type :=
| Pending (timeout : nat)
| Fulfilled (response : JsValue)
| Rejected (reason : option JsValue).

(** The callbacks the class hands to [setTimeout] and [setInterval]. *)
Inductive TimerTask : Type :=
| ResponseTimeout (requestId : string) (promise : nat)
| Reconnect
| Heartbeat.

Record Timer : Type := { task : TimerTask; delay : Z }.

(** Log lines, by the place that writes them. *)
Inductive LogLine : Type :=
| LogConnecting
| LogConnected
| LogSocketError
| LogConnectFailed
| ConsoleError
| LogSubscription (json : string)
| LogSending (json : string)
| LogSubscriptionNotConnected (json : string)
| LogBuffered (size : nat) (json : string)
| LogDisconnected
| LogCannotParse (data : string)
| LogProcessResponse (requestId : option JsValue)
| LogNoListener
| LogClosingSocket
| LogMissingHeartbeat.

(** The fields of the class (first ten), the logger switch it consults,
    and the host: clock, WebSocket objects by identity with their
    [readyState], timer table, promises, and the traces of [socket.send],
    [socket.close], client handler calls and log lines. *)
Record State : Type := MkState {
  hostname : string;
  apiKey : option string;
  socket : option nat;
  reconnectTimeout : nat;
  subscriptionEvents : list string;
  disconnectEventBuffer : list string;
  eventHandlers : gmap string EventHandler;
  eventResultHandlers : gmap string ResultHandler;
  heartbeatSendingInterval : option nat;
  lastIncomeHeartbeat : option Z;
  loggerEnabled : bool;
  clock : Z;
  sockets : gmap nat ReadyState;
  nextSocket : nat;
  sent : list (nat * string);
  closed : list (nat * option string);
  timers : gmap nat Timer;
  nextTimer : nat;
  promises : gmap nat PromiseState;
  nextPromise : nat;
  dispatched : list (nat * JsValue);
  logs : list LogLine
}.

Definition eta (st : State) : State :=
  MkState (hostname st) (apiKey st) (socket st) (reconnectTimeout st) (subscriptionEvents st)
    (disconnectEventBuffer st) (eventHandlers st) (eventResultHandlers st)
    (heartbeatSendingInterval st) (lastIncomeHeartbeat st) (loggerEnabled st)
    (clock st) (sockets st) (nextSocket st) (sent st) (closed st) (timers st)
    (nextTimer st) (promises st) (nextPromise st) (dispatched st) (logs st).

(** Field assignment [st.f = v]: [eta st] with the occurrence of [f st]
    replaced by [v]. *)
Ltac assign f :=
  let v := fresh "v" in
  let st := fresh "st" in
  intros v st;
  let e := eval cbv delta [eta] beta in (eta st) in
  let e' := eval pattern (f st) in e in
  lazymatch e' with
  | ?g _ => let r := eval cbv beta in (g v) in exact r
  end.

Definition set_socket : option nat -> State -> State := ltac:(assign socket).
Definition set_reconnectTimeout : nat -> State -> State := ltac:(assign reconnectTimeout).
Definition set_subscriptionEvents : list string -> State -> State :=
  ltac:(assign subscriptionEvents).
Definition set_disconnectEventBuffer : list string -> State -> State :=
  ltac:(assign disconnectEventBuffer).
Definition set_eventHandlers : gmap string EventHandler -> State -> State :=
  ltac:(assign eventHandlers).
Definition set_eventResultHandlers : gmap string ResultHandler -> State -> State :=
  ltac:(assign eventResultHandlers).
Definition set_heartbeatSendingInterval : option nat -> State -> State :=
  ltac:(assign heartbeatSendingInterval).
Definition set_lastIncomeHeartbeat : option Z -> State -> State :=
  ltac:(assign lastIncomeHeartbeat).
Definition set_clock : Z -> State -> State := ltac:(assign clock).
Definition set_sockets : gmap nat ReadyState -> State -> State := ltac:(assign sockets).
Definition set_nextSocket : nat -> State -> State := ltac:(assign nextSocket).
Definition set_sent : list (nat * string) -> State -> State := ltac:(assign sent).
Definition set_closed : list (nat * option string) -> State -> State := ltac:(assign closed).
Definition set_timers : gmap nat Timer -> State -> State := ltac:(assign timers).
Definition set_nextTimer : nat -> State -> State := ltac:(assign nextTimer).
Definition set_promises : gmap nat PromiseState -> State -> State := ltac:(assign promises).
Definition set_nextPromise : nat -> State -> State := ltac:(assign nextPromise).
Definition set_dispatched : list (nat * JsValue) -> State -> State := ltac:(assign dispatched).
Definition set_logs : list LogLine -> State -> State := ltac:(assign logs).

(** *** The host: timers, sockets, promises, logger *)

(** [setTimeout(cb, d)] and [setInterval(cb, d)]: the handle returned is
    the next free one. *)
Definition setTimer (cb : TimerTask) (d : Z) (st : State) : nat * State :=
  let t := nextTimer st in
  (t, set_nextTimer (S t) (set_timers (<[t := {| task := cb; delay := d |}]> (timers st)) st)).

(** [clearTimeout(t)] and [clearInterval(t)]: nothing happens when [t] is
    not the handle of an active timer. *)
Definition clearTimer (t : nat) (st : State) : State :=
  set_timers (delete t (timers st)) st.

Definition readyState (ws : nat) (st : State) : option ReadyState :=
  sockets st !! ws.

(** [ws.send(json)]. *)
Definition socket_send (ws : nat) (json : string) (st : State) : State :=
  set_sent (sent st ++ [(ws, json)]) st.

(** [ws.close(1000, reason)]: an open or connecting socket starts its
    closing handshake; the call is recorded. *)
Definition socket_close (ws : nat) (reason : option string) (st : State) : State :=
  let st1 := set_closed (closed st ++ [(ws, reason)]) st in
  match readyState ws st with
  | Some OPEN | Some CONNECTING => set_sockets (<[ws := CLOSING]> (sockets st1)) st1
  | _ => st1
  end.

(** [resolve(v)] of promise [p]: a settled promise stays as it is; a
    pending one is fulfilled and its awaiting continuation runs
    ([sendEventWithResponse], after [await promise]: [clearTimeout(timeout)]). *)
Definition resolve (p : nat) (v : JsValue) (st : State) : State :=
  match promises st !! p with
  | Some (Pending timeout) =>
      clearTimer timeout (set_promises (<[p := Fulfilled v]> (promises st)) st)
  | _ => st
  end.

(** [reject(r)] of promise [p]: the awaiting function rethrows, so its
    [clearTimeout] is skipped. *)
Definition reject (p : nat) (r : option JsValue) (st : State) : State :=
  match promises st !! p with
  | Some (Pending _) => set_promises (<[p := Rejected r]> (promises st)) st
  | _ => st
  end.

(** [logger.x(...)] *)
Definition write_log (l : LogLine) (st : State) : State :=
  set_logs (logs st ++ [l]) st.

(** [this.loggerConfig.isEnabledInternal() && logger.x(...)] *)
Definition log (l : LogLine) (st : State) : State :=
  if loggerEnabled st then write_log l st else st.

(** What the class takes from its surroundings.  [JSON_stringify] and
    [JSON_parse] are the platform's ([JSON_parse] answers [None] where
    [JSON.parse] throws); [WebSocket_new] tells whether [new WebSocket(url)]
    returns a socket or throws; the three constants are those of
    [communication/constants.ts], the last one as the text that the URL
    template renders for it. *)
Class Platform : Type := {
  JSON_stringify : JsValue -> string;
  JSON_parse : string -> option JsValue;
  WebSocket_new : string -> bool;
  WS_HEARTBEAT_INTERVAL : Z;
  WS_MISSING_HEARTBEAT_TIMEOUT_MS : Z;
  WS_MISSING_HEARTBEAT_TIMEOUT_SEC : string
}.

Section Methods.

Context {platform : Platform}.

(** [getWsUrl] of [communication/getUrlAddress.ts]. *)
Definition getWsUrl (hostname : string) (apiKey : option string) : string :=
  let apiKeyParam :=
    match apiKey with
    | Some k => if String.eqb k "" then "" else "api-key=" +:+ k +:+ "&"
    | None => ""
    end in
  let hostNameAndPort := hostname +:+ ":443" in
  "wss://" +:+ hostNameAndPort +:+ "/api/public/ws/control?" +:+ apiKeyParam
    +:+ "label=Script&kill_timeout=" +:+ WS_MISSING_HEARTBEAT_TIMEOUT_SEC.

(** *** The methods of the class, in the order of the source *)

Definition connected (st : State) : bool :=
  match socket st with
  | Some ws =>
      match readyState ws st with
      | Some OPEN => true
      | _ => false
      end
  | None => false
  end.

Definition sendMessageToSocket (jsonMessage : string) (isSubscriptionEvent : bool)
    (st : State) : State :=
  if connected st then
    let st1 := log (LogSending jsonMessage) st in
    match socket st1 with
    | Some ws => socket_send ws jsonMessage st1
    | None => st1
    end
  else if isSubscriptionEvent then
    log (LogSubscriptionNotConnected jsonMessage) st
  else
    let st1 := set_disconnectEventBuffer (disconnectEventBuffer st ++ [jsonMessage]) st in
    log (LogBuffered (length (disconnectEventBuffer st1)) jsonMessage) st1.

Definition sendEvent (message : JsValue) (isSubscriptionEvent : bool) (st : State) : State :=
  let jsonMessage := JSON_stringify message in
  let st1 :=
    if isSubscriptionEvent then
      let st0 := log (LogSubscription jsonMessage) st in
      set_subscriptionEvents (subscriptionEvents st0 ++ [jsonMessage]) st0
    else st in
  sendMessageToSocket jsonMessage isSubscriptionEvent st1.

(** [response.state !== "OK"] is the negation of this. *)
Definition stateIsOK (response : JsValue) : bool :=
  match prop response "state" with
  | Some (JStr s) => String.eqb s "OK"
  | _ => false
  end.

(** The handler stored by [sendEventWithResponse] (lines 130-137). *)
Definition invokeResultHandler (h : ResultHandler) (event : JsValue) (st : State) : State :=
  if negb (stateIsOK event) then reject (rh_promise h) (prop event "failReason") st
  else resolve (rh_promise h) event st.

(** The timeout callback armed by [sendEventWithResponse] (lines 138-142). *)
Definition responseTimeout (requestId : string) (p : nat) (st : State) : State :=
  match eventResultHandlers st !! requestId with
  | Some _ =>
      reject p (Some (JStr "Response was not obtained in 60s"))
        (set_eventResultHandlers (delete requestId (eventResultHandlers st)) st)
  | None => st
  end.

(** [sendEventWithResponse(requestEvent, isSubscriptionEvent)], up to its
    [await]; [requestId] is [requestEvent.requestId], a string by the type
    of the argument.  The executor of the promise registers the handler
    and arms the timer, then the request is sent, and [await promise]
    leaves the promise pending with the continuation that will clear the
    timer.  The result is the promise of the call. *)
Definition sendEventWithResponse (requestId : string) (requestEvent : JsValue)
    (isSubscriptionEvent : bool) (st : State) : nat * State :=
  let p := nextPromise st in
  let st1 := set_nextPromise (S p) st in
  let st2 :=
    set_eventResultHandlers (<[requestId := {| rh_promise := p |}]> (eventResultHandlers st1))
      st1 in
  let '(timeout, st3) := setTimer (ResponseTimeout requestId p) 60000 st2 in
  let st4 := sendEvent requestEvent isSubscriptionEvent st3 in
  (p, set_promises (<[p := Pending timeout]> (promises st4)) st4).

Definition addEventHandler (type : string) (onEvent : EventHandler) (st : State) : State :=
  set_eventHandlers (<[type := onEvent]> (eventHandlers st)) st.

Definition subscribeToEvent (requestType responseType : string) (dataEveryMs : float)
    (onEvent : EventHandler) (st : State) : State :=
  let st1 := set_eventHandlers (<[responseType := onEvent]> (eventHandlers st)) st in
  let eventSubscription :=
    JObj [("type", JStr requestType);
          ("dataEveryMs", JNum dataEveryMs);
          ("keepAliveMs", JNum 0%float);
          ("responseTag", JStr "deno-script-api")] in
  sendEvent eventSubscription true st1.

Definition subscribeToLiveEvent (requestType responseType : string)
    (onEvent : EventHandler) (st : State) : State :=
  let st1 := set_eventHandlers (<[responseType := onEvent]> (eventHandlers st)) st in
  let eventSubscription :=
    JObj [("keepAliveMs", JNum 0%float);
          ("responseTag", JStr "deno-script-api");
          ("type", JStr requestType)] in
  sendEvent eventSubscription true st1.

Definition reconnect (st : State) : State :=
  let '(t, st1) := setTimer Reconnect 1000 st in
  set_reconnectTimeout t st1.

Definition stopSentHeartBeat (st : State) : State :=
  match heartbeatSendingInterval st with
  | Some (S _ as t) =>
      set_lastIncomeHeartbeat None (set_heartbeatSendingInterval None (clearTimer t st))
  | _ => st
  end.

Definition isHeartbeatTimeout (st : State) : bool :=
  match lastIncomeHeartbeat st with
  | None => false
  | Some last => (clock st - last >? WS_MISSING_HEARTBEAT_TIMEOUT_MS)%Z
  end.

(** The callback of the heartbeat interval (lines 313-322). *)
Definition heartbeatTick (st : State) : State :=
  let event := JObj [("type", JStr "heartbeat")] in
  let st1 := if connected st then sendEvent event false st else st in
  if isHeartbeatTimeout st1 then
    let st2 := log LogMissingHeartbeat st1 in
    match socket st2 with
    | Some ws => socket_close ws (Some "Missing heartbeat") st2
    | None => st2
    end
  else st1.

Definition startSendHeartBeat (st : State) : State :=
  let st1 := stopSentHeartBeat st in
  let '(t, st2) := setTimer Heartbeat WS_HEARTBEAT_INTERVAL st1 in
  set_lastIncomeHeartbeat (Some (clock st2)) (set_heartbeatSendingInterval (Some t) st2).

Definition disconnect (st : State) : State :=
  match socket st with
  | Some ws =>
      let st1 := stopSentHeartBeat st in
      let st2 := set_socket None st1 in
      match readyState ws st2 with
      | Some OPEN | Some CONNECTING => socket_close ws None (log LogClosingSocket st2)
      | _ => st2
      end
  | None => st
  end.

(** The [catch] branch is taken when [new WebSocket(url)] throws; the
    listeners attached in the [try] branch are the cases of [step]. *)
Definition connect (st : State) : State :=
  let st1 := clearTimer (reconnectTimeout st) st in
  match socket st1 with
  | Some _ => st1
  | None =>
      let url := getWsUrl (hostname st1) (apiKey st1) in
      if WebSocket_new url then
        let ws := nextSocket st1 in
        let st2 :=
          set_nextSocket (S ws) (set_sockets (<[ws := CONNECTING]> (sockets st1)) st1) in
        set_socket (Some ws) (log LogConnecting st2)
      else
        reconnect (write_log ConsoleError (log LogConnectFailed st1))
  end.

Definition onDisconnect (ws : nat) (st : State) : State :=
  if negb (bool_decide (socket st = Some ws)) then st
  else reconnect (log LogDisconnected st).

(** [messages.forEach(json => this.sendMessageToSocket(json, b))] *)
Definition sendAll (b : bool) (messages : list string) (st : State) : State :=
  fold_left (fun s json => sendMessageToSocket json b s) messages st.

Definition onConnect (st : State) : State :=
  let st1 := sendAll true (subscriptionEvents st) st in
  let disconnectEventBuffer' := disconnectEventBuffer st1 in
  let st2 := set_disconnectEventBuffer [] st1 in
  let st3 := sendAll false disconnectEventBuffer' st2 in
  let st4 := startSendHeartBeat st3 in
  addEventHandler "heartbeat" HeartbeatHandler st4.

(** A call of a handler of [eventHandlers].  A client closure is code of
    the caller: its call is recorded. *)
Definition invokeEventHandler (action : EventHandler) (event : JsValue) (st : State) : State :=
  match action with
  | HeartbeatHandler => set_lastIncomeHeartbeat (Some (clock st)) st
  | ClientHandler h => set_dispatched (dispatched st ++ [(h, event)]) st
  end.

(** [this.eventResultHandlers.get(resultEvent.requestId)]: the keys of the
    map are strings, so only a string finds anything. *)
Definition getResultHandler (resultEvent : JsValue) (st : State) : option (string * ResultHandler) :=
  match prop resultEvent "requestId" with
  | Some (JStr requestId) =>
      match eventResultHandlers st !! requestId with
      | Some listener => Some (requestId, listener)
      | None => None
      end
  | _ => None
  end.

Definition processResponse (resultEvent : JsValue) (st : State) : State :=
  let st1 := log (LogProcessResponse (prop resultEvent "requestId")) st in
  match getResultHandler resultEvent st1 with
  | Some (requestId, listener) =>
      let st2 := set_eventResultHandlers (delete requestId (eventResultHandlers st1)) st1 in
      invokeResultHandler listener resultEvent st2
  | None => log LogNoListener st1
  end.

(** [this.eventHandlers.get(msgEvent.type)] *)
Definition getEventHandler (msgEvent : JsValue) (st : State) : option EventHandler :=
  match prop msgEvent "type" with
  | Some (JStr type) => eventHandlers st !! type
  | _ => None
  end.

(** Where [JSON.parse] throws, the listener ends there and nothing has
    been changed. *)
Definition receiveMessage (data : string) (st : State) : State :=
  match JSON_parse data with
  | None => st
  | Some msgEvent =>
      if negb (truthy (Some msgEvent)) then write_log (LogCannotParse data) st
      else if truthy (prop msgEvent "requestId") then processResponse msgEvent st
      else
        match getEventHandler msgEvent st with
        | Some action => invokeEventHandler action msgEvent st
        | None => st
        end
  end.

(** *** Turns of the event loop *)

(** The callback of timer [t] runs; a one-shot timer is spent by it. *)
Definition fireTimer (t : nat) (st : State) : State :=
  match timers st !! t with
  | None => st
  | Some tm =>
      match task tm with
      | ResponseTimeout requestId p => responseTimeout requestId p (clearTimer t st)
      | Reconnect => connect (disconnect (clearTimer t st))
      | Heartbeat => heartbeatTick st
      end
  end.

(** What the host delivers: the four events of a WebSocket that [connect]
    listens to, a timer that comes due, and the passing of time. *)
Inductive Input : Type :=
| SocketOpen (ws : nat)
| SocketMessage (ws : nat) (data : string)
| SocketClose (ws : nat)
| SocketError (ws : nat)
| TimerFires (t : nat)
| ClockAdvance (to : Z).

(** One turn: the listener that [connect] attached for the event. *)
Definition step (i : Input) (st : State) : State :=
  match i with
  | SocketOpen ws =>
      match readyState ws st with
      | Some _ => onConnect (log LogConnected (set_sockets (<[ws := OPEN]> (sockets st)) st))
      | None => st
      end
  | SocketMessage ws data =>
      match readyState ws st with
      | Some _ => receiveMessage data st
      | None => st
      end
  | SocketClose ws =>
      match readyState ws st with
      | Some _ => onDisconnect ws (set_sockets (<[ws := CLOSED]> (sockets st)) st)
      | None => st
      end
  | SocketError ws =>
      match readyState ws st with
      | Some _ => reconnect (log LogSocketError st)
      | None => st
      end
  | TimerFires t => fireTimer t st
  | ClockAdvance to => set_clock to st
  end.

Definition run (inputs : list Input) (st : State) : State :=
  fold_left (fun s i => step i s) inputs st.

(** The constructor: the field initialisers, then [this.connect()].  The
    host starts with no socket, timer or promise; [enabled] is the logger
    switch and [time] the clock reading. *)
Definition fresh (hostname : string) (apiKey : option string) (enabled : bool) (time : Z)
    : State :=
  MkState hostname apiKey None 0 [] [] ∅ ∅ None None enabled time ∅ 1 [] [] ∅ 1 ∅ 1 [] [].

Definition new (hostname : string) (apiKey : option string) (enabled : bool) (time : Z)
    : State :=
  connect (fresh hostname apiKey enabled time).

(** The lines [log l] adds in state [st]. *)
Definition logged (l : LogLine) (st : State) : list LogLine :=
  if loggerEnabled st then [l] else [].

(** How a result handler settles its promise. *)
Definition settlement (event : JsValue) : PromiseState :=
  if stateIsOK event then Fulfilled event else Rejected (prop event "failReason").

(** [sendMessageToSocket] and [sendEvent] write to the socket, the log,
    the disconnect buffer and the subscription registry, and to nothing
    else. *)
Definition same_tables (st st' : State) : Prop :=
  timers st' = timers st /\ nextTimer st' = nextTimer st
  /\ promises st' = promises st /\ nextPromise st' = nextPromise st
  /\ eventResultHandlers st' = eventResultHandlers st
  /\ eventHandlers st' = eventHandlers st
  /\ socket st' = socket st /\ sockets st' = sockets st
  /\ loggerEnabled st' = loggerEnabled st
  /\ lastIncomeHeartbeat st' = lastIncomeHeartbeat st /\ clock st' = clock st
  /\ heartbeatSendingInterval st' = heartbeatSendingInterval st
  /\ closed st' = closed st /\ reconnectTimeout st' = reconnectTimeout st
  /\ nextSocket st' = nextSocket st /\ dispatched st' = dispatched st
  /\ hostname st' = hostname st /\ apiKey st' = apiKey st.

(** [onConnect] is replay, swap, flush, then the heartbeat set-up. *)
Definition replayed (st : State) : State := sendAll true (subscriptionEvents st) st.

Definition flushed (st : State) : State :=
  sendAll false (disconnectEventBuffer (replayed st))
    (set_disconnectEventBuffer [] (replayed st)).

(** *** The flush, with the host free to act between two sends *)




(** *** The subscription registry *)

(** A call of one of the two subscribe methods under a given response
    type. *)
Inductive Subscribe : Type :=
| Poll (requestType : string) (dataEveryMs : float) (onEvent : EventHandler)
| Live (requestType : string) (onEvent : EventHandler).

Definition subscribe (responseType : string) (c : Subscribe) (st : State) : State :=
  match c with
  | Poll requestType dataEveryMs onEvent =>
      subscribeToEvent requestType responseType dataEveryMs onEvent st
  | Live requestType onEvent => subscribeToLiveEvent requestType responseType onEvent st
  end.

(** The object the call serialises. *)
Definition payload (c : Subscribe) : JsValue :=
  match c with
  | Poll requestType dataEveryMs _ =>
      JObj [("type", JStr requestType);
            ("dataEveryMs", JNum dataEveryMs);
            ("keepAliveMs", JNum 0%float);
            ("responseTag", JStr "deno-script-api")]
  | Live requestType _ =>
      JObj [("keepAliveMs", JNum 0%float);
            ("responseTag", JStr "deno-script-api");
            ("type", JStr requestType)]
  end.

Definition handlerOf (c : Subscribe) : EventHandler :=
  match c with
  | Poll _ _ onEvent => onEvent
  | Live _ onEvent => onEvent
  end.

(** *** Everything that can happen to a client *)

(** The public methods, as a caller uses them. *)
Inductive Call : Type :=
| CallSendEvent (message : JsValue) (isSubscriptionEvent : bool)
| CallSendEventWithResponse (requestId : string) (requestEvent : JsValue)
    (isSubscriptionEvent : bool)
| CallAddEventHandler (type : string) (onEvent : EventHandler)
| CallSubscribe (responseType : string) (c : Subscribe).

Definition call (c : Call) (st : State) : State :=
  match c with
  | CallSendEvent message isSubscriptionEvent => sendEvent message isSubscriptionEvent st
  | CallSendEventWithResponse requestId requestEvent isSubscriptionEvent =>
      snd (sendEventWithResponse requestId requestEvent isSubscriptionEvent st)
  | CallAddEventHandler type onEvent => addEventHandler type onEvent st
  | CallSubscribe responseType c => subscribe responseType c st
  end.

(** A turn is a host event or a call of a public method. *)
Inductive Turn : Type :=
| HostTurn (i : Input)
| ClientTurn (c : Call).

Definition turn (t : Turn) (st : State) : State :=
  match t with
  | HostTurn i => step i st
  | ClientTurn c => call c st
  end.

Definition turns (l : list Turn) (st : State) : State :=
  fold_left (fun s t => turn t s) l st.

(** *** A request that is still waiting for its response *)

(** The call of [sendEventWithResponse] under [requestId], with promise
    [p] and timer [t], is still waiting: its timer is armed, its handler
    registered and its promise pending. *)
Definition awaiting (requestId : string) (p t : nat) (st : State) : Prop :=
  timers st !! t = Some {| task := ResponseTimeout requestId p; delay := 60000 |}
  /\ eventResultHandlers st !! requestId = Some {| rh_promise := p |}
  /\ promises st !! p = Some (Pending t).

(** A timer callback that belongs to another request. *)
Definition foreign (requestId : string) (p : nat) (cb : TimerTask) : Prop :=
  match cb with
  | ResponseTimeout requestId' p' => requestId' <> requestId /\ p' <> p
  | _ => True
  end.

(** Nothing else in the state refers to the identifier, the promise or
    the timer of that call, and the counters are past its handles. *)
Definition unshared (requestId : string) (p t : nat) (st : State) : Prop :=
  (forall t' tm, timers st !! t' = Some tm -> t' <> t -> foreign requestId p (task tm))
  /\ (forall requestId' h, eventResultHandlers st !! requestId' = Some h ->
                           requestId' <> requestId -> rh_promise h <> p)
  /\ (forall p' t', promises st !! p' = Some (Pending t') -> p' <> p -> t' <> t)
  /\ t < nextTimer st
  /\ p < nextPromise st
  /\ heartbeatSendingInterval st <> Some t
  /\ reconnectTimeout st <> t.

(** What [requestId] uniqueness asks of the state in which the request is
    made: no armed timeout belongs to that identifier, and the handles in
    use are below the counters that hand out new ones. *)
Definition unused (requestId : string) (st : State) : Prop :=
  (forall t' tm, timers st !! t' = Some tm ->
                 match task tm with
                 | ResponseTimeout requestId' p' =>
                     requestId' <> requestId /\ p' < nextPromise st
                 | _ => True
                 end)
  /\ (forall requestId' h, eventResultHandlers st !! requestId' = Some h ->
                           rh_promise h < nextPromise st)
  /\ (forall p' t', promises st !! p' = Some (Pending t') -> t' < nextTimer st)
  /\ (forall hb, heartbeatSendingInterval st = Some hb -> hb < nextTimer st)
  /\ reconnectTimeout st < nextTimer st.

(** A turn that is neither a response to [requestId], nor the timeout
    [t], nor a new request under the same identifier. *)
Definition quiet (requestId : string) (t : nat) (tn : Turn) : Prop :=
  match tn with
  | HostTurn (SocketMessage _ data) =>
      forall msgEvent, JSON_parse data = Some msgEvent ->
                       prop msgEvent "requestId" <> Some (JStr requestId)
  | HostTurn (TimerFires t') => t' <> t
  | ClientTurn (CallSendEventWithResponse requestId' _ _) => requestId' <> requestId
  | _ => True
  end.

(** The request is waiting and nothing interferes with it. *)
Definition waits (requestId : string) (p t : nat) (st : State) : Prop :=
  awaiting requestId p t st /\ unshared requestId p t st.

(** The fields that timers, request handlers and promises live in. *)
Definition key (st : State) :=
  (timers st, nextTimer st, promises st, nextPromise st, eventResultHandlers st,
   heartbeatSendingInterval st, reconnectTimeout st).

(** *** Responses delivered one after the other *)

(** A frame as the [message] listener sees it: the text received, the
    value [JSON.parse] makes of it, and the request identifier it
    carries. *)
Record Response : Type := {
  frameData : string;
  frameEvent : JsValue;
  frameRequestId : string
}.

Definition answers (f : Response) : Prop :=
  JSON_parse (frameData f) = Some (frameEvent f)
  /\ prop (frameEvent f) "requestId" = Some (JStr (frameRequestId f))
  /\ frameRequestId f <> "".

(** The [message] listener run on each frame in turn. *)
Definition deliver (frames : list string) (st : State) : State :=
  fold_left (fun s data => receiveMessage data s) frames st.

(** An event frame of type [heartbeat]. *)
Definition heartbeatFrame (data : string) (msgEvent : JsValue) : Prop :=
  JSON_parse data = Some msgEvent
  /\ prop msgEvent "type" = Some (JStr "heartbeat")
  /\ truthy (prop msgEvent "requestId") = false.

(** *** The heartbeat interval and the reconnect timer *)

(** Every armed heartbeat interval is the one whose handle the class
    holds in [heartbeatSendingInterval]; handles are positive. *)
Definition oneHeartbeat (st : State) : Prop :=
  0 < nextTimer st
  /\ (forall hb, heartbeatSendingInterval st = Some hb -> 0 < hb)
  /\ (forall t tm, timers st !! t = Some tm -> task tm = Heartbeat ->
                   heartbeatSendingInterval st = Some t).

(** A turn that makes a new request under [requestId]. *)
Definition reuses (requestId : string) (tn : Turn) : Prop :=
  match tn with
  | ClientTurn (CallSendEventWithResponse requestId' _ _) => requestId' = requestId
  | _ => False
  end.

(** The reconnect timer held in [reconnectTimeout] comes due [n] times in
    a row. *)
Definition retries (n : nat) (st : State) : State :=
  Nat.iter n (fun s => step (TimerFires (reconnectTimeout s)) s) st.

End Methods.

End WebSocketCommunication.

(** ** DesignUtil: the single-flight design loader *)

Module DesignUtil.

Inductive LoadDesignState : Type := NONE | DONE | LOADING | ERROR.

(** [s == LoadDesignState.LOADING] *)
Definition isLOADING (s : LoadDesignState) : bool :=
  match s with
  | LOADING => true
  | _ => false
  end.

(** The parts of a [DspDesign] that the loader reads: each runtime entry
    and each drawflow node has a component [type]. *)
Record ANpdConfig : Type := { cmpType : string; cmpConfig : JsValue }.

Record DrawflowNode : Type := { nodeType : string; nodeName : string; nodeId : Z }.

Record DspDesign : Type := {
  metadata : JsValue;
  runtime : gmap string ANpdConfig;
  drawflowHomeData : list DrawflowNode
}.

Record PartialDesign : Type := {
  pd_metadata : JsValue;
  pd_runtime : gmap string ANpdConfig;
  pd_nameToId : gmap string Z
}.

(** [NnComponentName]: gain, net_rx, net_tx, ducker. *)
Definition DESIRED_COMPONENT_TYPES : list string := ["gain"; "net_rx"; "net_tx"; "ducker"].

Definition desired (type : string) : bool :=
  bool_decide (type ∈ DESIRED_COMPONENT_TYPES).

(** The fields of [DesignHelper], then the host.  A completion callback
    [() => resolve()] is known by the promise [w] it resolves.  The
    remote fetch is the call
    [RetryUtil.runAsync("Loading design", () => sendEventWithResponse(...))]:
    with its default retry count it repeats the request until one
    succeeds, so it never rejects; [fetchesStarted] counts the calls made
    and [fetchesInFlight] those that have not returned yet.  [resolved]
    lists the waiters' promises in the order they were resolved. *)
Record State : Type := MkState {
  partialDesign : option PartialDesign;
  timestamp : Z;
  state : LoadDesignState;
  loadFinishConsumers : list nat;
  loaderIdentifier : option string;
  now : Z;
  fetchesStarted : nat;
  fetchesInFlight : nat;
  resolved : list nat;
  nextWaiter : nat
}.

Definition eta (st : State) : State :=
  MkState (partialDesign st) (timestamp st) (state st) (loadFinishConsumers st)
    (loaderIdentifier st) (now st) (fetchesStarted st) (fetchesInFlight st) (resolved st)
    (nextWaiter st).

Ltac assign f :=
  let v := fresh "v" in
  let st := fresh "st" in
  intros v st;
  let e := eval cbv delta [eta] beta in (eta st) in
  let e' := eval pattern (f st) in e in
  lazymatch e' with
  | ?g _ => let r := eval cbv beta in (g v) in exact r
  end.

Definition set_partialDesign : option PartialDesign -> State -> State :=
  ltac:(assign partialDesign).
Definition set_timestamp : Z -> State -> State := ltac:(assign timestamp).
Definition set_state : LoadDesignState -> State -> State := ltac:(assign state).
Definition set_loadFinishConsumers : list nat -> State -> State :=
  ltac:(assign loadFinishConsumers).
Definition set_loaderIdentifier : option string -> State -> State :=
  ltac:(assign loaderIdentifier).
Definition set_fetchesStarted : nat -> State -> State := ltac:(assign fetchesStarted).
Definition set_fetchesInFlight : nat -> State -> State := ltac:(assign fetchesInFlight).
Definition set_resolved : list nat -> State -> State := ltac:(assign resolved).
Definition set_nextWaiter : nat -> State -> State := ltac:(assign nextWaiter).

(** [new DesignHelper()] at clock reading [time]. *)
Definition new (time : Z) : State :=
  MkState None 0 NONE [] None time 0 0 [] 1.

Definition notifyAllDesignConsumers (st : State) : State :=
  let st1 := set_resolved (resolved st ++ loadFinishConsumers st) st in
  set_loadFinishConsumers [] st1.

(** What a call of [loadDesignInternal] has done when it first suspends:
    it waits on promise [w] for the loader in flight, or it has become the
    loader and awaits its own fetch. *)
Inductive Outcome : Type :=
| Waits (w : nat)
| Fetches.

(** [loadDesignInternal(identifier)] up to its first suspension (lines
    264-282). *)
Definition loadDesignInternal (identifier : string) (st : State) : Outcome * State :=
  if isLOADING (state st) && negb (bool_decide (loaderIdentifier st = Some identifier))
  then
    let w := nextWaiter st in
    let st1 := set_nextWaiter (S w) st in
    if isLOADING (state st1)
    then (Waits w, set_loadFinishConsumers (loadFinishConsumers st1 ++ [w]) st1)
    else (Waits w, set_resolved (resolved st1 ++ [w]) st1)
  else
    let st1 := set_state LOADING st in
    let st2 := set_loaderIdentifier (Some identifier) st1 in
    (Fetches,
     set_fetchesInFlight (S (fetchesInFlight st2))
       (set_fetchesStarted (S (fetchesStarted st2)) st2)).

(** The design kept from a loaded [DspDesign] (lines 292-311). *)
Definition partialOf (dspDesign : DspDesign) : PartialDesign :=
  let runtime' := filter (fun entry => desired (cmpType entry.2) = true) (runtime dspDesign) in
  let nameToIdMap :=
    fold_left (fun m node => <[nodeName node := nodeId node]> m)
      (List.filter (fun node => desired (nodeType node)) (drawflowHomeData dspDesign))
      (∅ : gmap string Z) in
  {| pd_metadata := metadata dspDesign; pd_runtime := runtime'; pd_nameToId := nameToIdMap |}.

(** The rest of [loadDesignInternal], run when the loader's fetch returns
    (lines 283-314); [data] is [event.data], absent when the device runs
    no design. *)
Definition loadDesignInternal_resume (data : option DspDesign) (st : State) : State :=
  let st0 := set_fetchesInFlight (pred (fetchesInFlight st)) st in
  match data with
  | None => notifyAllDesignConsumers (set_state ERROR st0)
  | Some dspDesign =>
      let st1 := set_partialDesign (Some (partialOf dspDesign)) st0 in
      let st2 := set_timestamp (now st1) st1 in
      notifyAllDesignConsumers (set_state DONE st2)
  end.

(** [loadDesign()]: [identifier] is the value [getIdentifier()] returned.
    The [catch] of the method is reached only if [loadDesignInternal]
    throws, which a response of the declared type never causes. *)
Definition loadDesign (identifier : string) (st : State) : Outcome * State :=
  loadDesignInternal identifier st.

(** The handler of [designChangeNotify] that [initDesign] registers: it
    drops the cached design, resets the state and loads again. *)
Definition onDesignChangeNotify (identifier : string) (st : State) : Outcome * State :=
  loadDesign identifier (set_state NONE (set_partialDesign None st)).

(** [load()] called once for each identifier, in turn. *)
Definition loadAll (identifiers : list string) (st : State) : State :=
  fold_left (fun s identifier => snd (loadDesign identifier s)) identifiers st.

(** *** The loader's turns *)

Definition set_now : Z -> State -> State := ltac:(assign now).

(** What happens to the loader between two suspensions: a call of
    [load()], under the identifier that [getIdentifier()] gave it; the
    return of a fetch with the [data] of its response, at which the call
    that awaits [runAsync] resumes; a [designChangeNotify] frame, whose
    handler runs up to the [await] of its [loadDesign()]; the clock
    moving on. *)
Inductive Event : Type :=
| Load (identifier : string)
| FetchReturns (data : option DspDesign)
| DesignChangeNotify (identifier : string)
| ClockReads (time : Z).

(** No fetch returns unless one is in flight. *)
Definition handle (e : Event) (st : State) : State :=
  match e with
  | Load identifier => snd (loadDesign identifier st)
  | FetchReturns data =>
      match fetchesInFlight st with
      | O => st
      | S _ => loadDesignInternal_resume data st
      end
  | DesignChangeNotify identifier => snd (onDesignChangeNotify identifier st)
  | ClockReads time => set_now time st
  end.

Definition handleAll (events : list Event) (st : State) : State :=
  fold_left (fun s e => handle e s) events st.

(** The histories in which loads are only ever concurrent with a loader:
    no [load()] is called under the identity of the loader in flight, and
    no [designChangeNotify] frame arrives while a fetch is in flight. *)
Definition apart (e : Event) (st : State) : bool :=
  match e with
  | Load identifier =>
      negb (isLOADING (state st) && bool_decide (loaderIdentifier st = Some identifier))
  | DesignChangeNotify _ => bool_decide (fetchesInFlight st = 0)
  | FetchReturns _ | ClockReads _ => true
  end.

Fixpoint undisturbed (events : list Event) (st : State) : bool :=
  match events with
  | [] => true
  | e :: rest => apart e st && undisturbed rest (handle e st)
  end.

(** A fetch is in flight exactly while the state is LOADING, and then
    under a loader's identity. *)
Definition singleFlight (st : State) : Prop :=
  fetchesInFlight st = (if isLOADING (state st) then 1 else 0)
  /\ (state st = LOADING -> exists loader, loaderIdentifier st = Some loader).

(** The cached design holds runtime entries of the desired types only,
    and the state is DONE only with a cached design. *)
Definition keptOnly (st : State) : Prop :=
  (forall design key config,
      partialDesign st = Some design -> pd_runtime design !! key = Some config ->
      desired (cmpType config) = true)
  /\ (state st = DONE -> exists design, partialDesign st = Some design).

(** *** The getters *)

(** [s !== LoadDesignState.DONE] is the negation of this. *)
Definition isDONE (s : LoadDesignState) : bool :=
  match s with
  | DONE => true
  | _ => false
  end.

(** The argument [id: number | string] of the getters; component
    numbers are integers. *)
Inductive ComponentRef : Type :=
| ByNumber (n : Z)
| ByName (name : string).

(** How a call ends: [throw new Error(message)] or [return value]. *)
Inductive Completion (A : Type) : Type :=
| Throw (message : string)
| Return (value : A).

Arguments Throw {A} message.
Arguments Return {A} value.

Record NpdComponentMetadata : Type := {
  npdComponentConfig : ANpdConfig;
  designRuntime : gmap string ANpdConfig;
  designMetadata : JsValue
}.

(** The line that [getComponentMetadata] writes with [logger.error]
    before it throws (lines 217-223).  The identifiers it lists are kept
    as a set: the order in which [Object.entries] yields them is not
    modelled. *)
Record CannotFind : Type := {
  lineType : string;
  lineIdentifierText : string;
  lineComponentId : string;
  lineAvailable : gset string
}.

Section Getters.

(** The text that a template literal and [+] make of a number. *)
Context (numberToString : Z -> string).

(** ["" + id] *)
Definition refText (id : ComponentRef) : string :=
  match id with
  | ByNumber n => numberToString n
  | ByName name => name
  end.

(** [getComponentId(id)]: [Return None] is the result [null]. *)
Definition getComponentId (id : ComponentRef) (st : State) : Completion (option string) :=
  if negb (isDONE (state st)) then Throw "Design is not available."
  else
    match partialDesign st with
    | None => Return None
    | Some dspDesign =>
        match id with
        | ByName name =>
            match pd_nameToId dspDesign !! name with
            | Some id_number =>
                if (id_number =? 0)%Z then Return (Some name)
                else Return (Some (numberToString id_number))
            | None => Return (Some name)
            end
        | ByNumber n => Return (Some (numberToString n))
        end
    end.

(** [getComponentMetadata(id, type)], with the lines it logged. *)
Definition getComponentMetadata (id : ComponentRef) (type : string) (st : State)
    : list CannotFind * Completion NpdComponentMetadata :=
  if negb (isDONE (state st)) then ([], Throw "Design is not available.")
  else
    match getComponentId id st with
    | Throw message => ([], Throw message)
    | Return None =>
        ([], Throw ("Cannot find component with ID or name '" +:+ refText id +:+ "'."))
    | Return (Some componentId) =>
        let npdComponentConfig :=
          match partialDesign st with
          | Some design => pd_runtime design !! componentId
          | None => None
          end in
        let found :=
          match partialDesign st, npdComponentConfig with
          | Some design, Some config =>
              if String.eqb (cmpType config) type
              then Some {| npdComponentConfig := config;
                           designRuntime := pd_runtime design;
                           designMetadata := pd_metadata design |}
              else None
          | _, _ => None
          end in
        match found with
        | Some metadata => ([], Return metadata)
        | None =>
            let available :=
              match partialDesign st with
              | Some design =>
                  dom (filter (fun entry => cmpType entry.2 = type) (pd_runtime design))
              | None => ∅
              end in
            let identifierText :=
              match id with
              | ByName name => if String.eqb name componentId then "name" else "ID"
              | ByNumber _ => "ID"
              end in
            ([{| lineType := type; lineIdentifierText := identifierText;
                 lineComponentId := componentId; lineAvailable := available |}],
             Throw ("Cannot find component with ID or name '" +:+ refText id
                    +:+ "' of type '" +:+ type +:+ "'."))
        end
    end.

End Getters.

End DesignUtil.

(** ** RetryUtil *)

Module RetryUtil.

Section RunAsync.

(** [T] is the type of the value that [process()] resolves to, [E] the
    type of what it throws or rejects with. *)
Context {T E : Type}.

(** How one call of [process()] ends. *)
Inductive Attempt : Type :=
| Fails (e : E)
| Succeeds (v : T).

(** What [runAsync] has done: the calls of [process()], the lines it
    wrote with [console.error] (with the count the line reports, absent
    when the count is not positive), and its sleeps. *)
Inductive Effect : Type :=
| CallProcess
| ConsoleError (remain : option Z) (e : E)
| Sleep (ms : Z).

(** How the promise of [runAsync] stands: fulfilled, rejected, or
    pending with the loop waiting for the next call of [process()] to
    end. *)
Inductive Result : Type :=
| Returns (v : T)
| Throws (e : E)
| Retrying.

(** [runAsync(processInfo, process, retryCount, retryDelayMs)], for an
    integer [retryCount]; [process] lists how the successive calls of
    [process()] end, as far as they are known. *)
Fixpoint runAsync (process : list Attempt) (retryCount retryDelayMs : Z)
    : Result * list Effect :=
  match process with
  | [] => (Retrying, [])
  | Succeeds v :: _ => (Returns v, [CallProcess])
  | Fails e :: rest =>
      let retryCount := if (retryCount >? 0)%Z then (retryCount - 1)%Z else retryCount in
      if (retryCount =? 0)%Z then (Throws e, [CallProcess])
      else
        let remain := if (retryCount >? 0)%Z then Some retryCount else None in
        let '(r, effects) := runAsync rest retryCount retryDelayMs in
        (r, CallProcess :: ConsoleError remain e :: Sleep retryDelayMs :: effects)
  end.

(** The default arguments: [retryCount = -1], [retryDelayMs = 1000]. *)
Definition runAsync_default (process : list Attempt) : Result * list Effect :=
  runAsync process (-1) 1000.

(** The value of the first call of [process()] that succeeds, if one
    does. *)
Fixpoint firstSuccess (process : list Attempt) : option T :=
  match process with
  | [] => None
  | Succeeds v :: _ => Some v
  | Fails _ :: rest => firstSuccess rest
  end.

Definition isCall (x : Effect) : bool :=
  match x with
  | CallProcess => true
  | _ => false
  end.

(** The number of calls of [process()] among the effects. *)
Definition calls (effects : list Effect) : nat := length (List.filter isCall effects).

(** The sleeps among the effects, in order. *)
Fixpoint sleeps (effects : list Effect) : list Z :=
  match effects with
  | [] => []
  | Sleep ms :: rest => ms :: sleeps rest
  | _ :: rest => sleeps rest
  end.

End RunAsync.

Arguments Attempt : clear implicits.
Arguments Effect : clear implicits.
Arguments Result : clear implicits.

End RetryUtil.

(** ** Arrays and insertion-ordered maps of the host *)

Module JsArray.

Section Array.

Context {A : Type} `{EqDecision A}.

(** [array.indexOf(x)]: the first index that holds [x], or -1. *)
Fixpoint indexOf (x : A) (array : list A) : Z :=
  match array with
  | [] => -1
  | y :: rest =>
      if decide (x = y) then 0
      else
        let i := indexOf x rest in
        if (i <? 0)%Z then -1 else (i + 1)%Z
  end.

(** [array.splice(start, deleteCount)], as the array is afterwards: a
    negative [start] counts from the end, and the range removed is cut
    to the array. *)
Definition splice (start deleteCount : Z) (array : list A) : list A :=
  let len := Z.of_nat (length array) in
  let actualStart :=
    if (start <? 0)%Z then Z.max (len + start) 0 else Z.min start len in
  let actualDeleteCount := Z.min (Z.max deleteCount 0) (len - actualStart) in
  take (Z.to_nat actualStart) array
    ++ drop (Z.to_nat (actualStart + actualDeleteCount)) array.

End Array.

End JsArray.

(** A [Map] with string keys, in insertion order: [set] on a key that is
    present keeps its place. *)
Module JsMap.

Section Map.

Context {V : Type}.

Fixpoint set (key : string) (value : V) (entries : list (string * V)) : list (string * V) :=
  match entries with
  | [] => [(key, value)]
  | (k, v) :: rest =>
      if String.eqb k key then (k, value) :: rest else (k, v) :: set key value rest
  end.

Fixpoint get (key : string) (entries : list (string * V)) : option V :=
  match entries with
  | [] => None
  | (k, v) :: rest => if String.eqb k key then Some v else get key rest
  end.

Definition keys (entries : list (string * V)) : list string := map fst entries.

End Map.

End JsMap.

(** ** NnDuckerStatesUtil *)

Module NnDuckerStatesUtil.

(** The listeners by component, each known by its identity, the logger
    switch, and the traces of the calls made to listeners and of the
    values logged.  The subscription that the constructor makes is a call
    of [subscribeToLiveEvent] of the connection. *)
Record State : Type := MkState {
  activeChangeListeners : gmap string (list nat);
  loggerEnabled : bool;
  called : list (nat * bool);
  logs : list bool
}.

Definition set_activeChangeListeners (v : gmap string (list nat)) (st : State) : State :=
  MkState v (loggerEnabled st) (called st) (logs st).

Definition set_called (v : list (nat * bool)) (st : State) : State :=
  MkState (activeChangeListeners st) (loggerEnabled st) v (logs st).

Definition set_logs (v : list bool) (st : State) : State :=
  MkState (activeChangeListeners st) (loggerEnabled st) (called st) v.

(** [this.activeChangeListeners.get(componentId) ?? []] *)
Definition listenersOf (componentId : string) (st : State) : list nat :=
  default [] (activeChangeListeners st !! componentId).

Definition new (enabled : bool) : State := MkState ∅ enabled [] [].

(** [onActiveChange(componentId, listener)]; the object it returns is
    the closure [removeListener] below at the same arguments. *)
Definition onActiveChange (componentId : string) (listener : nat) (st : State) : State :=
  let changeCbs := listenersOf componentId st ++ [listener] in
  set_activeChangeListeners (<[componentId := changeCbs]> (activeChangeListeners st)) st.

Definition removeListener (componentId : string) (listener : nat) (st : State) : State :=
  let inputChangeCbs := listenersOf componentId st in
  let index := JsArray.indexOf listener inputChangeCbs in
  set_activeChangeListeners
    (<[componentId := JsArray.splice index 1 inputChangeCbs]> (activeChangeListeners st)) st.

(** [onPrimaryActiveChangeEvent(event)]: [componentId] is
    [event.componentId.toString()]. *)
Definition onPrimaryActiveChangeEvent (componentId : string) (priorityActive : bool)
    (st : State) : State :=
  let st1 := if loggerEnabled st then set_logs (logs st ++ [priorityActive]) st else st in
  match activeChangeListeners st1 !! componentId with
  | Some onChangeCallbacks =>
      set_called (called st1 ++ map (fun cb => (cb, priorityActive)) onChangeCallbacks) st1
  | None => st1
  end.

End NnDuckerStatesUtil.

(** ** IOControlStates *)

Module IOControlStates.

Inductive IoPinMode : Type := INPUT | OUTPUT.

Inductive IoPinType : Type := CONTROL | GPIO.

(** Pin numbers are integers; values are doubles. *)
Record IoControl : Type := {
  pinType : IoPinType;
  pinMode : IoPinMode;
  pin : Z;
  value : float
}.

(** The fields of the class, the logger switch, and the traces of the
    listener calls [cb(value, oldValue)] and of the lines logged. *)
Record State : Type := MkState {
  outputStates : gmap Z IoControl;
  inputStates : gmap Z float;
  inputChangeListeners : gmap Z (list nat);
  loggerEnabled : bool;
  initialized : bool;
  called : list (nat * float * float);
  logs : list (Z * float * float)
}.

Definition set_outputStates (v : gmap Z IoControl) (st : State) : State :=
  MkState v (inputStates st) (inputChangeListeners st) (loggerEnabled st) (initialized st)
    (called st) (logs st).

Definition set_inputStates (v : gmap Z float) (st : State) : State :=
  MkState (outputStates st) v (inputChangeListeners st) (loggerEnabled st) (initialized st)
    (called st) (logs st).

Definition set_inputChangeListeners (v : gmap Z (list nat)) (st : State) : State :=
  MkState (outputStates st) (inputStates st) v (loggerEnabled st) (initialized st) (called st)
    (logs st).

Definition set_initialized (v : bool) (st : State) : State :=
  MkState (outputStates st) (inputStates st) (inputChangeListeners st) (loggerEnabled st) v
    (called st) (logs st).

Definition set_called (v : list (nat * float * float)) (st : State) : State :=
  MkState (outputStates st) (inputStates st) (inputChangeListeners st) (loggerEnabled st)
    (initialized st) v (logs st).

Definition set_logs (v : list (Z * float * float)) (st : State) : State :=
  MkState (outputStates st) (inputStates st) (inputChangeListeners st) (loggerEnabled st)
    (initialized st) (called st) v.

(** The constructor; the handler it registers with [addEventHandler]
    for [ioPinStateSubscriptionNotify] is [onControlStateEvent] below. *)
Definition new (enabled : bool) : State := MkState ∅ ∅ ∅ enabled false [] [].

Definition isOutputControl (ioControl : IoControl) : bool :=
  match pinMode ioControl, pinType ioControl with
  | OUTPUT, CONTROL => true
  | _, _ => false
  end.

Definition isInputControl (ioControl : IoControl) : bool :=
  match pinMode ioControl, pinType ioControl with
  | INPUT, CONTROL => true
  | _, _ => false
  end.

Definition getOutputValue (pin : Z) (st : State) : option IoControl := outputStates st !! pin.

(** [this.inputStates.get(pin) ?? 0] *)
Definition getInputValue (pin : Z) (st : State) : float :=
  default 0%float (inputStates st !! pin).

(** [this.inputChangeListeners.get(input) ?? []] *)
Definition listenersOf (input : Z) (st : State) : list nat :=
  default [] (inputChangeListeners st !! input).

(** [onInputChange(input, listener)]; the object it returns is the
    closure [removeListener] below at the same arguments. *)
Definition onInputChange (input : Z) (listener : nat) (st : State) : State :=
  let changeCbs := listenersOf input st ++ [listener] in
  set_inputChangeListeners (<[input := changeCbs]> (inputChangeListeners st)) st.

Definition removeListener (input : Z) (listener : nat) (st : State) : State :=
  let inputChangeCbs := listenersOf input st in
  let index := JsArray.indexOf listener inputChangeCbs in
  set_inputChangeListeners
    (<[input := JsArray.splice index 1 inputChangeCbs]> (inputChangeListeners st)) st.

Definition updateOutputValues (states : list IoControl) (st : State) : State :=
  fold_left
    (fun s ioControl =>
       if isOutputControl ioControl
       then set_outputStates (<[pin ioControl := ioControl]> (outputStates s)) s
       else s)
    states st.

(** The threshold is the double nearest to 0.1. *)
Definition isChangeOnInput (currentLevelState lastState : float) (st : State) : bool :=
  if bool_decide (size (inputStates st) = 0) then false
  else PrimFloat.ltb 0x1.999999999999ap-4 (PrimFloat.abs (PrimFloat.sub currentLevelState lastState)).

(** [x || 0] of a number. *)
Definition orZero (x : option float) : float :=
  match x with
  | Some v => if PrimFloat.is_zero v || PrimFloat.is_nan v then 0%float else v
  | None => 0%float
  end.

(** The body of the second [forEach] of [onControlStateEvent]. *)
Definition onInputState (ioControl : IoControl) (st : State) : State :=
  let lastState := orZero (inputStates st !! pin ioControl) in
  let isChange := isChangeOnInput (value ioControl) lastState st in
  let st1 := set_inputStates (<[pin ioControl := value ioControl]> (inputStates st)) st in
  if isChange then
    let st2 :=
      if loggerEnabled st1
      then set_logs (logs st1 ++ [(pin ioControl, lastState, value ioControl)]) st1
      else st1 in
    match inputChangeListeners st2 !! pin ioControl with
    | Some onChangeCallbacks =>
        set_called
          (called st2 ++ map (fun cb => (cb, value ioControl, lastState)) onChangeCallbacks) st2
    | None => st2
    end
  else st1.

Definition onControlStateEvent (states : list IoControl) (st : State) : State :=
  let st1 := updateOutputValues states st in
  let inputStates' := List.filter isInputControl states in
  if bool_decide (size (inputStates st1) = 0) then
    fold_left
      (fun s ioControl =>
         set_inputStates (<[pin ioControl := value ioControl]> (inputStates s)) s)
      inputStates' st1
  else
    fold_left (fun s ioControl => onInputState ioControl s) inputStates' st1.

(** The request that [init()] sends; [requestId] is what
    [createRequestId()] returned. *)
Definition initRequest (requestId : string) : JsValue :=
  JObj [("type", JStr "ioPinStateSubscriptionRequest");
        ("requestId", JStr requestId);
        ("dataEveryMs", JNum 100%float);
        ("keepAliveMs", JNum 0%float);
        ("responseTag", JStr "deno-script-api")].

(** [init()] up to its [await], on the connection [ws]: the promise it
    waits for, if it sends the request. *)
Definition init {platform : WebSocketCommunication.Platform} (requestId : string) (st : State)
    (ws : WebSocketCommunication.State) : option nat * WebSocketCommunication.State :=
  if initialized st then (None, ws)
  else
    let '(p, ws') :=
      WebSocketCommunication.sendEventWithResponse requestId (initRequest requestId) true ws in
    (Some p, ws').

(** The rest of [init()], run when the promise is fulfilled with a
    response that carries [states].  (If the promise is rejected,
    [init()] logs the reason and rethrows it.) *)
Definition init_resume (states : list IoControl) (st : State) : State :=
  set_initialized true (onControlStateEvent states st).

(** The entry of the event that is last among those of a kind for a
    pin. *)
Definition latest (kind : IoControl -> bool) (p : Z) (states : list IoControl)
    : option IoControl :=
  last (List.filter (fun ioControl => kind ioControl && bool_decide (pin ioControl = p)) states).

End IOControlStates.

(** ** NnControlInputsDefinition: an input pin read as a digital one *)

Module NnControlInputsDefinition.

(** [x >= 0.6]; the threshold is the double nearest to 0.6. *)
Definition high (x : float) : bool := PrimFloat.leb 0x1.3333333333333p-1 x.

(** [digital(pin).getValue()] *)
Definition digital_getValue (pin : Z) (st : IOControlStates.State) : bool :=
  high (IOControlStates.getInputValue pin st).

(** The listener that [digital(pin).onChange(onChangeAction)] hands to
    [onInputChange], called with [(value, oldValue)]: the argument with
    which it calls [onChangeAction], if it calls it. *)
Definition digital_onChange (value oldValue : float) : option bool :=
  let boolValue := high value in
  let oldBoolValue := high oldValue in
  if negb (Bool.eqb boolValue oldBoolValue) then Some boolValue else None.

End NnControlInputsDefinition.

(** ** ButtonStates *)

Module ButtonStates.

Record ButtonState : Type := { name : string; active : bool }.

(** The fields of the class and the calls made to listeners. *)
Record State : Type := MkState {
  buttonStates : list (string * bool);
  buttonChangeListeners : gmap string (list nat);
  called : list (nat * bool)
}.

Definition new : State := MkState [] ∅ [].

Definition getButtonNames (st : State) : list string := JsMap.keys (buttonStates st).

(** [this.buttonStates.get(buttonName) ?? false] *)
Definition getButtonActive (buttonName : string) (st : State) : bool :=
  default false (JsMap.get buttonName (buttonStates st)).

(** [this.buttonChangeListeners.get(buttonName) ?? []] *)
Definition listenersOf (buttonName : string) (st : State) : list nat :=
  default [] (buttonChangeListeners st !! buttonName).

Definition addButtonListener (buttonName : string) (listener : nat) (st : State) : State :=
  let changeCbs := listenersOf buttonName st ++ [listener] in
  let st1 :=
    MkState (buttonStates st) (<[buttonName := changeCbs]> (buttonChangeListeners st))
      (called st) in
  match JsMap.get buttonName (buttonStates st1) with
  | Some active =>
      MkState (buttonStates st1) (buttonChangeListeners st1) (called st1 ++ [(listener, active)])
  | None => st1
  end.

Definition onButtonStateEvent (states : list ButtonState) (st : State) : State :=
  fold_left
    (fun s buttonState =>
       let s1 :=
         MkState (JsMap.set (name buttonState) (active buttonState) (buttonStates s))
           (buttonChangeListeners s) (called s) in
       match buttonChangeListeners s1 !! name buttonState with
       | Some listeners =>
           MkState (buttonStates s1) (buttonChangeListeners s1)
             (called s1 ++ map (fun cb => (cb, active buttonState)) listeners)
       | None => s1
       end)
    states st.

(** What a user of the class does to it. *)
Inductive Op : Type :=
| AddButtonListener (buttonName : string) (listener : nat)
| ButtonStateEvent (states : list ButtonState).

Definition op (o : Op) (st : State) : State :=
  match o with
  | AddButtonListener buttonName listener => addButtonListener buttonName listener st
  | ButtonStateEvent states => onButtonStateEvent states st
  end.

Definition ops (l : list Op) (st : State) : State := fold_left (fun s o => op o s) l st.

(** The value that listener [cb] was called with last. *)
Definition lastHeard (cb : nat) (st : State) : option bool :=
  last (map snd (List.filter (fun c => Nat.eqb (fst c) cb) (called st))).

(** Every listener that is registered for one button only, and whose
    button has a known state, was called last with that state. *)
Definition inSync (st : State) : Prop :=
  forall buttonName cb v,
    cb ∈ listenersOf buttonName st ->
    (forall other, cb ∈ listenersOf other st -> other = buttonName) ->
    JsMap.get buttonName (buttonStates st) = Some v ->
    lastHeard cb st = Some v.

End ButtonStates.

(** ** ANnDspComponent: setting the gain of a component *)

Module ANnDspComponent.

Definition CHECK_DESIGN_UPDATE_ATTEMPT : nat := 5.

(** How one round of [setGainInternal] goes: [getComponentMetadata]
    throws, or the runtime update is sent and the promise of
    [sendEventWithResponse] is fulfilled or rejected. *)
Inductive Attempt : Type :=
| NoMetadata (message : string)
| Accepted
| Refused (reason : option JsValue).

(** What is thrown: an [Error] of the class or of [DesignUtil], or the
    reason of a rejected request. *)
Inductive Thrown : Type :=
| Error (message : string)
| Reason (reason : option JsValue).

(** What the method does to its surroundings, in order. *)
Inductive Effect : Type :=
| GetComponentMetadata
| AssignGain (value : float)
| StampRuntime
| SendRuntimeUpdate
| DebugUpdated
| WarnNotUpdated (error : string)
| ConsoleWarn (e : option JsValue)
| WarnNoAttempt
| WarnNotANumber.

(** How the promise of the call stands. *)
Inductive Outcome : Type :=
| Returns
| Throws (e : Thrown)
| Waiting.

(** [this.loggerConfig.isEnabledInternal() && logger.x(...)] *)
Definition logged (enabled : bool) (line : Effect) : list Effect :=
  if enabled then [line] else [].

(** [setGainInternal(value, setAndCheckAttempt)] with
    [sendRuntimeUpdate] and the callback it is given; [attempts] lists
    how the rounds go, as far as they are known.  The result carries the
    rounds that were not used. *)
Fixpoint setGainInternal (enabled : bool) (value : float) (setAndCheckAttempt : nat)
    (attempts : list Attempt) : Outcome * list Effect * list Attempt :=
  match setAndCheckAttempt with
  | 0 => (Returns, logged enabled WarnNoAttempt, attempts)
  | S remaining =>
      match attempts with
      | [] => (Waiting, [], [])
      | NoMetadata message :: rest => (Throws (Error message), [GetComponentMetadata], rest)
      | Accepted :: rest =>
          (Returns,
           [GetComponentMetadata; AssignGain value; StampRuntime; SendRuntimeUpdate]
             ++ logged enabled DebugUpdated,
           rest)
      | Refused e :: rest =>
          let sent :=
            [GetComponentMetadata; AssignGain value; StampRuntime; SendRuntimeUpdate] in
          match e with
          | Some (JStr error) =>
              let '(again, effects, rest') := setGainInternal enabled value remaining rest in
              match again with
              | Returns =>
                  (Throws (Reason e),
                   sent ++ [WarnNotUpdated error] ++ effects ++ [ConsoleWarn e], rest')
              | _ => (again, sent ++ [WarnNotUpdated error] ++ effects, rest')
              end
          | _ => (Throws (Reason e), sent ++ [ConsoleWarn e], rest)
          end
      end
  end.

(** [setGain(value)]: [connected] is what [this.webSocket.connected()]
    answers. *)
Definition setGain (connected enabled : bool) (value : JsValue) (attempts : list Attempt)
    : Outcome * list Effect * list Attempt :=
  if negb connected then (Throws (Error "WebSocket is not connected"), [], attempts)
  else
    match value with
    | JNum x => setGainInternal enabled x CHECK_DESIGN_UPDATE_ATTEMPT attempts
    | _ => (Returns, logged enabled WarnNotANumber, attempts)
    end.

Definition outcome (run : Outcome * list Effect * list Attempt) : Outcome := fst (fst run).

Definition isSend (x : Effect) : bool :=
  match x with
  | SendRuntimeUpdate => true
  | _ => false
  end.

(** The number of runtime updates sent. *)
Definition sends (run : Outcome * list Effect * list Attempt) : nat :=
  length (List.filter isSend (snd (fst run))).

(** A round refused with a text as the reason. *)
Definition refused (error : string) : Attempt := Refused (Some (JStr error)).

End ANnDspComponent.

(** ** SystemVariablesControlDefinition *)

Module SystemVariablesControlDefinition.

(** [SystemVariableChangeNotifyEvent], by the two fields that the class
    reads: [data] is an object that gives, for the name of a variable,
    its value or [null]. *)
Record SystemVariableChangeNotifyEvent : Type := {
  fullState : bool;
  data : gmap string (option string)
}.

(** [getInstance] starts from [new Map()]. *)
Definition new : gmap string string := ∅.

(** [get(name)]: [None] is [undefined]. *)
Definition get (name : string) (systemVariablesMap : gmap string string) : option string :=
  systemVariablesMap !! name.

(** The body of the [forEach] of [systemVariableChange]. *)
Definition applyEntry (name : string) (value : option string)
    (systemVariablesMap : gmap string string) : gmap string string :=
  match value with
  | None => delete name systemVariablesMap
  | Some v => <[name := v]> systemVariablesMap
  end.

(** [systemVariableChange(event)]: the map afterwards. *)
Definition systemVariableChange (event : SystemVariableChangeNotifyEvent)
    (systemVariablesMap : gmap string string) : gmap string string :=
  let cleared := if fullState event then ∅ else systemVariablesMap in
  map_fold applyEntry cleared (data event).

End SystemVariablesControlDefinition.

(** ** Concrete instances *)

Module Examples.

Import WebSocketCommunication.

(** A platform for the examples: a message serialises to the text of its
    [type], every frame parses as the value given, and the WebSocket
    constructor always returns. *)
Definition platformOf (incoming : JsValue) : Platform :=
  {| JSON_stringify := fun v => match prop v "type" with Some (JStr s) => s | _ => "{}" end;
     JSON_parse := fun _ => Some incoming;
     WebSocket_new := fun _ => true;
     WS_HEARTBEAT_INTERVAL := 5000;
     WS_MISSING_HEARTBEAT_TIMEOUT_MS := 15000;
     WS_MISSING_HEARTBEAT_TIMEOUT_SEC := "15" |}.

Definition okResponse : JsValue :=
  JObj [("type", JStr "designLoadResult"); ("requestId", JStr "r1"); ("state", JStr "OK")].

Definition platform0 : Platform := platformOf okResponse.

(** A client just constructed: it owns socket 1, which is connecting. *)
Definition new0 : State := new (platform := platform0) "device.local" None false 0.

(** The same client after a call of [sendEventWithResponse] with request
    identifier [r1]. *)
Definition request_r1 : JsValue := JObj [("type", JStr "designLoad"); ("requestId", JStr "r1")].

Definition awaiting_r1 : State :=
  snd (sendEventWithResponse (platform := platform0) "r1" request_r1 false new0).

(** The client after a live subscription and a plain message, both
    issued while socket 1 is still connecting. *)
Definition queued0 : State :=
  sendEvent (platform := platform0) (JObj [("type", JStr "ping")]) false
    (subscribeToLiveEvent (platform := platform0) "subReq" "subNotify" (ClientHandler 1) new0).

(** The client with socket 1 open since time 0, at time 20000 and with
    no heartbeat received in between. *)
Definition silent0 : State :=
  run (platform := platform0) [SocketOpen 1; ClockAdvance 20000] new0.

(** An event frame without [requestId], and a platform that delivers it. *)
Definition notifyFrame : JsValue := JObj [("type", JStr "subNotify")].

Definition platform1 : Platform := platformOf notifyFrame.

(** The client after an [error] event of socket 1 and the reconnect that
    followed: socket 1 was closed and dropped, socket 2 is owned. *)
Definition replaced0 : State :=
  run (platform := platform0) [SocketError 1; TimerFires 1] new0.

(** A design loader whose first [load()], under identity [a], is in
    flight. *)
Definition loading_a : DesignUtil.State :=
  snd (DesignUtil.loadDesign "a" (DesignUtil.new 0)).

(** The same loader once the handler of a [designChangeNotify] frame
    has dropped the cached design and reset the state: the fetch under
    [a] is still in flight when the handler goes on to call
    [loadDesign()]. *)
Definition reset_a : DesignUtil.State :=
  DesignUtil.set_state DesignUtil.NONE (DesignUtil.set_partialDesign None loading_a).

(** A platform on which the text of a frame is the request identifier of
    the response it parses to; the response to [r2] reports a failure. *)
Definition responseTo (requestId : string) : JsValue :=
  JObj [("requestId", JStr requestId);
        ("state", JStr (if String.eqb requestId "r2" then "ERROR" else "OK"));
        ("failReason", JStr "busy")].

Definition platform2 : Platform :=
  {| JSON_stringify := fun v => match prop v "type" with Some (JStr s) => s | _ => "{}" end;
     JSON_parse := fun data => Some (responseTo data);
     WebSocket_new := fun _ => true;
     WS_HEARTBEAT_INTERVAL := 5000;
     WS_MISSING_HEARTBEAT_TIMEOUT_MS := 15000;
     WS_MISSING_HEARTBEAT_TIMEOUT_SEC := "15" |}.

Definition request_r2 : JsValue := JObj [("type", JStr "designLoad"); ("requestId", JStr "r2")].

(** The client with two requests waiting, [r1] made before [r2]. *)
Definition awaiting_r1_r2 : State :=
  snd (sendEventWithResponse (platform := platform2) "r2" request_r2 false awaiting_r1).

Definition response_r1 : Response :=
  {| frameData := "r1"; frameEvent := responseTo "r1"; frameRequestId := "r1" |}.

Definition response_r2 : Response :=
  {| frameData := "r2"; frameEvent := responseTo "r2"; frameRequestId := "r2" |}.

(** A platform on which every frame is a heartbeat. *)
Definition heartbeatEvent : JsValue := JObj [("type", JStr "heartbeat")].

Definition platform3 : Platform := platformOf heartbeatEvent.

(** The client with socket 1 open since time 0, at time 7000. *)
Definition open0 : State :=
  run (platform := platform0) [SocketOpen 1; ClockAdvance 7000] new0.

(** A platform on which [new WebSocket(url)] throws. *)
Definition platform4 : Platform :=
  {| JSON_stringify := fun v => match prop v "type" with Some (JStr s) => s | _ => "{}" end;
     JSON_parse := fun _ => None;
     WebSocket_new := fun _ => false;
     WS_HEARTBEAT_INTERVAL := 5000;
     WS_MISSING_HEARTBEAT_TIMEOUT_MS := 15000;
     WS_MISSING_HEARTBEAT_TIMEOUT_SEC := "15" |}.

(** A client that lost socket 1 to an error, reconnected with socket 2,
    and whose socket 2 has opened. *)
Definition reopened0 : list Turn :=
  [HostTurn (SocketOpen 1); HostTurn (SocketError 1); HostTurn (TimerFires 2);
   HostTurn (SocketOpen 2)].

(** A design with a gain component, number 3, whose node is named
    [Mic], and a mixer, number 4, and the loader after it has fetched
    that design. *)
Definition gain3 : DesignUtil.ANpdConfig :=
  {| DesignUtil.cmpType := "gain"; DesignUtil.cmpConfig := JObj [("gain", JNum 0)] |}.

Definition mixer4 : DesignUtil.ANpdConfig :=
  {| DesignUtil.cmpType := "mixer"; DesignUtil.cmpConfig := JObj [] |}.

Definition node_Mic : DesignUtil.DrawflowNode :=
  {| DesignUtil.nodeType := "gain"; DesignUtil.nodeName := "Mic"; DesignUtil.nodeId := 3 |}.

Definition node_Mix : DesignUtil.DrawflowNode :=
  {| DesignUtil.nodeType := "mixer"; DesignUtil.nodeName := "Mix"; DesignUtil.nodeId := 4 |}.

Definition design0 : DesignUtil.DspDesign :=
  {| DesignUtil.metadata := JObj [("name", JStr "demo")];
     DesignUtil.runtime := <["3" := gain3]> (<["4" := mixer4]> ∅);
     DesignUtil.drawflowHomeData := [node_Mic; node_Mix] |}.

Definition loaded0 : DesignUtil.State :=
  DesignUtil.loadDesignInternal_resume (Some design0) loading_a.

(** Input pin 5 at 0.55 and at 0.62, as events report it. *)
Definition input5 (v : float) : IOControlStates.IoControl :=
  {| IOControlStates.pinType := IOControlStates.CONTROL;
     IOControlStates.pinMode := IOControlStates.INPUT;
     IOControlStates.pin := 5;
     IOControlStates.value := v |}.

Definition low5 : float := 0x1.199999999999ap-1.

Definition high5 : float := 0x1.3d70a3d70a3d7p-1.

(** Listeners 1 and 2 registered for pin 5, before any event and after a
    first event that reports the pin at 0.55. *)
Definition listening0 : IOControlStates.State :=
  IOControlStates.onInputChange 5 2
    (IOControlStates.onInputChange 5 1 (IOControlStates.new false)).

Definition listening1 : IOControlStates.State :=
  IOControlStates.onControlStateEvent [input5 low5] listening0.

(** Listeners 1 and 2 registered for the ducker component 12. *)
Definition ducking0 : NnDuckerStatesUtil.State :=
  NnDuckerStatesUtil.onActiveChange "12" 2
    (NnDuckerStatesUtil.onActiveChange "12" 1 (NnDuckerStatesUtil.new false)).

(** Button [ptt1] is reported pressed, listener 7 registers for it, and
    the button is reported released. *)
Definition pressed_released : list ButtonStates.Op :=
  [ButtonStates.ButtonStateEvent [{| ButtonStates.name := "ptt1"; ButtonStates.active := true |}];
   ButtonStates.AddButtonListener "ptt1" 7;
   ButtonStates.ButtonStateEvent [{| ButtonStates.name := "ptt1"; ButtonStates.active := false |}]].

End Examples.

(** ** Properties of WebSocketCommunication *)

Section Communication.

Import WebSocketCommunication.

Context {platform : Platform}.

(** *** Frame lemmas: what the host primitives leave alone *)

Lemma set_logs_eta (st : State) : set_logs (logs st) st = st.
Proof. destruct st; reflexivity. Qed.


Lemma log_logs (l : LogLine) (st : State) :
  log l st = set_logs (logs st ++ logged l st) st.
Proof.
  unfold log, logged, write_log. destruct (loggerEnabled st); [reflexivity|].
  rewrite app_nil_r. symmetry. apply set_logs_eta.
Qed.

Lemma resolve_eventResultHandlers (p : nat) (v : JsValue) (st : State) :
  eventResultHandlers (resolve p v st) = eventResultHandlers st.
Proof. unfold resolve. destruct (promises st !! p) as [[]|]; reflexivity. Qed.

Lemma reject_eventResultHandlers (p : nat) (r : option JsValue) (st : State) :
  eventResultHandlers (reject p r st) = eventResultHandlers st.
Proof. unfold reject. destruct (promises st !! p) as [[]|]; reflexivity. Qed.

Lemma resolve_promises_other (p q : nat) (v : JsValue) (st : State) :
  q <> p -> promises (resolve p v st) !! q = promises st !! q.
Proof.
  intros Hq. unfold resolve. destruct (promises st !! p) as [[]|]; simpl; try reflexivity.
  apply lookup_insert_ne. congruence.
Qed.

Lemma reject_promises_other (p q : nat) (r : option JsValue) (st : State) :
  q <> p -> promises (reject p r st) !! q = promises st !! q.
Proof.
  intros Hq. unfold reject. destruct (promises st !! p) as [[]|]; simpl; try reflexivity.
  apply lookup_insert_ne. congruence.
Qed.

Lemma invokeResultHandler_eventResultHandlers (h : ResultHandler) (ev : JsValue) (st : State) :
  eventResultHandlers (invokeResultHandler h ev st) = eventResultHandlers st.
Proof.
  unfold invokeResultHandler.
  destruct (negb _); [apply reject_eventResultHandlers | apply resolve_eventResultHandlers].
Qed.

Lemma invokeResultHandler_promises_other (h : ResultHandler) (ev : JsValue) (st : State) (q : nat) :
  q <> rh_promise h -> promises (invokeResultHandler h ev st) !! q = promises st !! q.
Proof.
  intros Hq. unfold invokeResultHandler.
  destruct (negb _); [apply reject_promises_other | apply resolve_promises_other]; exact Hq.
Qed.


Lemma invokeResultHandler_settles (h : ResultHandler) (ev : JsValue) (st : State) (t : nat) :
  promises st !! rh_promise h = Some (Pending t) ->
  promises (invokeResultHandler h ev st) !! rh_promise h = Some (settlement ev).
Proof.
  intros Hp. unfold invokeResultHandler, settlement, resolve, reject.
  destruct (stateIsOK ev); simpl; rewrite Hp; simpl; apply lookup_insert_eq.
Qed.

Lemma getResultHandler_Some (ev : JsValue) (st : State) (rid : string) (h : ResultHandler) :
  getResultHandler ev st = Some (rid, h) ->
  prop ev "requestId" = Some (JStr rid) /\ eventResultHandlers st !! rid = Some h.
Proof.
  unfold getResultHandler.
  destruct (prop ev "requestId") as [[| | |s| |]|]; try discriminate.
  destruct (eventResultHandlers st !! s) eqn:E; [|discriminate].
  intros [= <- <-]. auto.
Qed.

Lemma getResultHandler_congr (ev : JsValue) (st st' : State) :
  eventResultHandlers st' = eventResultHandlers st ->
  getResultHandler ev st' = getResultHandler ev st.
Proof. intros E. unfold getResultHandler. rewrite E. reflexivity. Qed.

Lemma getResultHandler_deleted (ev : JsValue) (st st' : State) (rid : string) :
  prop ev "requestId" = Some (JStr rid) ->
  eventResultHandlers st' = delete rid (eventResultHandlers st) ->
  getResultHandler ev st' = None.
Proof.
  intros Hrid E. unfold getResultHandler. rewrite Hrid, E, lookup_delete_eq. reflexivity.
Qed.

Lemma processResponse_unknown (ev : JsValue) (st : State) :
  getResultHandler ev st = None ->
  processResponse ev st =
    set_logs (logs st ++ logged (LogProcessResponse (prop ev "requestId")) st
                      ++ logged LogNoListener st) st.
Proof.
  intros Hnone. unfold processResponse.
  rewrite (getResultHandler_congr ev st) by (rewrite log_logs; reflexivity).
  rewrite Hnone, !log_logs. simpl. rewrite <- app_assoc. reflexivity.
Qed.

Lemma processResponse_known (ev : JsValue) (st : State) (rid : string) (h : ResultHandler) :
  getResultHandler ev st = Some (rid, h) ->
  processResponse ev st =
    invokeResultHandler h ev
      (set_eventResultHandlers (delete rid (eventResultHandlers st))
         (log (LogProcessResponse (prop ev "requestId")) st)).
Proof.
  intros Hsome. unfold processResponse.
  rewrite (getResultHandler_congr ev st) by (rewrite log_logs; reflexivity).
  rewrite Hsome. rewrite log_logs. reflexivity.
Qed.

Lemma truthy_prop_object (v : JsValue) (k : string) :
  truthy (prop v k) = true -> truthy (Some v) = true.
Proof. destruct v; simpl; try discriminate; reflexivity. Qed.

Lemma receiveMessage_response (data : string) (msgEvent : JsValue) (st : State) :
  JSON_parse data = Some msgEvent ->
  truthy (prop msgEvent "requestId") = true ->
  receiveMessage data st = processResponse msgEvent st.
Proof.
  intros Hparse Hrid. unfold receiveMessage. rewrite Hparse.
  rewrite (truthy_prop_object _ _ Hrid), Hrid. reflexivity.
Qed.

(** *** The request correlator *)

(** C1.  An inbound frame that carries a (truthy) [requestId] is a
    response.  If a handler is registered under that identifier, the frame
    removes exactly that entry from [eventResultHandlers] and only then
    calls the handler; no promise other than the handler's own is touched,
    a pending one is settled by the frame, and the same frame delivered a
    second time finds no handler and only writes log lines.  If no handler
    is registered under the identifier, the frame changes nothing but the
    log. *)
Theorem C1_response_resolves_one_pending_request_once :
  forall (st : State) (data : string) (msgEvent : JsValue),
    JSON_parse data = Some msgEvent ->
    truthy (prop msgEvent "requestId") = true ->
    let st' := receiveMessage data st in
    match getResultHandler msgEvent st with
    | Some (requestId, listener) =>
        st' = invokeResultHandler listener msgEvent
                (set_eventResultHandlers (delete requestId (eventResultHandlers st))
                   (log (LogProcessResponse (prop msgEvent "requestId")) st))
        /\ eventResultHandlers st' = delete requestId (eventResultHandlers st)
        /\ (forall q, q <> rh_promise listener -> promises st' !! q = promises st !! q)
        /\ (forall t, promises st !! rh_promise listener = Some (Pending t) ->
                      promises st' !! rh_promise listener = Some (settlement msgEvent))
        /\ receiveMessage data st' =
             set_logs (logs st' ++ logged (LogProcessResponse (prop msgEvent "requestId")) st'
                               ++ logged LogNoListener st') st'
    | None =>
        st' = set_logs (logs st ++ logged (LogProcessResponse (prop msgEvent "requestId")) st
                               ++ logged LogNoListener st) st
    end.
Proof.
  intros st data ev Hparse Hrid st'. subst st'.
  rewrite (receiveMessage_response _ _ _ Hparse Hrid).
  destruct (getResultHandler ev st) as [[rid h]|] eqn:Hget.
  - pose proof (processResponse_known _ _ _ _ Hget) as Heq.
    destruct (getResultHandler_Some _ _ _ _ Hget) as [Hprop Hh].
    assert (Hmap : eventResultHandlers (processResponse ev st)
                   = delete rid (eventResultHandlers st)).
    { rewrite Heq, invokeResultHandler_eventResultHandlers, log_logs. reflexivity. }
    split; [exact Heq|]. split; [exact Hmap|]. split; [|split].
    + intros q Hq. rewrite Heq, invokeResultHandler_promises_other by exact Hq.
      rewrite log_logs. reflexivity.
    + intros t Hp. rewrite Heq. apply invokeResultHandler_settles with (t := t).
      rewrite log_logs. exact Hp.
    + rewrite (receiveMessage_response _ _ _ Hparse Hrid).
      apply processResponse_unknown.
      exact (getResultHandler_deleted _ _ _ _ Hprop Hmap).
  - apply processResponse_unknown. exact Hget.
Qed.


Lemma sendMessageToSocket_same_tables (json : string) (b : bool) (st : State) :
  same_tables st (sendMessageToSocket json b st).
Proof.
  unfold sendMessageToSocket, same_tables, socket_send.
  destruct (connected st); [|destruct b]; rewrite log_logs; simpl.
  - destruct (socket st) eqn:E; simpl; rewrite ?E; repeat split; reflexivity.
  - repeat split; reflexivity.
  - repeat split; reflexivity.
Qed.

Lemma sendEvent_same_tables (message : JsValue) (b : bool) (st : State) :
  same_tables st (sendEvent message b st).
Proof.
  unfold sendEvent.
  match goal with |- same_tables _ (sendMessageToSocket ?j ?b ?s) =>
    pose proof (sendMessageToSocket_same_tables j b s) as H; revert H;
    generalize (sendMessageToSocket j b s) end.
  intros st'. unfold same_tables.
  destruct b; [rewrite log_logs|]; simpl; intros H; exact H.
Qed.

(** *** Replay and flush on connect *)

Lemma same_tables_refl (st : State) : same_tables st st.
Proof. unfold same_tables. repeat split; reflexivity. Qed.

Lemma same_tables_trans (a b c : State) :
  same_tables a b -> same_tables b c -> same_tables a c.
Proof.
  unfold same_tables. intros H1 H2.
  repeat match goal with H : _ /\ _ |- _ => destruct H end.
  repeat split; congruence.
Qed.

Lemma same_tables_connected (st st' : State) :
  same_tables st st' -> connected st' = connected st.
Proof.
  intros (_ & _ & _ & _ & _ & _ & Hs & Hss & _).
  unfold connected, readyState. rewrite Hs, Hss. reflexivity.
Qed.

Lemma connected_socket (st : State) :
  connected st = true -> exists ws, socket st = Some ws /\ readyState ws st = Some OPEN.
Proof.
  unfold connected. destruct (socket st) as [ws|]; [|discriminate].
  destruct (readyState ws st) as [[]|] eqn:E; try discriminate. eauto.
Qed.

(** One message while the socket is open: it is written to the socket. *)
Lemma sendMessageToSocket_open (json : string) (b : bool) (st : State) (ws : nat) :
  connected st = true -> socket st = Some ws ->
  let st' := sendMessageToSocket json b st in
  sent st' = sent st ++ [(ws, json)]
  /\ disconnectEventBuffer st' = disconnectEventBuffer st
  /\ subscriptionEvents st' = subscriptionEvents st.
Proof.
  intros Hc Hs. unfold sendMessageToSocket, socket_send. rewrite Hc, log_logs. simpl.
  rewrite Hs. simpl. auto.
Qed.

(** One message while the socket is not open: a subscription is only
    logged, any other message joins the end of the buffer. *)
Lemma sendMessageToSocket_not_open (json : string) (b : bool) (st : State) :
  connected st = false ->
  let st' := sendMessageToSocket json b st in
  sent st' = sent st
  /\ disconnectEventBuffer st' = disconnectEventBuffer st ++ (if b then [] else [json])
  /\ subscriptionEvents st' = subscriptionEvents st.
Proof.
  intros Hc. unfold sendMessageToSocket. rewrite Hc.
  destruct b; rewrite log_logs; simpl; rewrite ?app_nil_r; auto.
Qed.


Lemma sendAll_same_tables (b : bool) (messages : list string) (st : State) :
  same_tables st (sendAll b messages st).
Proof.
  revert st. induction messages as [|json rest IH]; intros st; simpl.
  - apply same_tables_refl.
  - eapply same_tables_trans; [apply (sendMessageToSocket_same_tables json b)|apply IH].
Qed.

Lemma sendAll_open (b : bool) (messages : list string) (st : State) (ws : nat) :
  connected st = true -> socket st = Some ws ->
  let st' := sendAll b messages st in
  sent st' = sent st ++ map (pair ws) messages
  /\ disconnectEventBuffer st' = disconnectEventBuffer st
  /\ subscriptionEvents st' = subscriptionEvents st.
Proof.
  revert st. induction messages as [|json rest IH]; intros st Hc Hs; simpl.
  - rewrite app_nil_r. auto.
  - destruct (sendMessageToSocket_open json b st ws Hc Hs) as (E1 & E2 & E3).
    pose proof (sendMessageToSocket_same_tables json b st) as Hsame.
    destruct (IH (sendMessageToSocket json b st)) as (F1 & F2 & F3).
    + rewrite (same_tables_connected _ _ Hsame). exact Hc.
    + destruct Hsame as (_ & _ & _ & _ & _ & _ & Hsock & _). congruence.
    + unfold sendAll in *. rewrite F1, F2, F3, E1, E2, E3, <- app_assoc. auto.
Qed.

Lemma sendAll_not_open (b : bool) (messages : list string) (st : State) :
  connected st = false ->
  let st' := sendAll b messages st in
  sent st' = sent st
  /\ disconnectEventBuffer st' = disconnectEventBuffer st ++ (if b then [] else messages)
  /\ subscriptionEvents st' = subscriptionEvents st.
Proof.
  revert st. induction messages as [|json rest IH]; intros st Hc; simpl.
  - destruct b; rewrite app_nil_r; auto.
  - destruct (sendMessageToSocket_not_open json b st Hc) as (E1 & E2 & E3).
    pose proof (sendMessageToSocket_same_tables json b st) as Hsame.
    destruct (IH (sendMessageToSocket json b st)) as (F1 & F2 & F3).
    + rewrite (same_tables_connected _ _ Hsame). exact Hc.
    + unfold sendAll in *. rewrite F1, F2, F3, E1, E2, E3.
      destruct b; rewrite <- ?app_assoc; auto.
Qed.



Lemma onConnect_stages (st : State) :
  onConnect st = addEventHandler "heartbeat" HeartbeatHandler (startSendHeartBeat (flushed st)).
Proof. reflexivity. Qed.

Lemma startSendHeartBeat_traffic (st : State) :
  sent (startSendHeartBeat st) = sent st
  /\ disconnectEventBuffer (startSendHeartBeat st) = disconnectEventBuffer st
  /\ subscriptionEvents (startSendHeartBeat st) = subscriptionEvents st.
Proof.
  unfold startSendHeartBeat, stopSentHeartBeat, setTimer, clearTimer.
  destruct (heartbeatSendingInterval st) as [[|t]|]; simpl; auto.
Qed.

Lemma onConnect_traffic (st : State) :
  sent (onConnect st) = sent (flushed st)
  /\ disconnectEventBuffer (onConnect st) = disconnectEventBuffer (flushed st)
  /\ subscriptionEvents (onConnect st) = subscriptionEvents (flushed st).
Proof.
  rewrite onConnect_stages. unfold addEventHandler. simpl.
  apply startSendHeartBeat_traffic.
Qed.

Lemma onConnect_open (st : State) (ws : nat) :
  connected st = true -> socket st = Some ws ->
  sent (onConnect st)
  = sent st ++ map (pair ws) (subscriptionEvents st) ++ map (pair ws) (disconnectEventBuffer st)
  /\ disconnectEventBuffer (onConnect st) = []
  /\ subscriptionEvents (onConnect st) = subscriptionEvents st.
Proof.
  intros Hc Hs.
  destruct (onConnect_traffic st) as (-> & -> & ->).
  destruct (sendAll_open true (subscriptionEvents st) st ws Hc Hs) as (E1 & E2 & E3).
  pose proof (sendAll_same_tables true (subscriptionEvents st) st) as Hsame.
  fold (replayed st) in E1, E2, E3, Hsame.
  destruct (sendAll_open false (disconnectEventBuffer (replayed st))
              (set_disconnectEventBuffer [] (replayed st)) ws) as (F1 & F2 & F3).
  - rewrite <- Hc, <- (same_tables_connected _ _ Hsame). reflexivity.
  - destruct Hsame as (_ & _ & _ & _ & _ & _ & Hsock & _). simpl. congruence.
  - fold (flushed st) in F1, F2, F3. simpl in F1, F2, F3.
    rewrite F1, F2, F3, E1, E2, E3, <- app_assoc. auto.
Qed.

Lemma onConnect_not_open (st : State) :
  connected st = false ->
  sent (onConnect st) = sent st
  /\ disconnectEventBuffer (onConnect st) = disconnectEventBuffer st
  /\ subscriptionEvents (onConnect st) = subscriptionEvents st.
Proof.
  intros Hc.
  destruct (onConnect_traffic st) as (-> & -> & ->).
  destruct (sendAll_not_open true (subscriptionEvents st) st Hc) as (E1 & E2 & E3).
  pose proof (sendAll_same_tables true (subscriptionEvents st) st) as Hsame.
  fold (replayed st) in E1, E2, E3, Hsame.
  destruct (sendAll_not_open false (disconnectEventBuffer (replayed st))
              (set_disconnectEventBuffer [] (replayed st))) as (F1 & F2 & F3).
  - rewrite <- Hc, <- (same_tables_connected _ _ Hsame). reflexivity.
  - fold (flushed st) in F1, F2, F3. simpl in F1, F2, F3.
    rewrite F1, F2, F3, E1, E2, E3, app_nil_r. auto.
Qed.

(** The [open] listener on the socket the client owns. *)
Lemma open_owned_connected (st : State) (ws : nat) :
  socket st = Some ws ->
  connected (log LogConnected (set_sockets (<[ws := OPEN]> (sockets st)) st)) = true.
Proof.
  intros Hs. rewrite log_logs. unfold connected, readyState. simpl.
  rewrite Hs, lookup_insert_eq. reflexivity.
Qed.

Lemma open_owned_traffic (st : State) (ws : nat) :
  socket st = Some ws ->
  is_Some (readyState ws st) ->
  let st' := step (SocketOpen ws) st in
  sent st' = sent st ++ map (pair ws) (subscriptionEvents st)
                     ++ map (pair ws) (disconnectEventBuffer st)
  /\ disconnectEventBuffer st' = []
  /\ subscriptionEvents st' = subscriptionEvents st.
Proof.
  intros Hs [r Hr]. simpl. rewrite Hr.
  pose proof (open_owned_connected st ws Hs) as Hc.
  destruct (onConnect_open _ ws Hc) as (E1 & E2 & E3).
  - rewrite log_logs. exact Hs.
  - rewrite E1, E2, E3, log_logs. simpl. auto.
Qed.

(** C3.  When the socket the client owns opens, the frames written are
    first every entry of the subscription registry, unchanged and in
    registration order, and after the last of them the content of the
    disconnect buffer in the order it was filled; each buffered message is
    written once and the buffer is left empty, while the registry is kept
    for the next connect. *)
Theorem C3_connect_replays_registry_then_flushes_buffer :
  forall (st : State) (ws : nat),
    socket st = Some ws ->
    is_Some (readyState ws st) ->
    let st' := step (SocketOpen ws) st in
    sent st' = sent st ++ map (pair ws) (subscriptionEvents st)
                       ++ map (pair ws) (disconnectEventBuffer st)
    /\ disconnectEventBuffer st' = []
    /\ subscriptionEvents st' = subscriptionEvents st.
Proof. exact open_owned_traffic. Qed.





Lemma sendMessageToSocket_subscriptionEvents (json : string) (b : bool) (st : State) :
  subscriptionEvents (sendMessageToSocket json b st) = subscriptionEvents st.
Proof.
  destruct (connected st) eqn:Hc.
  - destruct (connected_socket st Hc) as (ws & Hs & _).
    apply (sendMessageToSocket_open json b st ws Hc Hs).
  - apply (sendMessageToSocket_not_open json b st Hc).
Qed.

Lemma subscribe_registry (responseType : string) (c : Subscribe) (st : State) :
  subscriptionEvents (subscribe responseType c st)
  = subscriptionEvents st ++ [JSON_stringify (payload c)]
  /\ eventHandlers (subscribe responseType c st)
     = <[responseType := handlerOf c]> (eventHandlers st).
Proof.
  destruct c; unfold subscribe, subscribeToEvent, subscribeToLiveEvent, sendEvent, payload.
  all: split;
    [ rewrite sendMessageToSocket_subscriptionEvents, log_logs; reflexivity
    | match goal with |- context [sendMessageToSocket ?j ?b ?s] =>
        destruct (sendMessageToSocket_same_tables j b s) as (_ & _ & _ & _ & _ & -> & _)
      end; rewrite log_logs; reflexivity ].
Qed.

(** The registry is written by [sendEvent] alone: no turn of the event
    loop changes it. *)
Ltac cases :=
  repeat first
    [ progress simpl
    | rewrite log_logs
    | match goal with
      | |- context [match ?x with _ => _ end] => destruct x eqn:?
      end ].

Lemma connect_subscriptionEvents (st : State) :
  subscriptionEvents (connect st) = subscriptionEvents st.
Proof. unfold connect, reconnect, setTimer, clearTimer, write_log. cases; reflexivity. Qed.

Lemma disconnect_subscriptionEvents (st : State) :
  subscriptionEvents (disconnect st) = subscriptionEvents st.
Proof.
  unfold disconnect, stopSentHeartBeat, socket_close, readyState, clearTimer.
  cases; reflexivity.
Qed.

Lemma heartbeatTick_subscriptionEvents (st : State) :
  subscriptionEvents (heartbeatTick st) = subscriptionEvents st.
Proof.
  unfold heartbeatTick.
  assert (H : subscriptionEvents
                (if connected st then sendEvent (JObj [("type", JStr "heartbeat")]) false st
                 else st) = subscriptionEvents st).
  { destruct (connected st); [|reflexivity].
    unfold sendEvent. apply sendMessageToSocket_subscriptionEvents. }
  revert H. generalize (if connected st then sendEvent (JObj [("type", JStr "heartbeat")]) false st
                        else st).
  intros s H. unfold socket_close, readyState. cases; exact H.
Qed.

Lemma receiveMessage_subscriptionEvents (data : string) (st : State) :
  subscriptionEvents (receiveMessage data st) = subscriptionEvents st.
Proof.
  unfold receiveMessage, processResponse, invokeResultHandler, invokeEventHandler,
    resolve, reject, clearTimer, write_log.
  cases; reflexivity.
Qed.

Lemma onConnect_subscriptionEvents (st : State) :
  subscriptionEvents (onConnect st) = subscriptionEvents st.
Proof.
  destruct (connected st) eqn:Hc.
  - destruct (connected_socket st Hc) as (ws & Hs & _). apply (onConnect_open st ws Hc Hs).
  - apply (onConnect_not_open st Hc).
Qed.

Lemma step_subscriptionEvents (i : Input) (st : State) :
  subscriptionEvents (step i st) = subscriptionEvents st.
Proof.
  destruct i as [ws|ws data|ws|ws|t|to]; simpl; try reflexivity.
  - destruct (readyState ws st); [|reflexivity].
    rewrite onConnect_subscriptionEvents, log_logs. reflexivity.
  - destruct (readyState ws st); [|reflexivity]. apply receiveMessage_subscriptionEvents.
  - destruct (readyState ws st); [|reflexivity]. unfold onDisconnect. cases; reflexivity.
  - destruct (readyState ws st); [|reflexivity]. rewrite log_logs. reflexivity.
  - unfold fireTimer. destruct (timers st !! t) as [tm|]; [|reflexivity].
    destruct (task tm).
    + unfold responseTimeout, reject, clearTimer. cases; reflexivity.
    + rewrite connect_subscriptionEvents, disconnect_subscriptionEvents. reflexivity.
    + apply heartbeatTick_subscriptionEvents.
Qed.

Lemma sendEvent_subscriptionEvents (message : JsValue) (b : bool) (st : State) :
  subscriptionEvents (sendEvent message b st)
  = subscriptionEvents st ++ (if b then [JSON_stringify message] else []).
Proof.
  unfold sendEvent. rewrite sendMessageToSocket_subscriptionEvents.
  destruct b; [rewrite log_logs; reflexivity | symmetry; apply app_nil_r].
Qed.

(** A call of a public method never removes a registry entry. *)
Lemma call_subscriptionEvents (c : Call) (st : State) :
  exists more, subscriptionEvents (call c st) = subscriptionEvents st ++ more.
Proof.
  destruct c as [message b|rid req b|type h|responseType c]; simpl.
  - eexists. apply sendEvent_subscriptionEvents.
  - unfold sendEventWithResponse, setTimer. simpl.
    rewrite sendEvent_subscriptionEvents. simpl. eexists. reflexivity.
  - exists []. symmetry. apply app_nil_r.
  - eexists. apply (subscribe_registry responseType c st).
Qed.

Lemma turns_subscriptionEvents (l : list Turn) (st : State) :
  exists later, subscriptionEvents (turns l st) = subscriptionEvents st ++ later.
Proof.
  unfold turns. revert st. induction l as [|t rest IH]; intros st; simpl.
  - exists []. symmetry. apply app_nil_r.
  - destruct (IH (turn t st)) as (later & E). rewrite E.
    destruct t as [i|c]; simpl.
    + rewrite step_subscriptionEvents. eauto.
    + destruct (call_subscriptionEvents c st) as (more & ->).
      exists (more ++ later). symmetry. apply app_assoc.
Qed.

Lemma subscribeAll_registry (responseType : string) (calls : list Subscribe) (st : State) :
  let st' := fold_left (fun s c => subscribe responseType c s) calls st in
  subscriptionEvents st'
  = subscriptionEvents st ++ map (fun c => JSON_stringify (payload c)) calls
  /\ eventHandlers st' !! responseType
     = match last calls with
       | Some c => Some (handlerOf c)
       | None => eventHandlers st !! responseType
       end
  /\ forall type, type <> responseType -> eventHandlers st' !! type = eventHandlers st !! type.
Proof.
  revert st. induction calls as [|c rest IH]; intros st; simpl.
  - rewrite app_nil_r. auto.
  - destruct (subscribe_registry responseType c st) as (E1 & E2).
    destruct (IH (subscribe responseType c st)) as (F1 & F2 & F3). cbv zeta in *.
    rewrite F1, F2, E1, E2, <- app_assoc. split; [reflexivity|]. split.
    + destruct rest as [|c' rest']; simpl; [apply lookup_insert_eq|].
      destruct (last (c' :: rest')) eqn:El; [reflexivity|].
      apply last_None in El. discriminate.
    + intros type Hne. rewrite F3, E2 by exact Hne. apply lookup_insert_ne. congruence.
Qed.

(** C7.  After [k] subscribe calls under one response type, whatever was
    registered before, the handler table holds the handler of the last
    call under that type (other types are untouched), and the registry
    has grown by exactly the [k] serialised payloads, one per call in call
    order, nothing removed and nothing merged.  No later turn, neither a
    host event nor a call of a public method, removes them, and each time
    the owned socket opens they are all written again, in order, after
    the entries that preceded them. *)
Theorem C7_resubscribe_replaces_handler_and_appends_replay_entry :
  forall (st : State) (responseType : string) (calls : list Subscribe),
    let st' := fold_left (fun s c => subscribe responseType c s) calls st in
    let entries := map (fun c => JSON_stringify (payload c)) calls in
    subscriptionEvents st' = subscriptionEvents st ++ entries
    /\ length entries = length calls
    /\ eventHandlers st' !! responseType
       = match last calls with
         | Some c => Some (handlerOf c)
         | None => eventHandlers st !! responseType
         end
    /\ (forall type, type <> responseType ->
                     eventHandlers st' !! type = eventHandlers st !! type)
    /\ (forall (l : list Turn) (ws : nat),
          let st2 := turns l st' in
          socket st2 = Some ws ->
          is_Some (readyState ws st2) ->
          exists later,
            subscriptionEvents st2 = subscriptionEvents st ++ entries ++ later
            /\ sent (step (SocketOpen ws) st2)
               = sent st2 ++ map (pair ws) (subscriptionEvents st)
                          ++ map (pair ws) entries
                          ++ map (pair ws) later
                          ++ map (pair ws) (disconnectEventBuffer st2)).
Proof.
  intros st responseType calls st' entries.
  destruct (subscribeAll_registry responseType calls st) as (E1 & E2 & E3).
  fold st' in E1, E2, E3. fold entries in E1.
  split; [exact E1|]. split; [apply length_map|]. split; [exact E2|]. split; [exact E3|].
  intros l ws st2 Hs Hr.
  destruct (open_owned_traffic st2 ws Hs Hr) as (F & _).
  destruct (turns_subscriptionEvents l st') as (later & G). fold st2 in G.
  exists later. rewrite F, G, E1, !map_app, <- !app_assoc. auto.
Qed.

(** *** Event dispatch *)

Lemma invokeEventHandler_correlator (action : EventHandler) (ev : JsValue) (st : State) :
  eventResultHandlers (invokeEventHandler action ev st) = eventResultHandlers st
  /\ promises (invokeEventHandler action ev st) = promises st.
Proof. destruct action; simpl; auto. Qed.

(** C9.  A frame is what [JSON.parse] makes of the data, provided it is
    truthy (a falsy value is reported as unparsable and dropped).
    [receiveMessage] treats a frame as a response exactly when its
    [requestId] is truthy; a frame whose [requestId] is absent, [null] or
    the empty string therefore goes to the handler registered under its
    [type], the request correlator (handlers and promises) is left alone,
    and if no handler is registered under the type the state does not
    change at all. *)
Theorem C9_routing_discriminates_on_truthy_requestId :
  forall (st : State) (data : string) (msgEvent : JsValue),
    JSON_parse data = Some msgEvent ->
    truthy (Some msgEvent) = true ->
    let dispatch :=
      match getEventHandler msgEvent st with
      | Some action => invokeEventHandler action msgEvent st
      | None => st
      end in
    receiveMessage data st
    = (if truthy (prop msgEvent "requestId") then processResponse msgEvent st else dispatch)
    /\ (prop msgEvent "requestId" = None
        \/ prop msgEvent "requestId" = Some JNull
        \/ prop msgEvent "requestId" = Some (JStr "") ->
        receiveMessage data st = dispatch
        /\ eventResultHandlers (receiveMessage data st) = eventResultHandlers st
        /\ promises (receiveMessage data st) = promises st
        /\ (getEventHandler msgEvent st = None -> receiveMessage data st = st)).
Proof.
  intros st data msgEvent Hparse Htruthy dispatch.
  assert (Hroute : receiveMessage data st
                   = (if truthy (prop msgEvent "requestId")
                      then processResponse msgEvent st else dispatch)).
  { unfold receiveMessage. rewrite Hparse, Htruthy. reflexivity. }
  split; [exact Hroute|].
  intros Hfalsy.
  assert (Hf : truthy (prop msgEvent "requestId") = false).
  { destruct Hfalsy as [-> | [-> | ->]]; reflexivity. }
  rewrite Hroute, Hf. subst dispatch.
  destruct (getEventHandler msgEvent st) as [action|].
  - destruct (invokeEventHandler_correlator action msgEvent st) as (E1 & E2).
    repeat split; [exact E1 | exact E2 | discriminate].
  - repeat split; reflexivity.
Qed.

(** *** Heartbeat and reconnect *)

Lemma sendEvent_plain (message : JsValue) (st : State) :
  sendEvent message false st = sendMessageToSocket (JSON_stringify message) false st.
Proof. reflexivity. Qed.

Lemma heartbeatTick_open (st : State) (ws : nat) :
  connected st = true -> socket st = Some ws ->
  let beat := (ws, JSON_stringify (JObj [("type", JStr "heartbeat")])) in
  sent (heartbeatTick st) = sent st ++ [beat]
  /\ socket (heartbeatTick st) = Some ws
  /\ nextTimer (heartbeatTick st) = nextTimer st
  /\ timers (heartbeatTick st) = timers st
  /\ nextSocket (heartbeatTick st) = nextSocket st
  /\ hostname (heartbeatTick st) = hostname st
  /\ apiKey (heartbeatTick st) = apiKey st
  /\ (if isHeartbeatTimeout st
      then closed (heartbeatTick st) = closed st ++ [(ws, Some "Missing heartbeat")]
           /\ readyState ws (heartbeatTick st) = Some CLOSING
      else closed (heartbeatTick st) = closed st
           /\ readyState ws (heartbeatTick st) = Some OPEN).
Proof.
  intros Hc Hs. cbv zeta. unfold heartbeatTick. rewrite Hc.
  set (event := JObj [("type", JStr "heartbeat")]).
  pose proof (sendEvent_same_tables event false st) as Hsame.
  destruct (sendMessageToSocket_open (JSON_stringify event) false st ws Hc Hs) as (Hsent & _).
  rewrite <- sendEvent_plain in Hsent.
  destruct (connected_socket st Hc) as (ws' & Hs' & Hopen).
  assert (ws' = ws) by congruence. subst ws'.
  revert Hsame Hsent. generalize (sendEvent event false st). intros st1 Hsame Hsent.
  unfold same_tables in Hsame.
  repeat match goal with H : _ /\ _ |- _ => destruct H end.
  assert (Htimeout : isHeartbeatTimeout st1 = isHeartbeatTimeout st).
  { unfold isHeartbeatTimeout.
    replace (lastIncomeHeartbeat st1) with (lastIncomeHeartbeat st) by congruence.
    replace (clock st1) with (clock st) by congruence. reflexivity. }
  rewrite Htimeout. destruct (isHeartbeatTimeout st).
  - rewrite log_logs. simpl.
    replace (socket st1) with (Some ws) by congruence.
    unfold socket_close, readyState in *. simpl.
    replace (sockets st1) with (sockets st) by congruence. rewrite Hopen. simpl.
    rewrite lookup_insert_eq.
    repeat split; try assumption; try reflexivity; congruence.
  - unfold readyState in *. repeat split; try assumption; congruence.
Qed.

Lemma heartbeatTick_not_open (st : State) :
  connected st = false ->
  sent (heartbeatTick st) = sent st
  /\ disconnectEventBuffer (heartbeatTick st) = disconnectEventBuffer st.
Proof.
  intros Hc. unfold heartbeatTick, socket_close. rewrite Hc. cases; auto.
Qed.

(** The [close] listener of the socket the client owns: one reconnect
    timer of 1000 ms, nothing torn down yet. *)
Lemma close_owned (st : State) (ws : nat) :
  socket st = Some ws ->
  is_Some (readyState ws st) ->
  let st' := step (SocketClose ws) st in
  timers st' = <[nextTimer st := {| task := Reconnect; delay := 1000 |}]> (timers st)
  /\ nextTimer st' = S (nextTimer st)
  /\ reconnectTimeout st' = nextTimer st
  /\ socket st' = Some ws
  /\ sockets st' = <[ws := CLOSED]> (sockets st)
  /\ closed st' = closed st
  /\ nextSocket st' = nextSocket st
  /\ hostname st' = hostname st /\ apiKey st' = apiKey st.
Proof.
  intros Hs [r Hr]. simpl. rewrite Hr. unfold onDisconnect. simpl. rewrite Hs.
  rewrite bool_decide_eq_true_2 by reflexivity. simpl.
  unfold reconnect, setTimer. rewrite log_logs. simpl. repeat split; assumption.
Qed.

(** The [close] listener of any other socket: the identity check of
    [onDisconnect] stops it. *)
Lemma close_not_owned (st : State) (ws : nat) :
  socket st <> Some ws ->
  is_Some (readyState ws st) ->
  step (SocketClose ws) st = set_sockets (<[ws := CLOSED]> (sockets st)) st.
Proof.
  intros Hs [r Hr]. simpl. rewrite Hr. unfold onDisconnect. simpl.
  rewrite bool_decide_eq_false_2 by exact Hs. reflexivity.
Qed.

(** The [error] listener: a reconnect timer, whichever socket signals. *)
Lemma error_any (st : State) (ws : nat) :
  is_Some (readyState ws st) ->
  step (SocketError ws) st = reconnect (log LogSocketError st).
Proof. intros [r Hr]. simpl. rewrite Hr. reflexivity. Qed.

Lemma reconnect_timer (st : State) :
  timers (reconnect st) = <[nextTimer st := {| task := Reconnect; delay := 1000 |}]> (timers st)
  /\ nextTimer (reconnect st) = S (nextTimer st)
  /\ reconnectTimeout (reconnect st) = nextTimer st
  /\ socket (reconnect st) = socket st
  /\ sockets (reconnect st) = sockets st
  /\ closed (reconnect st) = closed st.
Proof. unfold reconnect, setTimer. simpl. repeat split; reflexivity. Qed.

Lemma reconnect_fires (st : State) (t : nat) (d : Z) :
  timers st !! t = Some {| task := Reconnect; delay := d |} ->
  step (TimerFires t) st = connect (disconnect (clearTimer t st)).
Proof. intros Ht. simpl. unfold fireTimer. rewrite Ht. reflexivity. Qed.

Lemma stopSentHeartBeat_socket (st : State) :
  socket (stopSentHeartBeat st) = socket st
  /\ sockets (stopSentHeartBeat st) = sockets st
  /\ nextSocket (stopSentHeartBeat st) = nextSocket st
  /\ nextTimer (stopSentHeartBeat st) = nextTimer st
  /\ closed (stopSentHeartBeat st) = closed st
  /\ hostname (stopSentHeartBeat st) = hostname st
  /\ apiKey (stopSentHeartBeat st) = apiKey st.
Proof.
  unfold stopSentHeartBeat, clearTimer.
  destruct (heartbeatSendingInterval st) as [[|t]|]; simpl; repeat split; reflexivity.
Qed.

Lemma disconnect_torn_down (st : State) :
  socket (disconnect st) = None
  /\ connected (disconnect st) = false
  /\ nextSocket (disconnect st) = nextSocket st
  /\ nextTimer (disconnect st) = nextTimer st
  /\ hostname (disconnect st) = hostname st
  /\ apiKey (disconnect st) = apiKey st.
Proof.
  destruct (stopSentHeartBeat_socket st) as (E1 & E2 & E3 & E4 & E5 & E6 & E7).
  assert (H : socket (disconnect st) = None
              /\ nextSocket (disconnect st) = nextSocket st
              /\ nextTimer (disconnect st) = nextTimer st
              /\ hostname (disconnect st) = hostname st
              /\ apiKey (disconnect st) = apiKey st).
  { unfold disconnect. destruct (socket st) as [ws|] eqn:Hs;
      [|repeat split; try assumption; reflexivity].
    unfold readyState, socket_close, readyState. simpl. rewrite E2.
    destruct (sockets st !! ws) as [[]|] eqn:Hr; rewrite ?log_logs; simpl;
      rewrite ?E2, ?Hr; simpl; repeat split; try assumption; try reflexivity. }
  destruct H as (H1 & H2 & H3 & H4 & H5). repeat split; try assumption.
  unfold connected. rewrite H1. reflexivity.
Qed.

(** [connect] without a socket: a new one, connecting, owned; or, when
    the constructor throws, another reconnect timer. *)
Lemma connect_without_socket (st : State) :
  socket st = None ->
  if WebSocket_new (getWsUrl (hostname st) (apiKey st))
  then socket (connect st) = Some (nextSocket st)
       /\ readyState (nextSocket st) (connect st) = Some CONNECTING
       /\ closed (connect st) = closed st
  else socket (connect st) = None
       /\ timers (connect st) !! nextTimer st = Some {| task := Reconnect; delay := 1000 |}.
Proof.
  intros Hs. unfold connect. simpl. rewrite Hs.
  destruct (WebSocket_new _).
  - rewrite log_logs. unfold readyState. simpl. rewrite lookup_insert_eq. auto.
  - unfold reconnect, setTimer, write_log. rewrite log_logs. simpl.
    rewrite Hs, lookup_insert_eq. auto.
Qed.

(** C8.  A tick of the heartbeat timer writes no frame while the socket
    is not open; on an open connection it writes a heartbeat frame, and
    if the last heartbeat received is then older than the
    threshold it closes the socket with reason "Missing heartbeat" (the
    socket leaves OPEN), otherwise it closes nothing.  The [close] event
    of that socket arms the 1000 ms reconnect timer, and when that timer
    fires the client first drops the socket (disconnected) and then opens
    a new one, which is connecting; should the WebSocket constructor
    throw, it stays without a socket and arms the next reconnect timer. *)
Theorem C8_missing_heartbeat_forces_close_and_reconnect_cycle :
  forall (st : State) (ws hb : nat) (last : Z),
    socket st = Some ws ->
    readyState ws st = Some OPEN ->
    timers st !! hb = Some {| task := Heartbeat; delay := WS_HEARTBEAT_INTERVAL |} ->
    lastIncomeHeartbeat st = Some last ->
    let tick := step (TimerFires hb) st in
    let beat := (ws, JSON_stringify (JObj [("type", JStr "heartbeat")])) in
    (forall s, connected s = false ->
               sent (heartbeatTick s) = sent s
               /\ disconnectEventBuffer (heartbeatTick s) = disconnectEventBuffer s)
    /\ sent tick = sent st ++ [beat]
    /\ ((clock st - last <= WS_MISSING_HEARTBEAT_TIMEOUT_MS)%Z ->
        closed tick = closed st /\ readyState ws tick = Some OPEN)
    /\ ((clock st - last > WS_MISSING_HEARTBEAT_TIMEOUT_MS)%Z ->
        closed tick = closed st ++ [(ws, Some "Missing heartbeat")]
        /\ readyState ws tick = Some CLOSING
        /\ let closing := step (SocketClose ws) tick in
           let t := nextTimer st in
           timers closing !! t = Some {| task := Reconnect; delay := 1000 |}
           /\ let torn := disconnect (clearTimer t closing) in
              step (TimerFires t) closing = connect torn
              /\ socket torn = None
              /\ connected torn = false
              /\ if WebSocket_new (getWsUrl (hostname st) (apiKey st))
                 then socket (connect torn) = Some (nextSocket st)
                      /\ readyState (nextSocket st) (connect torn) = Some CONNECTING
                 else socket (connect torn) = None
                      /\ timers (connect torn) !! S t
                         = Some {| task := Reconnect; delay := 1000 |}).
Proof.
  intros st ws hb last Hs Hopen Hhb Hlast tick beat.
  assert (Hc : connected st = true).
  { unfold connected. rewrite Hs, Hopen. reflexivity. }
  assert (Etick : tick = heartbeatTick st).
  { subst tick. simpl. unfold fireTimer. rewrite Hhb. reflexivity. }
  destruct (heartbeatTick_open st ws Hc Hs)
    as (Hsent & Hsock & Hnt & Htimers & Hns & Hhost & Hkey & Hclose).
  rewrite <- Etick in Hsent, Hsock, Hnt, Htimers, Hns, Hhost, Hkey, Hclose.
  unfold isHeartbeatTimeout in Hclose. rewrite Hlast in Hclose.
  split; [exact heartbeatTick_not_open|]. split; [exact Hsent|]. split.
  - intros Hle. destruct (Z.gtb_spec (clock st - last) WS_MISSING_HEARTBEAT_TIMEOUT_MS);
      [lia | exact Hclose].
  - intros Hgt. destruct (Z.gtb_spec (clock st - last) WS_MISSING_HEARTBEAT_TIMEOUT_MS);
      [|lia].
    destruct Hclose as (Hclosed & Hclosing).
    split; [exact Hclosed|]. split; [exact Hclosing|].
    intros closing t.
    destruct (close_owned tick ws Hsock (ex_intro _ _ Hclosing))
      as (Ct & Cnt & _ & _ & _ & _ & Cns & Chost & Ckey).
    fold closing in Ct, Cnt, Cns, Chost, Ckey. rewrite Hnt in Ct, Cnt. fold t in Ct, Cnt.
    assert (Htimer : timers closing !! t = Some {| task := Reconnect; delay := 1000 |}).
    { rewrite Ct. apply lookup_insert_eq. }
    split; [exact Htimer|]. intros torn.
    split; [exact (reconnect_fires closing t 1000 Htimer)|].
    destruct (disconnect_torn_down (clearTimer t closing)) as (D1 & D2 & D3 & D4 & D5 & D6).
    fold torn in D1, D2, D3, D4, D5, D6. simpl in D3, D4, D5, D6.
    split; [exact D1|]. split; [exact D2|].
    pose proof (connect_without_socket torn D1) as Hconn.
    rewrite D5, D6, Chost, Ckey, Hhost, Hkey in Hconn.
    rewrite D3, Cns, Hns, D4, Cnt in Hconn.
    destruct (WebSocket_new _); [destruct Hconn as (? & ? & _); auto | exact Hconn].
Qed.

(** *** A waiting request stays waiting until its response or its timeout *)

Lemma waits_key (rid : string) (p t : nat) (st st' : State) :
  key st' = key st -> waits rid p t st -> waits rid p t st'.
Proof.
  unfold key. intros [= E1 E2 E3 E4 E5 E6 E7].
  unfold waits, awaiting, unshared. rewrite E1, E2, E3, E4, E5, E6, E7. auto.
Qed.

Lemma same_tables_key (st st' : State) : same_tables st st' -> key st' = key st.
Proof.
  unfold same_tables, key.
  intros (-> & -> & -> & -> & -> & _ & _ & _ & _ & _ & _ & -> & _ & -> & _). reflexivity.
Qed.

Lemma waits_log (rid : string) (p t : nat) (l : LogLine) (st : State) :
  waits rid p t st -> waits rid p t (log l st).
Proof. apply waits_key. rewrite log_logs. reflexivity. Qed.

Lemma waits_setTimer (rid : string) (p t : nat) (cb : TimerTask) (d : Z) (st : State) :
  waits rid p t st -> foreign rid p cb -> waits rid p t (snd (setTimer cb d st)).
Proof.
  intros ((A & B & C) & (D & E & F & G1 & G2 & H1 & H2)) Hcb. unfold setTimer. simpl.
  split; [split; [|split]|repeat split]; simpl; try assumption.
  - rewrite lookup_insert_ne by lia. exact A.
  - intros t' tm Ht' Hne. destruct (decide (t' = nextTimer st)) as [->|Hn].
    + rewrite lookup_insert_eq in Ht'. injection Ht' as <-. exact Hcb.
    + rewrite lookup_insert_ne in Ht' by congruence. exact (D t' tm Ht' Hne).
  - lia.
Qed.

Lemma waits_clearTimer (rid : string) (p t t' : nat) (st : State) :
  waits rid p t st -> t' <> t -> waits rid p t (clearTimer t' st).
Proof.
  intros ((A & B & C) & (D & E & F & G1 & G2 & H1 & H2)) Hne. unfold clearTimer.
  split; [split; [|split]|repeat split]; simpl; try assumption.
  - rewrite lookup_delete_ne by exact Hne. exact A.
  - intros t'' tm Ht'' Hne'. apply lookup_delete_Some in Ht'' as [_ Ht''].
    exact (D t'' tm Ht'' Hne').
Qed.

Lemma waits_set_promise (rid : string) (p t p' : nat) (v : PromiseState) (st : State) :
  waits rid p t st -> p' <> p -> (forall t', v = Pending t' -> t' <> t) ->
  waits rid p t (set_promises (<[p' := v]> (promises st)) st).
Proof.
  intros ((A & B & C) & (D & E & F & G1 & G2 & H1 & H2)) Hne Hv.
  split; [split; [|split]|repeat split]; simpl; try assumption.
  - rewrite lookup_insert_ne by exact Hne. exact C.
  - intros p'' t'' Hp'' Hne'. destruct (decide (p'' = p')) as [->|Hn].
    + rewrite lookup_insert_eq in Hp''. injection Hp'' as ->. exact (Hv t'' eq_refl).
    + rewrite lookup_insert_ne in Hp'' by congruence. exact (F p'' t'' Hp'' Hne').
Qed.

Lemma waits_reject (rid : string) (p t p' : nat) (r : option JsValue) (st : State) :
  waits rid p t st -> p' <> p -> waits rid p t (reject p' r st).
Proof.
  intros Hw Hne. unfold reject. destruct (promises st !! p') as [[]|]; try exact Hw.
  apply waits_set_promise; [exact Hw | exact Hne | discriminate].
Qed.

Lemma waits_resolve (rid : string) (p t p' : nat) (v : JsValue) (st : State) :
  waits rid p t st -> p' <> p -> waits rid p t (resolve p' v st).
Proof.
  intros Hw Hne. unfold resolve. destruct (promises st !! p') as [[t'| |]|] eqn:Hp; try exact Hw.
  apply waits_clearTimer.
  - apply waits_set_promise; [exact Hw | exact Hne | discriminate].
  - destruct Hw as (_ & (_ & _ & F & _)). exact (F p' t' Hp Hne).
Qed.

Lemma waits_delete_handler (rid rid' : string) (p t : nat) (st : State) :
  waits rid p t st -> rid' <> rid ->
  waits rid p t (set_eventResultHandlers (delete rid' (eventResultHandlers st)) st).
Proof.
  intros ((A & B & C) & (D & E & F & G1 & G2 & H1 & H2)) Hne.
  split; [split; [|split]|repeat split]; simpl; try assumption.
  - rewrite lookup_delete_ne by exact Hne. exact B.
  - intros rid'' h Hh Hne'. apply lookup_delete_Some in Hh as [_ Hh]. exact (E rid'' h Hh Hne').
Qed.

Lemma waits_insert_handler (rid rid' : string) (p t : nat) (h : ResultHandler) (st : State) :
  waits rid p t st -> rid' <> rid -> rh_promise h <> p ->
  waits rid p t (set_eventResultHandlers (<[rid' := h]> (eventResultHandlers st)) st).
Proof.
  intros ((A & B & C) & (D & E & F & G1 & G2 & H1 & H2)) Hne Hp.
  split; [split; [|split]|repeat split]; simpl; try assumption.
  - rewrite lookup_insert_ne by exact Hne. exact B.
  - intros rid'' h' Hh Hne'. destruct (decide (rid'' = rid')) as [->|Hn].
    + rewrite lookup_insert_eq in Hh. injection Hh as <-. exact Hp.
    + rewrite lookup_insert_ne in Hh by congruence. exact (E rid'' h' Hh Hne').
Qed.

Lemma waits_reconnect (rid : string) (p t : nat) (st : State) :
  waits rid p t st -> waits rid p t (reconnect st).
Proof.
  intros Hw. unfold reconnect.
  pose proof (waits_setTimer rid p t Reconnect 1000 st Hw I) as Hw'.
  unfold setTimer in *. simpl in *.
  destruct Hw' as ((A & B & C) & (D & E & F & G1 & G2 & H1 & H2)).
  split; [split; [|split]|repeat split]; simpl in *; try assumption.
  destruct Hw as (_ & (_ & _ & _ & G & _)). lia.
Qed.

Lemma waits_stopSentHeartBeat (rid : string) (p t : nat) (st : State) :
  waits rid p t st -> waits rid p t (stopSentHeartBeat st).
Proof.
  intros Hw. unfold stopSentHeartBeat.
  destruct (heartbeatSendingInterval st) as [[|hb]|] eqn:Hhb; try exact Hw.
  assert (Hne : S hb <> t).
  { destruct Hw as (_ & (_ & _ & _ & _ & _ & H1 & _)). congruence. }
  pose proof (waits_clearTimer rid p t (S hb) st Hw Hne) as Hw'.
  destruct Hw' as ((A & B & C) & (D & E & F & G1 & G2 & H1 & H2)).
  split; [split; [|split]|repeat split]; simpl in *; try assumption. discriminate.
Qed.

Lemma waits_startSendHeartBeat (rid : string) (p t : nat) (st : State) :
  waits rid p t st -> waits rid p t (startSendHeartBeat st).
Proof.
  intros Hw. unfold startSendHeartBeat.
  pose proof (waits_stopSentHeartBeat rid p t st Hw) as Hw1.
  pose proof (waits_setTimer rid p t Heartbeat WS_HEARTBEAT_INTERVAL _ Hw1 I) as Hw2.
  unfold setTimer in *. simpl in *.
  destruct Hw2 as ((A & B & C) & (D & E & F & G1 & G2 & H1 & H2)).
  split; [split; [|split]|repeat split]; simpl in *; try assumption.
  destruct Hw1 as (_ & (_ & _ & _ & G & _)). intros [= Heq]. lia.
Qed.

Lemma socket_close_key (ws : nat) (reason : option string) (st : State) :
  key (socket_close ws reason st) = key st.
Proof. unfold socket_close. destruct (readyState ws st) as [[]|]; reflexivity. Qed.

Lemma waits_disconnect (rid : string) (p t : nat) (st : State) :
  waits rid p t st -> waits rid p t (disconnect st).
Proof.
  intros Hw. unfold disconnect. destruct (socket st) as [ws|]; [|exact Hw].
  pose proof (waits_stopSentHeartBeat rid p t st Hw) as Hw1.
  match goal with |- waits _ _ _ ?s => apply (waits_key rid p t (stopSentHeartBeat st) s) end;
    [|exact Hw1].
  destruct (readyState ws _) as [[]|]; rewrite ?socket_close_key, ?log_logs; reflexivity.
Qed.

Lemma waits_connect (rid : string) (p t : nat) (st : State) :
  waits rid p t st -> waits rid p t (connect st).
Proof.
  intros Hw. unfold connect.
  assert (Hne : reconnectTimeout st <> t).
  { destruct Hw as (_ & (_ & _ & _ & _ & _ & _ & H2)). exact H2. }
  pose proof (waits_clearTimer rid p t _ st Hw Hne) as Hw1.
  destruct (socket (clearTimer (reconnectTimeout st) st)); [exact Hw1|].
  destruct (WebSocket_new _).
  - eapply waits_key; [|exact Hw1]. rewrite log_logs. reflexivity.
  - apply waits_reconnect. eapply waits_key; [|exact Hw1].
    unfold write_log. rewrite log_logs. reflexivity.
Qed.

Lemma waits_onConnect (rid : string) (p t : nat) (st : State) :
  waits rid p t st -> waits rid p t (onConnect st).
Proof.
  intros Hw. rewrite onConnect_stages.
  apply (waits_key rid p t (startSendHeartBeat (flushed st))); [reflexivity|].
  apply waits_startSendHeartBeat. unfold flushed.
  eapply waits_key; [apply same_tables_key, sendAll_same_tables|].
  apply (waits_key rid p t (replayed st)); [reflexivity|]. unfold replayed.
  eapply waits_key; [apply same_tables_key, sendAll_same_tables|]. exact Hw.
Qed.

Lemma waits_heartbeatTick (rid : string) (p t : nat) (st : State) :
  waits rid p t st -> waits rid p t (heartbeatTick st).
Proof.
  intros Hw. apply (waits_key rid p t st); [|exact Hw]. unfold heartbeatTick.
  assert (H : key (if connected st then sendEvent (JObj [("type", JStr "heartbeat")]) false st
                   else st) = key st).
  { destruct (connected st); [|reflexivity]. apply same_tables_key, sendEvent_same_tables. }
  revert H. generalize (if connected st then sendEvent (JObj [("type", JStr "heartbeat")]) false st
                        else st).
  intros s H. destruct (isHeartbeatTimeout s); [|exact H].
  rewrite log_logs. simpl. destruct (socket s); [rewrite socket_close_key|]; exact H.
Qed.

Lemma waits_receiveMessage (rid : string) (p t : nat) (data : string) (st : State) :
  waits rid p t st ->
  (forall msgEvent, JSON_parse data = Some msgEvent ->
                    prop msgEvent "requestId" <> Some (JStr rid)) ->
  waits rid p t (receiveMessage data st).
Proof.
  intros Hw Hq. unfold receiveMessage. destruct (JSON_parse data) as [ev|]; [|exact Hw].
  specialize (Hq ev eq_refl).
  destruct (negb (truthy (Some ev))).
  { apply (waits_key rid p t st); [reflexivity | exact Hw]. }
  destruct (truthy (prop ev "requestId")).
  - destruct (getResultHandler ev st) as [[rid' h]|] eqn:Hget.
    + rewrite (processResponse_known _ _ _ _ Hget).
      destruct (getResultHandler_Some _ _ _ _ Hget) as (Hprop & Hh).
      assert (Hne : rid' <> rid) by congruence.
      assert (Hp : rh_promise h <> p).
      { destruct Hw as (_ & (_ & E & _)). exact (E rid' h Hh Hne). }
      pose proof (waits_delete_handler rid rid' p t _
                    (waits_log rid p t (LogProcessResponse (prop ev "requestId")) st Hw) Hne)
        as Hw1.
      replace (eventResultHandlers (log (LogProcessResponse (prop ev "requestId")) st))
        with (eventResultHandlers st) in Hw1 by (rewrite log_logs; reflexivity).
      unfold invokeResultHandler.
      destruct (negb (stateIsOK ev)); [apply waits_reject | apply waits_resolve]; assumption.
    + rewrite (processResponse_unknown _ _ Hget). apply (waits_key rid p t st); [reflexivity | exact Hw].
  - destruct (getEventHandler ev st) as [[|h]|]; try exact Hw.
    all: apply (waits_key rid p t st); [reflexivity | exact Hw].
Qed.

Lemma waits_fireTimer (rid : string) (p t t' : nat) (st : State) :
  waits rid p t st -> t' <> t -> waits rid p t (fireTimer t' st).
Proof.
  intros Hw Hne. unfold fireTimer. destruct (timers st !! t') as [tm|] eqn:Ht'; [|exact Hw].
  pose proof (waits_clearTimer rid p t t' st Hw Hne) as Hw1.
  destruct (task tm) as [rid' p'| |] eqn:Htask.
  - assert (Hf : rid' <> rid /\ p' <> p).
    { destruct Hw as (_ & (D & _)). specialize (D t' tm Ht' Hne). rewrite Htask in D.
      exact D. }
    destruct Hf as (Hrid & Hp). unfold responseTimeout.
    destruct (eventResultHandlers (clearTimer t' st) !! rid'); [|exact Hw1].
    apply waits_reject; [|exact Hp]. apply waits_delete_handler; assumption.
  - apply waits_connect, waits_disconnect, Hw1.
  - apply waits_heartbeatTick, Hw.
Qed.

Lemma waits_step (rid : string) (p t : nat) (i : Input) (st : State) :
  waits rid p t st -> quiet rid t (HostTurn i) -> waits rid p t (step i st).
Proof.
  intros Hw Hq. destruct i as [ws|ws data|ws|ws|t'|to]; simpl in *.
  - destruct (readyState ws st); [|exact Hw].
    apply waits_onConnect. eapply waits_key; [|exact Hw]. rewrite log_logs. reflexivity.
  - destruct (readyState ws st); [|exact Hw]. apply waits_receiveMessage; assumption.
  - destruct (readyState ws st); [|exact Hw]. unfold onDisconnect.
    destruct (negb _).
    + apply (waits_key rid p t st); [reflexivity | exact Hw].
    + apply waits_reconnect, waits_log. apply (waits_key rid p t st); [reflexivity | exact Hw].
  - destruct (readyState ws st); [|exact Hw]. apply waits_reconnect, waits_log, Hw.
  - apply waits_fireTimer; assumption.
  - apply (waits_key rid p t st); [reflexivity | exact Hw].
Qed.

Lemma waits_sendEventWithResponse (rid rid' : string) (p t : nat) (req : JsValue)
    (b : bool) (st : State) :
  waits rid p t st -> rid' <> rid ->
  waits rid p t (snd (sendEventWithResponse rid' req b st)).
Proof.
  intros Hw Hne. unfold sendEventWithResponse.
  assert (G : t < nextTimer st /\ p < nextPromise st).
  { destruct Hw as (_ & (_ & _ & _ & G1 & G2 & _)). auto. }
  destruct G as (G1 & G2).
  assert (Hw1 : waits rid p t (set_nextPromise (S (nextPromise st)) st)).
  { destruct Hw as ((A & B & C) & (D & E & F & _ & _ & H1 & H2)).
    split; [split; [|split]|repeat split]; simpl; try assumption. lia. }
  pose proof (waits_insert_handler rid rid' p t {| rh_promise := nextPromise st |} _ Hw1 Hne)
    as Hw2.
  specialize (Hw2 ltac:(simpl; lia)).
  match type of Hw2 with waits _ _ _ ?s2 =>
    pose proof (waits_setTimer rid p t (ResponseTimeout rid' (nextPromise st)) 60000 s2 Hw2)
      as Hw3
  end.
  specialize (Hw3 ltac:(simpl; split; [exact Hne | lia])).
  unfold setTimer in *. simpl in *.
  match goal with |- context [sendEvent req b ?s3] =>
    pose proof (waits_key rid p t s3 (sendEvent req b s3)
                  (same_tables_key _ _ (sendEvent_same_tables req b s3)) Hw3) as Hw4
  end.
  apply waits_set_promise; [exact Hw4 | lia |].
  intros t' [= <-]. lia.
Qed.

Lemma waits_call (rid : string) (p t : nat) (c : Call) (st : State) :
  waits rid p t st -> quiet rid t (ClientTurn c) -> waits rid p t (call c st).
Proof.
  intros Hw Hq. destruct c as [message b|rid' req b|type h|responseType c]; simpl in *.
  - eapply waits_key; [apply same_tables_key, sendEvent_same_tables | exact Hw].
  - apply waits_sendEventWithResponse; assumption.
  - apply (waits_key rid p t st); [reflexivity | exact Hw].
  - destruct c; simpl; unfold subscribeToEvent, subscribeToLiveEvent.
    all: eapply waits_key; [apply same_tables_key, sendEvent_same_tables|].
    all: apply (waits_key rid p t st); [reflexivity | exact Hw].
Qed.

Lemma waits_turns (rid : string) (p t : nat) (l : list Turn) (st : State) :
  waits rid p t st -> Forall (quiet rid t) l -> waits rid p t (turns l st).
Proof.
  unfold turns. revert st. induction l as [|tn rest IH]; intros st Hw Hall; simpl.
  - exact Hw.
  - inversion Hall as [|? ? Hq Hrest]; subst. apply IH; [|exact Hrest].
    destruct tn as [i|c]; simpl; [apply waits_step | apply waits_call]; assumption.
Qed.

(** The call itself establishes the invariant. *)
Lemma sendEventWithResponse_waits (rid : string) (req : JsValue) (b : bool) (st : State) :
  unused rid st ->
  waits rid (nextPromise st) (nextTimer st) (snd (sendEventWithResponse rid req b st))
  /\ fst (sendEventWithResponse rid req b st) = nextPromise st.
Proof.
  intros (U1 & U2 & U3 & U4 & U5). split; [|reflexivity].
  unfold sendEventWithResponse, setTimer. simpl.
  match goal with |- context [sendEvent req b ?s3] =>
    destruct (sendEvent_same_tables req b s3)
      as (Ht & Hnt & Hpr & Hnp & Hh & _ & _ & _ & _ & _ & _ & Hhb & _ & Hrt & _);
    generalize dependent (sendEvent req b s3)
  end.
  intros s4 Ht Hnt Hpr Hnp Hh Hhb Hrt. simpl in *.
  split; [split; [|split]|repeat split]; simpl.
  - rewrite Ht. apply lookup_insert_eq.
  - rewrite Hh. apply lookup_insert_eq.
  - apply lookup_insert_eq.
  - rewrite Ht. intros t' tm Ht' Hne. rewrite lookup_insert_ne in Ht' by congruence.
    specialize (U1 t' tm Ht'). unfold foreign. destruct (task tm); auto.
    destruct U1. split; [assumption | lia].
  - rewrite Hh. intros rid' h Hh' Hne. rewrite lookup_insert_ne in Hh' by congruence.
    specialize (U2 rid' h Hh'). lia.
  - intros p' t' Hp' Hne. rewrite lookup_insert_ne in Hp' by congruence.
    rewrite Hpr in Hp'. specialize (U3 p' t' Hp'). lia.
  - rewrite Hnt. lia.
  - rewrite Hnp. lia.
  - rewrite Hhb. intros Heq. specialize (U4 _ Heq). lia.
  - rewrite Hrt. lia.
Qed.

(** The timeout of a request that is still waiting. *)
Lemma timeout_while_awaiting (rid : string) (p t : nat) (st2 : State) :
  awaiting rid p t st2 ->
  let timedOut := Rejected (Some (JStr "Response was not obtained in 60s")) in
  let st3 := step (TimerFires t) st2 in
  promises st3 !! p = Some timedOut
  /\ eventResultHandlers st3 = delete rid (eventResultHandlers st2)
  /\ forall (ws : nat) (data : string) (msgEvent : JsValue),
       JSON_parse data = Some msgEvent ->
       prop msgEvent "requestId" = Some (JStr rid) ->
       truthy (prop msgEvent "requestId") = true ->
       let st4 := step (SocketMessage ws data) st3 in
       promises st4 !! p = Some timedOut
       /\ (st4 = st3 \/
           st4 = set_logs (logs st3
                           ++ logged (LogProcessResponse (prop msgEvent "requestId")) st3
                           ++ logged LogNoListener st3) st3).
Proof.
  intros (Htimer & Hhandler & Hpromise) timedOut. set (st3 := step (TimerFires t) st2).
  assert (E3 : st3 = reject p (Some (JStr "Response was not obtained in 60s"))
                 (set_eventResultHandlers (delete rid (eventResultHandlers st2))
                    (clearTimer t st2))).
  { subst st3. unfold step, fireTimer. rewrite Htimer. simpl.
    unfold responseTimeout. simpl. rewrite Hhandler. reflexivity. }
  assert (Hp3 : promises st3 !! p = Some timedOut).
  { rewrite E3. unfold reject. simpl. rewrite Hpromise. simpl. apply lookup_insert_eq. }
  assert (Hh3 : eventResultHandlers st3 = delete rid (eventResultHandlers st2)).
  { rewrite E3, reject_eventResultHandlers. reflexivity. }
  split; [exact Hp3|]. split; [exact Hh3|].
  intros ws data ev Hparse Hprop Htruthy.
  assert (Hdrop : receiveMessage data st3
                  = set_logs (logs st3 ++ logged (LogProcessResponse (prop ev "requestId")) st3
                                       ++ logged LogNoListener st3) st3).
  { rewrite (receiveMessage_response _ _ _ Hparse Htruthy).
    apply processResponse_unknown.
    unfold getResultHandler. rewrite Hprop, Hh3, lookup_delete_eq. reflexivity. }
  cbv zeta. change (step (SocketMessage ws data) st3)
    with (match readyState ws st3 with
          | Some _ => receiveMessage data st3
          | None => st3
          end).
  destruct (readyState ws st3).
  - rewrite Hdrop. split; [exact Hp3 | right; reflexivity].
  - split; [exact Hp3 | left; reflexivity].
Qed.

(** C4.  [sendEventWithResponse], called under a request identifier
    that is not in use, arms a timer of 60000 ms and returns a pending
    promise.  Whatever turns follow (host events and calls of public
    methods), as long as none of them is a response with that identifier,
    the timeout itself, or a new request under the same identifier, the
    promise is still pending; when the timer then comes due the promise is
    rejected with the timeout message and the entry is removed from
    [eventResultHandlers]; a response with that identifier arriving
    afterwards finds no handler, writes log lines only, and leaves the
    promise rejected. *)
Theorem C4_timeout_rejects_and_late_response_is_dropped :
  forall (st : State) (requestId : string) (requestEvent : JsValue)
         (isSubscriptionEvent : bool) (l : list Turn),
    unused requestId st ->
    Forall (quiet requestId (nextTimer st)) l ->
    let call := sendEventWithResponse requestId requestEvent isSubscriptionEvent st in
    let p := fst call in
    let t := nextTimer st in
    let timedOut := Rejected (Some (JStr "Response was not obtained in 60s")) in
    let st2 := turns l (snd call) in
    let st3 := step (TimerFires t) st2 in
    timers (snd call) !! t = Some {| task := ResponseTimeout requestId p; delay := 60000 |}
    /\ promises st2 !! p = Some (Pending t)
    /\ promises st3 !! p = Some timedOut
    /\ eventResultHandlers st3 = delete requestId (eventResultHandlers st2)
    /\ eventResultHandlers st3 !! requestId = None
    /\ forall (ws : nat) (data : string) (msgEvent : JsValue),
         JSON_parse data = Some msgEvent ->
         prop msgEvent "requestId" = Some (JStr requestId) ->
         truthy (prop msgEvent "requestId") = true ->
         let st4 := step (SocketMessage ws data) st3 in
         promises st4 !! p = Some timedOut
         /\ (st4 = st3 \/
             st4 = set_logs (logs st3
                             ++ logged (LogProcessResponse (prop msgEvent "requestId")) st3
                             ++ logged LogNoListener st3) st3).
Proof.
  intros st rid req isSub l Hunused Hquiet call p t timedOut st2 st3.
  destruct (sendEventWithResponse_waits rid req isSub st Hunused) as (Hw & Hp).
  fold call in Hw, Hp. fold p in Hp. fold t in Hw. rewrite <- Hp in Hw.
  pose proof (waits_turns rid p t l (snd call) Hw Hquiet) as Hw2. fold st2 in Hw2.
  destruct Hw as ((A & _) & _). destruct Hw2 as ((A2 & B2 & C2) & _).
  destruct (timeout_while_awaiting rid p t st2 (conj A2 (conj B2 C2))) as (H1 & H2 & H3).
  fold st3 in H1, H2, H3.
  split; [exact A|]. split; [exact C2|]. split; [exact H1|]. split; [exact H2|].
  split; [rewrite H2; apply lookup_delete_eq | exact H3].
Qed.

End Communication.

(** ** Properties of the design loader *)

Section Loader.

Import DesignUtil.

(** A call under an identity other than the loader's, while loading:
    the caller is queued and nothing else changes. *)
Lemma loadDesign_other (identifier loader : string) (st : State) :
  state st = LOADING ->
  loaderIdentifier st = Some loader ->
  identifier <> loader ->
  loadDesign identifier st
  = (Waits (nextWaiter st),
     set_loadFinishConsumers (loadFinishConsumers st ++ [nextWaiter st])
       (set_nextWaiter (S (nextWaiter st)) st)).
Proof.
  intros Hst Hl Hne. unfold loadDesign, loadDesignInternal. simpl. rewrite Hst, Hl. simpl.
  rewrite bool_decide_eq_false_2 by congruence. reflexivity.
Qed.

(** A call under the loader's own identity, while loading: it is not
    queued; it takes the loader's path and starts a fetch. *)
Lemma loadDesign_same (identifier : string) (st : State) :
  loaderIdentifier st = Some identifier ->
  loadDesign identifier st
  = (Fetches,
     set_fetchesInFlight (S (fetchesInFlight st))
       (set_fetchesStarted (S (fetchesStarted st))
          (set_loaderIdentifier (Some identifier) (set_state LOADING st)))).
Proof.
  intros Hl. unfold loadDesign, loadDesignInternal.
  rewrite (bool_decide_eq_true_2 _ Hl), andb_false_r. reflexivity.
Qed.

Lemma loadAll_others (identifiers : list string) (loader : string) (st : State) :
  state st = LOADING ->
  loaderIdentifier st = Some loader ->
  Forall (fun identifier => identifier <> loader) identifiers ->
  let st' := loadAll identifiers st in
  state st' = LOADING
  /\ loaderIdentifier st' = Some loader
  /\ fetchesStarted st' = fetchesStarted st
  /\ fetchesInFlight st' = fetchesInFlight st
  /\ resolved st' = resolved st
  /\ nextWaiter st' = nextWaiter st + length identifiers
  /\ loadFinishConsumers st'
     = loadFinishConsumers st ++ seq (nextWaiter st) (length identifiers).
Proof.
  revert st. induction identifiers as [|identifier rest IH]; intros st Hst Hl Hall; simpl.
  - rewrite Nat.add_0_r, app_nil_r. repeat split; try assumption; reflexivity.
  - inversion Hall as [|? ? Hne Hrest]; subst.
    rewrite (loadDesign_other identifier loader st Hst Hl Hne). simpl.
    match goal with |- context [loadAll rest ?s] =>
      destruct (IH s Hst Hl Hrest) as (E1 & E2 & E3 & E4 & E5 & E6 & E7)
    end.
    simpl in *. rewrite E1, E2, E3, E4, E5, E6, E7, <- app_assoc.
    repeat split; try reflexivity. lia.
Qed.

(** While the state is LOADING under identity [loader] with one fetch in
    flight, [N] calls of [load()] under other identities start no fetch:
    after each of them the loader's fetch is still the only one in flight
    and the number of fetches started has not moved; the [k]-th caller
    gets a promise that is appended to the waiter queue.  When the
    loader's fetch returns, the state becomes DONE or ERROR, every queued
    waiter is resolved, in queue order, the queue is emptied and nothing
    is in flight. *)
Lemma loads_while_loading_wait_for_the_loader :
  forall (st : State) (loader : string) (identifiers : list string) (data : option DspDesign),
    state st = LOADING ->
    loaderIdentifier st = Some loader ->
    fetchesInFlight st = 1 ->
    Forall (fun identifier => identifier <> loader) identifiers ->
    let st' := loadAll identifiers st in
    (forall k,
        let sk := loadAll (take k identifiers) st in
        fetchesInFlight sk = 1 /\ fetchesStarted sk = fetchesStarted st
        /\ (forall identifier, identifiers !! k = Some identifier ->
               fst (loadDesign identifier sk) = Waits (nextWaiter st + k)))
    /\ fetchesInFlight st' = 1
    /\ fetchesStarted st' = fetchesStarted st
    /\ loadFinishConsumers st'
       = loadFinishConsumers st ++ seq (nextWaiter st) (length identifiers)
    /\ let st'' := loadDesignInternal_resume data st' in
       state st'' = match data with Some _ => DONE | None => ERROR end
       /\ resolved st'' = resolved st ++ loadFinishConsumers st'
       /\ loadFinishConsumers st'' = []
       /\ fetchesInFlight st'' = 0
       /\ fetchesStarted st'' = fetchesStarted st.
Proof.
  intros st loader identifiers data Hst Hl Hone Hall st'.
  destruct (loadAll_others identifiers loader st Hst Hl Hall)
    as (E1 & E2 & E3 & E4 & E5 & E6 & E7).
  fold st' in E1, E2, E3, E4, E5, E6, E7.
  split; [|split; [congruence|split; [exact E3|split; [exact E7|]]]].
  - intros k sk.
    destruct (loadAll_others (take k identifiers) loader st Hst Hl (Forall_take _ k _ Hall))
      as (F1 & F2 & F3 & F4 & F5 & F6 & F7).
    fold sk in F1, F2, F3, F4, F5, F6, F7.
    split; [congruence|]. split; [exact F3|].
    intros identifier Hk.
    assert (Hne : identifier <> loader).
    { rewrite Forall_forall in Hall. apply Hall.
      eapply list_elem_of_lookup_2. exact Hk. }
    rewrite (loadDesign_other identifier loader sk F1 F2 Hne). simpl.
    rewrite F6, length_take. f_equal.
    apply lookup_lt_Some in Hk. lia.
  - intros st''. subst st''. unfold loadDesignInternal_resume, notifyAllDesignConsumers.
    destruct data; simpl; rewrite E4, E5, Hone; auto.
Qed.

(** A call of [load()] made while no fetch is in flight becomes the
    loader; one made while the state is LOADING under another identity
    is queued. *)
Lemma handle_singleFlight (e : Event) (st : State) :
  apart e st = true -> singleFlight st -> singleFlight (handle e st).
Proof.
  intros Ha (Hn & Hl). destruct e as [identifier|data|identifier|time]; simpl in *.
  - unfold loadDesign, loadDesignInternal.
    destruct (isLOADING (state st)) eqn:E; simpl in *.
    + apply negb_true_iff in Ha. rewrite Ha. simpl. rewrite E. simpl.
      split; [simpl; rewrite E; exact Hn | exact Hl].
    + rewrite Hn. split; [reflexivity | eauto].
  - destruct (fetchesInFlight st) as [|k] eqn:Ek; [split; [rewrite Ek; exact Hn | exact Hl]|].
    destruct (isLOADING (state st)) eqn:E; [|discriminate].
    unfold loadDesignInternal_resume. rewrite Ek.
    destruct data; split; simpl; try discriminate; lia.
  - apply bool_decide_eq_true_1 in Ha. rewrite Ha. split; [reflexivity | eauto].
  - split; assumption.
Qed.

Lemma handleAll_singleFlight (events : list Event) (st : State) :
  undisturbed events st = true -> singleFlight st -> singleFlight (handleAll events st).
Proof.
  revert st. induction events as [|e rest IH]; intros st Hu Hs; simpl in *; [exact Hs|].
  apply andb_true_iff in Hu as (Ha & Hu). apply IH; [exact Hu|].
  apply handle_singleFlight; assumption.
Qed.

Lemma new_singleFlight (time : Z) : singleFlight (new time).
Proof. split; [reflexivity | discriminate]. Qed.

(** C2 (as the code has it).  In every history in which no [load()] is
    called under the identity of the loader in flight and no
    [designChangeNotify] frame arrives during a fetch, at most one fetch
    is in flight at any time, and one is in flight exactly while the
    state is LOADING.  While it is, [N] calls of [load()] under
    identities other than the loader's start no fetch: after each of
    them the loader's fetch is still the only one in flight and the
    number of fetches started has not moved; the [k]-th caller gets a
    promise that is appended to the waiter queue.  When the loader's
    fetch returns, the state becomes DONE or ERROR, every queued waiter
    is resolved, in queue order, the queue is emptied and nothing is in
    flight. *)
Theorem C2_loads_while_loading_share_the_single_fetch_in_flight :
  forall (time : Z) (events : list Event),
    undisturbed events (new time) = true ->
    let st := handleAll events (new time) in
    fetchesInFlight st <= 1
    /\ (fetchesInFlight st = 1 <-> state st = LOADING)
    /\ (state st = LOADING ->
        exists loader,
          loaderIdentifier st = Some loader
          /\ forall (identifiers : list string) (data : option DspDesign),
               Forall (fun identifier => identifier <> loader) identifiers ->
               let st' := loadAll identifiers st in
               (forall k,
                   let sk := loadAll (take k identifiers) st in
                   fetchesInFlight sk = 1 /\ fetchesStarted sk = fetchesStarted st
                   /\ (forall identifier, identifiers !! k = Some identifier ->
                          fst (loadDesign identifier sk) = Waits (nextWaiter st + k)))
               /\ fetchesInFlight st' = 1
               /\ fetchesStarted st' = fetchesStarted st
               /\ loadFinishConsumers st'
                  = loadFinishConsumers st ++ seq (nextWaiter st) (length identifiers)
               /\ let st'' := loadDesignInternal_resume data st' in
                  state st'' = match data with Some _ => DONE | None => ERROR end
                  /\ resolved st'' = resolved st ++ loadFinishConsumers st'
                  /\ loadFinishConsumers st'' = []
                  /\ fetchesInFlight st'' = 0
                  /\ fetchesStarted st'' = fetchesStarted st).
Proof.
  intros time events Hu st.
  destruct (handleAll_singleFlight events (new time) Hu (new_singleFlight time)) as (Hn & Hl).
  fold st in Hn, Hl. clearbody st.
  split; [rewrite Hn; destruct (isLOADING (state st)); lia|].
  split.
  - rewrite Hn. destruct (state st); simpl; split; intros H; try reflexivity; discriminate.
  - intros Hst. destruct (Hl Hst) as (loader & Hloader). exists loader.
    split; [exact Hloader|]. intros identifiers data Hall.
    apply (loads_while_loading_wait_for_the_loader st loader identifiers data Hst Hloader);
      [rewrite Hn, Hst; reflexivity | exact Hall].
Qed.

(** C5 (as the code has it).  While the state is LOADING, a call under
    the identity of the loader in flight is not put on the waiter queue,
    but it does not return at once either: it takes the loader's path
    again, leaves the state LOADING under the same identity, and starts
    one more fetch.  A call under any other identity is appended to the
    waiter queue and starts no fetch. *)
Theorem C5_same_identity_reloads_and_other_identity_waits :
  forall (st : State) (identifier : string),
    state st = LOADING ->
    let st' := snd (loadDesign identifier st) in
    if bool_decide (loaderIdentifier st = Some identifier)
    then fst (loadDesign identifier st) = Fetches
         /\ loadFinishConsumers st' = loadFinishConsumers st
         /\ state st' = LOADING
         /\ loaderIdentifier st' = Some identifier
         /\ fetchesStarted st' = S (fetchesStarted st)
         /\ fetchesInFlight st' = S (fetchesInFlight st)
    else fst (loadDesign identifier st) = Waits (nextWaiter st)
         /\ loadFinishConsumers st' = loadFinishConsumers st ++ [nextWaiter st]
         /\ state st' = LOADING
         /\ loaderIdentifier st' = loaderIdentifier st
         /\ fetchesStarted st' = fetchesStarted st
         /\ fetchesInFlight st' = fetchesInFlight st.
Proof.
  intros st identifier Hst st'. subst st'.
  destruct (bool_decide (loaderIdentifier st = Some identifier)) eqn:Hid.
  - apply bool_decide_eq_true_1 in Hid. rewrite (loadDesign_same identifier st Hid).
    simpl. repeat split; reflexivity.
  - unfold loadDesign, loadDesignInternal. rewrite Hst, Hid. simpl. rewrite Hst. simpl.
    repeat split; try reflexivity. exact Hst.
Qed.

(** The [designChangeNotify] handler resets the state before it loads,
    so its [load()] is never queued behind a load in flight: a change
    notice that arrives during a fetch starts a second fetch beside the
    first. *)
Lemma designChange_while_loading_starts_second_fetch (identifier : string) (st : State) :
  fetchesInFlight (snd (onDesignChangeNotify identifier st)) = S (fetchesInFlight st).
Proof. reflexivity. Qed.

End Loader.

(** ** Further properties of WebSocketCommunication *)

Section Transport.

Import WebSocketCommunication.

Context {platform : Platform}.

(** *** Several requests in flight *)

Lemma answers_truthy (f : Response) :
  answers f -> truthy (prop (frameEvent f) "requestId") = true.
Proof.
  intros (_ & -> & Hne). simpl. destruct (String.eqb _ _) eqn:E; [apply String.eqb_eq in E; contradiction | reflexivity].
Qed.

(** The response to a request that is waiting runs the handler of that
    request. *)
Lemma receiveMessage_answer (f : Response) (p t : nat) (st : State) :
  answers f ->
  awaiting (frameRequestId f) p t st ->
  receiveMessage (frameData f) st =
    invokeResultHandler {| rh_promise := p |} (frameEvent f)
      (set_eventResultHandlers (delete (frameRequestId f) (eventResultHandlers st))
         (log (LogProcessResponse (prop (frameEvent f) "requestId")) st)).
Proof.
  intros Hf (_ & Hh & _). pose proof (answers_truthy f Hf) as Htr.
  destruct Hf as (Hparse & Hprop & _).
  rewrite (receiveMessage_response _ _ _ Hparse Htr).
  apply processResponse_known. unfold getResultHandler. rewrite Hprop, Hh. reflexivity.
Qed.

Lemma resolve_settled (p q : nat) (v : JsValue) (s : PromiseState) (st : State) :
  promises st !! p = Some s -> (forall t, s <> Pending t) ->
  promises (resolve q v st) !! p = Some s.
Proof.
  intros Hp Hs. unfold resolve. destruct (promises st !! q) as [[t| |]|] eqn:Hq; try exact Hp.
  simpl. rewrite lookup_insert_ne; [exact Hp|]. intros ->. rewrite Hp in Hq.
  injection Hq as ->. exact (Hs t eq_refl).
Qed.

Lemma reject_settled (p q : nat) (r : option JsValue) (s : PromiseState) (st : State) :
  promises st !! p = Some s -> (forall t, s <> Pending t) ->
  promises (reject q r st) !! p = Some s.
Proof.
  intros Hp Hs. unfold reject. destruct (promises st !! q) as [[t| |]|] eqn:Hq; try exact Hp.
  simpl. rewrite lookup_insert_ne; [exact Hp|]. intros ->. rewrite Hp in Hq.
  injection Hq as ->. exact (Hs t eq_refl).
Qed.

(** A settled promise is never settled again by a frame. *)
Lemma receiveMessage_settled (p : nat) (s : PromiseState) (data : string) (st : State) :
  promises st !! p = Some s -> (forall t, s <> Pending t) ->
  promises (receiveMessage data st) !! p = Some s.
Proof.
  intros Hp Hs. unfold receiveMessage. destruct (JSON_parse data) as [ev|]; [|exact Hp].
  destruct (negb (truthy (Some ev))); [exact Hp|].
  destruct (truthy (prop ev "requestId")).
  - destruct (getResultHandler ev st) as [[rid h]|] eqn:Hget.
    + rewrite (processResponse_known _ _ _ _ Hget). unfold invokeResultHandler.
      destruct (negb (stateIsOK ev)); [apply reject_settled | apply resolve_settled];
        try exact Hs; rewrite log_logs; exact Hp.
    + rewrite (processResponse_unknown _ _ Hget). exact Hp.
  - destruct (getEventHandler ev st) as [[|h]|]; exact Hp.
Qed.

Lemma deliver_settled (p : nat) (s : PromiseState) (frames : list string) (st : State) :
  promises st !! p = Some s -> (forall t, s <> Pending t) ->
  promises (deliver frames st) !! p = Some s.
Proof.
  unfold deliver. revert st. induction frames as [|data rest IH]; intros st Hp Hs; simpl.
  - exact Hp.
  - apply IH; [|exact Hs]. apply receiveMessage_settled; assumption.
Qed.

Lemma settlement_settled (ev : JsValue) (t : nat) : settlement ev <> Pending t.
Proof. unfold settlement. destruct (stateIsOK ev); discriminate. Qed.

(** X1.  Any number of requests may be waiting at once.  When responses
    arrive, each under the identifier of a different request and in any
    order, the promise of a waiting request is settled by the frame that
    carries its identifier, whatever was delivered before and after it,
    and a request that none of the frames answers is still waiting: its
    handler is registered, its timer armed and its promise pending. *)
Theorem responses_in_any_order_settle_their_own_requests :
  forall (frames : list Response) (st : State) (requestId : string) (p t : nat),
    Forall answers frames ->
    NoDup (map frameRequestId frames) ->
    waits requestId p t st ->
    let st' := deliver (map frameData frames) st in
    (forall f, f ∈ frames -> frameRequestId f = requestId ->
               promises st' !! p = Some (settlement (frameEvent f)))
    /\ (requestId ∉ map frameRequestId frames -> waits requestId p t st').
Proof.
  intros frames. induction frames as [|f rest IH]; intros st rid p t Hall Hnd Hw; simpl.
  - split; [|intros _; exact Hw]. intros f Hin. apply elem_of_nil in Hin. contradiction.
  - apply Forall_cons in Hall as (Hf & Hrest). apply NoDup_cons in Hnd as (Hnotin & Hnd).
    destruct (decide (frameRequestId f = rid)) as [Heq|Hne].
    + split.
      * intros f' Hin Hrid'. apply elem_of_cons in Hin as [->|Hin].
        -- apply deliver_settled; [|apply settlement_settled].
           destruct Hw as (Ha & _). rewrite <- Heq in Ha.
           rewrite (receiveMessage_answer f p t st Hf Ha).
           apply invokeResultHandler_settles with (h := {| rh_promise := p |}) (t := t).
           simpl. rewrite log_logs. destruct Ha as (_ & _ & Hp). exact Hp.
        -- exfalso. apply Hnotin. rewrite Heq, <- Hrid'.
           apply list_elem_of_fmap_2. exact Hin.
      * intros Hnot. exfalso. apply Hnot. rewrite <- Heq. apply elem_of_cons. left. reflexivity.
    + assert (Hw1 : waits rid p t (receiveMessage (frameData f) st)).
      { apply waits_receiveMessage; [exact Hw|]. intros ev Hparse.
        destruct Hf as (Hparse' & Hprop & _). rewrite Hparse' in Hparse.
        injection Hparse as <-. rewrite Hprop. congruence. }
      destruct (IH _ rid p t Hrest Hnd Hw1) as (H1 & H2). split.
      * intros f' Hin Hrid'. apply elem_of_cons in Hin as [->|Hin]; [contradiction|].
        exact (H1 f' Hin Hrid').
      * intros Hnot. apply H2. intros Hin. apply Hnot. apply elem_of_cons. right. exact Hin.
Qed.

(** X2.  The response to a waiting request removes its handler.  A
    response with [state] "OK" fulfils the promise and the 60 s timer is
    cleared.  Any other response rejects the promise with [failReason]
    and leaves the timer armed; when that timer comes due it finds no
    handler and does nothing: the promise keeps the reason of the
    response. *)
Theorem response_clears_the_timeout_only_on_success :
  forall (f : Response) (st : State) (p t : nat),
    answers f ->
    awaiting (frameRequestId f) p t st ->
    let st' := receiveMessage (frameData f) st in
    eventResultHandlers st' = delete (frameRequestId f) (eventResultHandlers st)
    /\ if stateIsOK (frameEvent f)
       then promises st' !! p = Some (Fulfilled (frameEvent f))
            /\ timers st' = delete t (timers st)
       else promises st' !! p = Some (Rejected (prop (frameEvent f) "failReason"))
            /\ timers st' = timers st
            /\ step (TimerFires t) st' = clearTimer t st'
            /\ promises (step (TimerFires t) st') = promises st'.
Proof.
  intros f st p t Hf Ha st'. subst st'. rewrite (receiveMessage_answer f p t st Hf Ha).
  destruct Ha as (Ht & Hh & Hp).
  split; [rewrite invokeResultHandler_eventResultHandlers, log_logs; reflexivity|].
  unfold invokeResultHandler, resolve, reject.
  destruct (stateIsOK (frameEvent f)); simpl; rewrite log_logs; simpl; rewrite Hp; simpl.
  - split; [apply lookup_insert_eq | reflexivity].
  - split; [apply lookup_insert_eq|]. split; [reflexivity|].
    unfold fireTimer. simpl. rewrite Ht. simpl. unfold responseTimeout. simpl.
    rewrite lookup_delete_eq. split; reflexivity.
Qed.

(** *** The heartbeat interval *)

Lemma oneHeartbeat_same (st st' : State) :
  timers st' = timers st -> nextTimer st' = nextTimer st ->
  heartbeatSendingInterval st' = heartbeatSendingInterval st ->
  oneHeartbeat st -> oneHeartbeat st'.
Proof. unfold oneHeartbeat. intros -> -> ->. auto. Qed.

Lemma oneHeartbeat_key (st st' : State) :
  key st' = key st -> oneHeartbeat st -> oneHeartbeat st'.
Proof. unfold key. intros [= E1 E2 _ _ _ E6 _]. apply oneHeartbeat_same; assumption. Qed.

Lemma oneHeartbeat_setTimer (cb : TimerTask) (d : Z) (st : State) :
  cb <> Heartbeat -> oneHeartbeat st -> oneHeartbeat (snd (setTimer cb d st)).
Proof.
  intros Hcb (A & B & C). unfold setTimer. repeat split; simpl; [lia | exact B |].
  intros t tm Ht Htask. destruct (decide (t = nextTimer st)) as [->|Hne].
  - rewrite lookup_insert_eq in Ht. injection Ht as <-. contradiction.
  - rewrite lookup_insert_ne in Ht by congruence. exact (C t tm Ht Htask).
Qed.

Lemma oneHeartbeat_clearTimer (t : nat) (st : State) :
  oneHeartbeat st -> oneHeartbeat (clearTimer t st).
Proof.
  intros (A & B & C). unfold clearTimer. repeat split; simpl; [exact A | exact B |].
  intros t' tm Ht Htask. apply lookup_delete_Some in Ht as [_ Ht]. exact (C t' tm Ht Htask).
Qed.

Lemma oneHeartbeat_reject (p : nat) (r : option JsValue) (st : State) :
  oneHeartbeat st -> oneHeartbeat (reject p r st).
Proof.
  unfold reject. destruct (promises st !! p) as [[]|]; exact id.
Qed.

Lemma oneHeartbeat_resolve (p : nat) (v : JsValue) (st : State) :
  oneHeartbeat st -> oneHeartbeat (resolve p v st).
Proof.
  unfold resolve. destruct (promises st !! p) as [[]|]; try exact id.
  intros H. apply oneHeartbeat_clearTimer. revert H. apply oneHeartbeat_same; reflexivity.
Qed.

Lemma oneHeartbeat_reconnect (st : State) : oneHeartbeat st -> oneHeartbeat (reconnect st).
Proof.
  intros H. unfold reconnect.
  pose proof (oneHeartbeat_setTimer Reconnect 1000 st ltac:(discriminate) H) as H1.
  revert H1. unfold setTimer. simpl. apply oneHeartbeat_same; reflexivity.
Qed.

(** [stopSentHeartBeat] leaves no heartbeat interval behind. *)
Lemma stopSentHeartBeat_none (st : State) :
  oneHeartbeat st ->
  let st' := stopSentHeartBeat st in
  nextTimer st' = nextTimer st
  /\ heartbeatSendingInterval st' = None
  /\ forall t tm, timers st' !! t = Some tm -> task tm <> Heartbeat.
Proof.
  intros (A & B & C). unfold stopSentHeartBeat.
  destruct (heartbeatSendingInterval st) as [[|hb]|] eqn:Hhb; simpl.
  - specialize (B 0 eq_refl). lia.
  - repeat split. intros t tm Ht Htask. apply lookup_delete_Some in Ht as [Hne Ht].
    specialize (C t tm Ht Htask). congruence.
  - repeat split; [exact Hhb|]. intros t tm Ht Htask. specialize (C t tm Ht Htask). discriminate.
Qed.

Lemma oneHeartbeat_stopSentHeartBeat (st : State) :
  oneHeartbeat st -> oneHeartbeat (stopSentHeartBeat st).
Proof.
  intros H. destruct (stopSentHeartBeat_none st H) as (E1 & E2 & E3).
  destruct H as (A & _). repeat split.
  - rewrite E1. exact A.
  - rewrite E2. discriminate.
  - intros t tm Ht Htask. destruct (E3 t tm Ht Htask).
Qed.

Lemma oneHeartbeat_startSendHeartBeat (st : State) :
  oneHeartbeat st -> oneHeartbeat (startSendHeartBeat st).
Proof.
  intros H. destruct (stopSentHeartBeat_none st H) as (E1 & E2 & E3).
  destruct H as (A & _). unfold startSendHeartBeat, setTimer. simpl.
  repeat split; simpl.
  - lia.
  - intros hb [= <-]. rewrite E1. exact A.
  - intros t tm Ht Htask. destruct (decide (t = nextTimer (stopSentHeartBeat st))) as [->|Hne].
    + reflexivity.
    + rewrite lookup_insert_ne in Ht by congruence. destruct (E3 t tm Ht Htask).
Qed.

Lemma oneHeartbeat_disconnect (st : State) : oneHeartbeat st -> oneHeartbeat (disconnect st).
Proof.
  intros H. unfold disconnect. destruct (socket st) as [ws|]; [|exact H].
  apply oneHeartbeat_stopSentHeartBeat in H.
  match goal with |- oneHeartbeat ?s => apply (oneHeartbeat_key (stopSentHeartBeat st) s) end;
    [|exact H].
  destruct (readyState ws _) as [[]|]; rewrite ?socket_close_key, ?log_logs; reflexivity.
Qed.

Lemma oneHeartbeat_connect (st : State) : oneHeartbeat st -> oneHeartbeat (connect st).
Proof.
  intros H. unfold connect.
  apply (oneHeartbeat_clearTimer (reconnectTimeout st)) in H.
  destruct (socket (clearTimer (reconnectTimeout st) st)); [exact H|].
  destruct (WebSocket_new _).
  - eapply oneHeartbeat_key; [|exact H]. rewrite log_logs. reflexivity.
  - apply oneHeartbeat_reconnect. eapply oneHeartbeat_key; [|exact H].
    unfold write_log. rewrite log_logs. reflexivity.
Qed.

Lemma oneHeartbeat_onConnect (st : State) : oneHeartbeat st -> oneHeartbeat (onConnect st).
Proof.
  intros H. rewrite onConnect_stages.
  apply (oneHeartbeat_key (startSendHeartBeat (flushed st))); [reflexivity|].
  apply oneHeartbeat_startSendHeartBeat. unfold flushed.
  eapply oneHeartbeat_key; [apply same_tables_key, sendAll_same_tables|].
  apply (oneHeartbeat_key (replayed st)); [reflexivity|]. unfold replayed.
  eapply oneHeartbeat_key; [apply same_tables_key, sendAll_same_tables|]. exact H.
Qed.

Lemma heartbeatTick_key (st : State) : key (heartbeatTick st) = key st.
Proof.
  unfold heartbeatTick.
  assert (H : key (if connected st then sendEvent (JObj [("type", JStr "heartbeat")]) false st
                   else st) = key st).
  { destruct (connected st); [|reflexivity]. apply same_tables_key, sendEvent_same_tables. }
  revert H. generalize (if connected st then sendEvent (JObj [("type", JStr "heartbeat")]) false st
                        else st).
  intros s H. destruct (isHeartbeatTimeout s); [|exact H].
  rewrite log_logs. simpl. destruct (socket s); [rewrite socket_close_key|]; exact H.
Qed.

Lemma oneHeartbeat_receiveMessage (data : string) (st : State) :
  oneHeartbeat st -> oneHeartbeat (receiveMessage data st).
Proof.
  intros H. unfold receiveMessage. destruct (JSON_parse data) as [ev|]; [|exact H].
  destruct (negb (truthy (Some ev))).
  { revert H. apply oneHeartbeat_same; reflexivity. }
  destruct (truthy (prop ev "requestId")).
  - destruct (getResultHandler ev st) as [[rid h]|] eqn:Hget.
    + rewrite (processResponse_known _ _ _ _ Hget). unfold invokeResultHandler.
      destruct (negb (stateIsOK ev)); [apply oneHeartbeat_reject | apply oneHeartbeat_resolve].
      all: revert H; apply oneHeartbeat_same; rewrite log_logs; reflexivity.
    + rewrite (processResponse_unknown _ _ Hget). revert H. apply oneHeartbeat_same; reflexivity.
  - destruct (getEventHandler ev st) as [[|h]|]; try exact H.
    all: revert H; apply oneHeartbeat_same; reflexivity.
Qed.

Lemma oneHeartbeat_fireTimer (t : nat) (st : State) :
  oneHeartbeat st -> oneHeartbeat (fireTimer t st).
Proof.
  intros H. unfold fireTimer. destruct (timers st !! t) as [tm|]; [|exact H].
  destruct (task tm) as [rid p| |].
  - unfold responseTimeout.
    destruct (eventResultHandlers (clearTimer t st) !! rid);
      [apply oneHeartbeat_reject|]; apply (oneHeartbeat_clearTimer t) in H; [|exact H].
    revert H. apply oneHeartbeat_same; reflexivity.
  - apply oneHeartbeat_connect, oneHeartbeat_disconnect, oneHeartbeat_clearTimer, H.
  - eapply oneHeartbeat_key; [apply heartbeatTick_key | exact H].
Qed.

Lemma oneHeartbeat_step (i : Input) (st : State) : oneHeartbeat st -> oneHeartbeat (step i st).
Proof.
  intros H. destruct i as [ws|ws data|ws|ws|t|to]; simpl.
  - destruct (readyState ws st); [|exact H].
    apply oneHeartbeat_onConnect. revert H. apply oneHeartbeat_same; rewrite log_logs; reflexivity.
  - destruct (readyState ws st); [|exact H]. apply oneHeartbeat_receiveMessage, H.
  - destruct (readyState ws st); [|exact H]. unfold onDisconnect.
    destruct (negb _).
    + revert H. apply oneHeartbeat_same; reflexivity.
    + apply oneHeartbeat_reconnect. revert H.
      apply oneHeartbeat_same; rewrite log_logs; reflexivity.
  - destruct (readyState ws st); [|exact H]. apply oneHeartbeat_reconnect. revert H.
    apply oneHeartbeat_same; rewrite log_logs; reflexivity.
  - apply oneHeartbeat_fireTimer, H.
  - revert H. apply oneHeartbeat_same; reflexivity.
Qed.

Lemma oneHeartbeat_call (c : Call) (st : State) : oneHeartbeat st -> oneHeartbeat (call c st).
Proof.
  intros H. destruct c as [message b|rid req b|type h|responseType c]; simpl.
  - eapply oneHeartbeat_key; [apply same_tables_key, sendEvent_same_tables | exact H].
  - unfold sendEventWithResponse.
    pose proof (oneHeartbeat_setTimer (ResponseTimeout rid (nextPromise st)) 60000
                  (set_eventResultHandlers
                     (<[rid := {| rh_promise := nextPromise st |}]> (eventResultHandlers st))
                     (set_nextPromise (S (nextPromise st)) st)) ltac:(discriminate)) as H1.
    specialize (H1 ltac:(revert H; apply oneHeartbeat_same; reflexivity)).
    unfold setTimer in *. simpl in *.
    match goal with |- context [sendEvent req b ?s3] =>
      pose proof (oneHeartbeat_key s3 (sendEvent req b s3)
                    (same_tables_key _ _ (sendEvent_same_tables req b s3)) H1) as H2
    end.
    revert H2. apply oneHeartbeat_same; reflexivity.
  - revert H. apply oneHeartbeat_same; reflexivity.
  - destruct c; simpl; unfold subscribeToEvent, subscribeToLiveEvent.
    all: eapply oneHeartbeat_key; [apply same_tables_key, sendEvent_same_tables|].
    all: revert H; apply oneHeartbeat_same; reflexivity.
Qed.

Lemma oneHeartbeat_turns (l : list Turn) (st : State) :
  oneHeartbeat st -> oneHeartbeat (turns l st).
Proof.
  unfold turns. revert st. induction l as [|tn rest IH]; intros st H; simpl; [exact H|].
  apply IH. destruct tn as [i|c]; simpl; [apply oneHeartbeat_step | apply oneHeartbeat_call];
    exact H.
Qed.

Lemma oneHeartbeat_new (hostname : string) (apiKey : option string) (enabled : bool) (time : Z) :
  oneHeartbeat (new hostname apiKey enabled time).
Proof.
  unfold new. apply oneHeartbeat_connect. unfold fresh, oneHeartbeat. simpl.
  repeat split; [lia | discriminate |]. intros t tm Ht. rewrite lookup_empty in Ht. discriminate.
Qed.

(** X3.  In every state a client can reach from its construction, by
    host events and calls of its public methods in any order, at most one
    heartbeat interval is armed, and it is the one whose handle
    [heartbeatSendingInterval] holds: reconnecting never leaves an
    interval behind that the class can no longer clear. *)
Theorem at_most_one_heartbeat_interval_is_armed :
  forall (hostname : string) (apiKey : option string) (enabled : bool) (time : Z)
         (l : list Turn) (t1 t2 : nat) (tm1 tm2 : Timer),
    let st := turns l (new hostname apiKey enabled time) in
    timers st !! t1 = Some tm1 -> task tm1 = Heartbeat ->
    timers st !! t2 = Some tm2 -> task tm2 = Heartbeat ->
    t1 = t2 /\ heartbeatSendingInterval st = Some t1.
Proof.
  intros h k e time l t1 t2 tm1 tm2 st H1 K1 H2 K2.
  destruct (oneHeartbeat_turns l _ (oneHeartbeat_new h k e time)) as (_ & _ & C).
  fold st in C. pose proof (C t1 tm1 H1 K1) as E1. pose proof (C t2 tm2 H2 K2) as E2.
  split; [congruence | exact E1].
Qed.

(** *** Reconnecting while the host refuses to create a socket *)

Lemma retry_once (st : State) :
  socket st = None ->
  WebSocket_new (getWsUrl (hostname st) (apiKey st)) = false ->
  timers st = {[ reconnectTimeout st := {| task := Reconnect; delay := 1000 |} ]} ->
  let st' := step (TimerFires (reconnectTimeout st)) st in
  socket st' = None /\ sockets st' = sockets st
  /\ hostname st' = hostname st /\ apiKey st' = apiKey st
  /\ reconnectTimeout st' = nextTimer st /\ nextTimer st' = S (nextTimer st)
  /\ timers st' = {[ nextTimer st := {| task := Reconnect; delay := 1000 |} ]}.
Proof.
  intros Hs Hnew Ht. simpl. unfold fireTimer. rewrite Ht, lookup_singleton_eq. simpl.
  unfold disconnect. simpl. rewrite Hs. unfold connect. simpl. rewrite Hs.
  match goal with |- context [WebSocket_new ?u] =>
    change (WebSocket_new u) with (WebSocket_new (getWsUrl (hostname st) (apiKey st)))
  end.
  rewrite Hnew. unfold reconnect, setTimer, write_log. rewrite !log_logs. simpl.
  rewrite Ht, delete_singleton_eq, delete_empty, insert_empty.
  repeat split; try reflexivity. exact Hs.
Qed.

Lemma retries_invariant (hostname : string) (apiKey : option string) (enabled : bool) (time : Z)
    (n : nat) :
  WebSocket_new (getWsUrl hostname apiKey) = false ->
  let st := retries n (new hostname apiKey enabled time) in
  socket st = None /\ sockets st = ∅
  /\ WebSocketCommunication.hostname st = hostname /\ WebSocketCommunication.apiKey st = apiKey
  /\ reconnectTimeout st = S n /\ nextTimer st = S (S n)
  /\ timers st = {[ S n := {| task := Reconnect; delay := 1000 |} ]}.
Proof.
  intros Hnew. induction n as [|n IH].
  - unfold retries, new, connect, fresh. simpl. rewrite Hnew.
    unfold reconnect, setTimer, write_log. rewrite !log_logs. simpl.
    rewrite delete_empty, insert_empty. repeat split; reflexivity.
  - cbv zeta in *. unfold retries in *. rewrite Nat.iter_succ.
    set (s := Nat.iter n _ _) in *. cbv beta.
    destruct IH as (A & B & C & D & E & F & G).
    destruct (retry_once s) as (A' & B' & C' & D' & E' & F' & G').
    + exact A.
    + rewrite C, D. exact Hnew.
    + rewrite E. exact G.
    + rewrite A', B', C', D', E', F', G', B, C, D, F. repeat split; reflexivity.
Qed.

(** X4.  While [new WebSocket(url)] throws, the constructor and every
    firing of the reconnect timer arm exactly one new reconnect timer of
    1000 ms and leave nothing else behind: after any number of attempts
    the client owns no socket, none was created, and the only timer
    armed is the next attempt.  The attempts never stop and never pile
    up. *)
Theorem failing_connect_is_retried_every_second_without_leftover :
  forall (hostname : string) (apiKey : option string) (enabled : bool) (time : Z) (n : nat),
    WebSocket_new (getWsUrl hostname apiKey) = false ->
    let st := retries n (new hostname apiKey enabled time) in
    socket st = None
    /\ sockets st = ∅
    /\ reconnectTimeout st = S n
    /\ timers st = {[ S n := {| task := Reconnect; delay := 1000 |} ]}.
Proof.
  intros h k e time n Hnew st.
  destruct (retries_invariant h k e time n Hnew) as (A & B & _ & _ & E & _ & G).
  repeat split; assumption.
Qed.

(** *** Heartbeat frames *)

Lemma receiveMessage_event (data : string) (ev : JsValue) (type : string) (st : State) :
  JSON_parse data = Some ev ->
  prop ev "type" = Some (JStr type) ->
  truthy (prop ev "requestId") = false ->
  receiveMessage data st =
    match eventHandlers st !! type with
    | Some action => invokeEventHandler action ev st
    | None => st
    end.
Proof.
  intros Hparse Htype Hrid. unfold receiveMessage. rewrite Hparse.
  assert (Hobj : truthy (Some ev) = true).
  { destruct ev; simpl in Htype; try discriminate. reflexivity. }
  rewrite Hobj, Hrid. simpl. unfold getEventHandler. rewrite Htype. reflexivity.
Qed.

(** X5.  While the handler that [onConnect] registers is in place, a
    frame of type [heartbeat] records the time of its arrival and changes
    nothing else.  A heartbeat tick that runs no later than the timeout
    after that arrival closes nothing; one that runs later closes the
    owned socket with the reason "Missing heartbeat". *)
Theorem inbound_heartbeat_postpones_the_forced_close :
  forall (st : State) (data : string) (msgEvent : JsValue) (time : Z),
    heartbeatFrame data msgEvent ->
    eventHandlers st !! "heartbeat" = Some HeartbeatHandler ->
    let st1 := receiveMessage data st in
    let tick := heartbeatTick (set_clock time st1) in
    st1 = set_lastIncomeHeartbeat (Some (clock st)) st
    /\ ((time - clock st <= WS_MISSING_HEARTBEAT_TIMEOUT_MS)%Z ->
        closed tick = closed st /\ sockets tick = sockets st)
    /\ ((time - clock st > WS_MISSING_HEARTBEAT_TIMEOUT_MS)%Z ->
        forall ws, socket st = Some ws ->
                   closed tick = closed st ++ [(ws, Some "Missing heartbeat")]).
Proof.
  intros st data ev time (Hparse & Htype & Hrid) Hh st1 tick.
  assert (E1 : st1 = set_lastIncomeHeartbeat (Some (clock st)) st).
  { subst st1. rewrite (receiveMessage_event _ _ _ _ Hparse Htype Hrid), Hh. reflexivity. }
  split; [exact E1|]. subst tick. rewrite E1. unfold heartbeatTick.
  set (s0 := set_clock time (set_lastIncomeHeartbeat (Some (clock st)) st)).
  assert (H : same_tables s0
                (if connected s0 then sendEvent (JObj [("type", JStr "heartbeat")]) false s0
                 else s0)).
  { destruct (connected s0); [apply sendEvent_same_tables | apply same_tables_refl]. }
  revert H. generalize (if connected s0 then sendEvent (JObj [("type", JStr "heartbeat")]) false s0
                        else s0).
  intros s1 (_ & _ & _ & _ & _ & _ & Hsock & Hsocks & _ & Hlast & Hclock & _ & Hclosed & _).
  unfold isHeartbeatTimeout. rewrite Hlast, Hclock. simpl. split.
  - intros Hle. destruct (Z.gtb_spec (time - clock st) WS_MISSING_HEARTBEAT_TIMEOUT_MS); [lia|].
    rewrite Hclosed, Hsocks. split; reflexivity.
  - intros Hgt ws Hws.
    destruct (Z.gtb_spec (time - clock st) WS_MISSING_HEARTBEAT_TIMEOUT_MS); [|lia].
    rewrite log_logs. simpl. rewrite Hsock. simpl. rewrite Hws. unfold socket_close.
    destruct (readyState ws _) as [[]|]; simpl; rewrite Hclosed; reflexivity.
Qed.

Lemma deliver_to_client_handler (h : nat) (frames : list (string * JsValue)) (st : State) :
  Forall (fun f => heartbeatFrame f.1 f.2) frames ->
  eventHandlers st !! "heartbeat" = Some (ClientHandler h) ->
  let st' := deliver (map fst frames) st in
  lastIncomeHeartbeat st' = lastIncomeHeartbeat st
  /\ dispatched st' = dispatched st ++ map (fun f => (h, f.2)) frames
  /\ eventHandlers st' = eventHandlers st.
Proof.
  unfold deliver. revert st. induction frames as [|[data ev] rest IH]; intros st Hall Hh; simpl.
  - rewrite app_nil_r. auto.
  - apply Forall_cons in Hall as ((Hparse & Htype & Hrid) & Hrest). simpl in *.
    rewrite (receiveMessage_event _ _ _ _ Hparse Htype Hrid), Hh.
    destruct (IH (invokeEventHandler (ClientHandler h) ev st) Hrest Hh) as (E1 & E2 & E3).
    rewrite E1, E2, E3. simpl. rewrite <- app_assoc. auto.
Qed.

(** X6.  The handler of type [heartbeat] lives in the same table as the
    client's handlers.  A client that registers its own handler under
    that type replaces it: heartbeat frames are then handed to the
    client's handler and no longer record their arrival, however many
    arrive, so the time of the last heartbeat stays where it was.  The
    next [onConnect] puts the stamping handler back. *)
Theorem client_handler_for_heartbeat_replaces_the_liveness_stamp :
  forall (st : State) (h : nat) (frames : list (string * JsValue)),
    Forall (fun f => heartbeatFrame f.1 f.2) frames ->
    let st1 := addEventHandler "heartbeat" (ClientHandler h) st in
    let st2 := deliver (map fst frames) st1 in
    lastIncomeHeartbeat st2 = lastIncomeHeartbeat st
    /\ dispatched st2 = dispatched st ++ map (fun f => (h, f.2)) frames
    /\ eventHandlers (onConnect st2) !! "heartbeat" = Some HeartbeatHandler.
Proof.
  intros st h frames Hall st1 st2.
  destruct (deliver_to_client_handler h frames st1 Hall) as (E1 & E2 & _).
  { apply lookup_insert_eq. }
  fold st2 in E1, E2. split; [exact E1|]. split; [exact E2|].
  rewrite onConnect_stages. apply lookup_insert_eq.
Qed.

(** *** A request made while the socket is not open *)

Lemma sendEventWithResponse_awaiting (rid : string) (req : JsValue) (b : bool) (st : State) :
  awaiting rid (nextPromise st) (nextTimer st) (snd (sendEventWithResponse rid req b st)).
Proof.
  unfold sendEventWithResponse, setTimer. simpl.
  match goal with |- context [sendEvent req b ?s3] =>
    destruct (sendEvent_same_tables req b s3) as (Ht & _ & _ & _ & Hh & _);
    generalize dependent (sendEvent req b s3)
  end.
  intros s4 Ht Hh. simpl in *. split; [|split]; simpl.
  - rewrite Ht. apply lookup_insert_eq.
  - rewrite Hh. apply lookup_insert_eq.
  - apply lookup_insert_eq.
Qed.

Lemma timeout_fires_while_awaiting (rid : string) (p t : nat) (st : State) :
  awaiting rid p t st ->
  step (TimerFires t) st =
    set_promises (<[p := Rejected (Some (JStr "Response was not obtained in 60s"))]> (promises st))
      (set_eventResultHandlers (delete rid (eventResultHandlers st)) (clearTimer t st)).
Proof.
  intros (Ht & Hh & Hp). simpl. unfold fireTimer. rewrite Ht. simpl.
  unfold responseTimeout. simpl. rewrite Hh. unfold reject. simpl. rewrite Hp. reflexivity.
Qed.

Lemma open_eventResultHandlers (ws : nat) (st : State) :
  eventResultHandlers (step (SocketOpen ws) st) = eventResultHandlers st.
Proof.
  simpl. destruct (readyState ws st); [|reflexivity]. rewrite onConnect_stages.
  match goal with |- context [flushed ?s] =>
    assert (H : eventResultHandlers (flushed s) = eventResultHandlers st)
  end.
  { unfold flushed.
    match goal with |- eventResultHandlers (sendAll false ?m ?s) = _ =>
      destruct (sendAll_same_tables false m s) as (_ & _ & _ & _ & -> & _) end.
    simpl. unfold replayed.
    match goal with |- eventResultHandlers (sendAll true ?m ?s) = _ =>
      destruct (sendAll_same_tables true m s) as (_ & _ & _ & _ & -> & _) end.
    rewrite log_logs. reflexivity. }
  revert H. generalize (flushed (log LogConnected (set_sockets (<[ws:=OPEN]> (sockets st)) st))).
  intros s H. unfold startSendHeartBeat, stopSentHeartBeat, setTimer, clearTimer.
  destruct (heartbeatSendingInterval s) as [[|hb]|]; simpl; exact H.
Qed.

Lemma sendEventWithResponse_not_open (rid : string) (req : JsValue) (st : State) :
  connected st = false ->
  let st1 := snd (sendEventWithResponse rid req false st) in
  sent st1 = sent st
  /\ disconnectEventBuffer st1 = disconnectEventBuffer st ++ [JSON_stringify req]
  /\ subscriptionEvents st1 = subscriptionEvents st
  /\ socket st1 = socket st /\ sockets st1 = sockets st.
Proof.
  intros Hc. unfold sendEventWithResponse, setTimer, sendEvent. simpl.
  match goal with |- context [sendMessageToSocket ?j false ?s] =>
    destruct (sendMessageToSocket_not_open j false s Hc) as (F1 & F2 & F3);
    destruct (sendMessageToSocket_same_tables j false s)
      as (_ & _ & _ & _ & _ & _ & F4 & F5 & _);
    generalize dependent (sendMessageToSocket j false s)
  end.
  intros s4 F1 F2 F3 F4 F5. simpl in *. auto.
Qed.

Lemma timed_out_then_open (rid : string) (p t ws : nat) (st1 : State) :
  awaiting rid p t st1 ->
  socket st1 = Some ws ->
  is_Some (readyState ws st1) ->
  let st2 := step (TimerFires t) st1 in
  let st3 := step (SocketOpen ws) st2 in
  promises st2 !! p = Some (Rejected (Some (JStr "Response was not obtained in 60s")))
  /\ disconnectEventBuffer st2 = disconnectEventBuffer st1
  /\ sent st3 = sent st1 ++ map (pair ws) (subscriptionEvents st1)
                         ++ map (pair ws) (disconnectEventBuffer st1)
  /\ eventResultHandlers st3 !! rid = None.
Proof.
  intros Ha Hs Hr. cbv zeta. rewrite (timeout_fires_while_awaiting rid p t st1 Ha).
  match goal with |- context [step (SocketOpen ws) ?s] => set (st2 := s) end.
  split; [apply lookup_insert_eq|]. split; [reflexivity|].
  destruct (open_owned_traffic st2 ws Hs Hr) as (G1 & _). split; [exact G1|].
  rewrite open_eventResultHandlers. apply lookup_delete_eq.
Qed.

(** X7.  A request with response made while the socket is not open is
    put on the disconnect buffer, and its 60 s timer runs from the call.
    If the timer comes due before the socket opens, the promise is
    rejected with the timeout message, but the request stays on the
    buffer: when the socket opens it is written to it after all, behind
    the registry replay and the older buffered messages, and by then no
    handler is registered for its response. *)
Theorem request_timed_out_while_disconnected_is_still_sent_on_connect :
  forall (st : State) (requestId : string) (requestEvent : JsValue) (ws : nat),
    connected st = false ->
    socket st = Some ws ->
    is_Some (readyState ws st) ->
    let call := sendEventWithResponse requestId requestEvent false st in
    let st1 := snd call in
    let st2 := step (TimerFires (nextTimer st)) st1 in
    let st3 := step (SocketOpen ws) st2 in
    sent st1 = sent st
    /\ disconnectEventBuffer st1 = disconnectEventBuffer st ++ [JSON_stringify requestEvent]
    /\ promises st2 !! fst call = Some (Rejected (Some (JStr "Response was not obtained in 60s")))
    /\ disconnectEventBuffer st2 = disconnectEventBuffer st1
    /\ sent st3 = sent st ++ map (pair ws) (subscriptionEvents st)
                          ++ map (pair ws) (disconnectEventBuffer st ++ [JSON_stringify requestEvent])
    /\ eventResultHandlers st3 !! requestId = None.
Proof.
  intros st rid req ws Hc Hs Hr.
  pose proof (sendEventWithResponse_awaiting rid req false st) as Ha.
  destruct (sendEventWithResponse_not_open rid req st Hc) as (F1 & F2 & F3 & F4 & F5).
  assert (Hp : fst (sendEventWithResponse rid req false st) = nextPromise st) by reflexivity.
  cbv zeta in *. rewrite Hp.
  generalize dependent (snd (sendEventWithResponse rid req false st)).
  intros st1 Ha F1 F2 F3 F4 F5.
  destruct (timed_out_then_open rid (nextPromise st) (nextTimer st) ws st1 Ha) as (A & B & C & D).
  { congruence. }
  { unfold readyState in *. rewrite F5. exact Hr. }
  cbv zeta in *. rewrite F1, F2, F3 in C. auto 8.
Qed.

End Transport.

(** ** A request with response that is also a subscription *)

Section Replay.

Import WebSocketCommunication.

Context {platform : Platform}.

Lemma connect_eventResultHandlers (st : State) :
  eventResultHandlers (connect st) = eventResultHandlers st.
Proof.
  unfold connect, reconnect, setTimer, write_log, clearTimer. simpl.
  destruct (socket st); [reflexivity|]. destruct (WebSocket_new _); rewrite !log_logs; reflexivity.
Qed.

Lemma disconnect_eventResultHandlers (st : State) :
  eventResultHandlers (disconnect st) = eventResultHandlers st.
Proof.
  unfold disconnect. destruct (socket st) as [ws|]; [|reflexivity].
  assert (H : eventResultHandlers (stopSentHeartBeat st) = eventResultHandlers st).
  { unfold stopSentHeartBeat. destruct (heartbeatSendingInterval st) as [[|hb]|]; reflexivity. }
  revert H. generalize (stopSentHeartBeat st). intros s H.
  destruct (readyState ws _) as [[]|]; simpl; try exact H.
  all: unfold socket_close; rewrite log_logs; simpl.
  all: destruct (readyState ws _) as [[]|]; simpl; exact H.
Qed.

(** No host event registers a result handler. *)
Lemma step_no_handler (requestId : string) (i : Input) (st : State) :
  eventResultHandlers st !! requestId = None ->
  eventResultHandlers (step i st) !! requestId = None.
Proof.
  intros Hnone. destruct i as [ws|ws data|ws|ws|t|to].
  - rewrite open_eventResultHandlers. exact Hnone.
  - simpl. destruct (readyState ws st); [|exact Hnone]. unfold receiveMessage.
    destruct (JSON_parse data) as [ev|]; [|exact Hnone].
    destruct (negb (truthy (Some ev))); [exact Hnone|].
    destruct (truthy (prop ev "requestId")).
    + destruct (getResultHandler ev st) as [[rid h]|] eqn:Hget.
      * rewrite (processResponse_known _ _ _ _ Hget), invokeResultHandler_eventResultHandlers,
          log_logs. simpl. apply lookup_delete_None. right. exact Hnone.
      * rewrite (processResponse_unknown _ _ Hget). exact Hnone.
    + destruct (getEventHandler ev st) as [[|h]|]; exact Hnone.
  - simpl. destruct (readyState ws st); [|exact Hnone]. unfold onDisconnect.
    destruct (negb _); [exact Hnone|]. unfold reconnect, setTimer. rewrite log_logs. exact Hnone.
  - simpl. destruct (readyState ws st); [|exact Hnone].
    unfold reconnect, setTimer. rewrite log_logs. exact Hnone.
  - simpl. unfold fireTimer. destruct (timers st !! t) as [tm|]; [|exact Hnone].
    destruct (task tm) as [rid p| |].
    + unfold responseTimeout. simpl. destruct (eventResultHandlers st !! rid); [|exact Hnone].
      rewrite reject_eventResultHandlers. simpl. apply lookup_delete_None. right. exact Hnone.
    + rewrite connect_eventResultHandlers, disconnect_eventResultHandlers. exact Hnone.
    + pose proof (heartbeatTick_key st) as Hk. unfold key in Hk.
      injection Hk as _ _ _ _ -> _ _. exact Hnone.
  - exact Hnone.
Qed.

Lemma turns_no_handler (requestId : string) (l : list Turn) (st : State) :
  Forall (fun tn => ~ reuses requestId tn) l ->
  eventResultHandlers st !! requestId = None ->
  eventResultHandlers (turns l st) !! requestId = None.
Proof.
  unfold turns. revert st. induction l as [|tn rest IH]; intros st Hall Hnone; simpl.
  - exact Hnone.
  - apply Forall_cons in Hall as (Hnot & Hrest). apply IH; [exact Hrest|].
    destruct tn as [i|c]; simpl; [apply step_no_handler; exact Hnone|].
    destruct c as [message b|rid req b|type h|responseType c]; simpl.
    + destruct (sendEvent_same_tables message b st) as (_ & _ & _ & _ & -> & _). exact Hnone.
    + unfold sendEventWithResponse, setTimer. simpl.
      match goal with |- context [sendEvent req b ?s] =>
        destruct (sendEvent_same_tables req b s) as (_ & _ & _ & _ & -> & _) end.
      simpl. rewrite lookup_insert_ne; [exact Hnone|]. exact Hnot.
    + exact Hnone.
    + destruct c; simpl; unfold subscribeToEvent, subscribeToLiveEvent.
      all: match goal with |- context [sendEvent ?m true ?s] =>
             destruct (sendEvent_same_tables m true s) as (_ & _ & _ & _ & -> & _) end.
      all: exact Hnone.
Qed.

Lemma sendEventWithResponse_registry (rid : string) (req : JsValue) (st : State) :
  subscriptionEvents (snd (sendEventWithResponse rid req true st))
  = subscriptionEvents st ++ [JSON_stringify req].
Proof.
  unfold sendEventWithResponse.
  destruct (setTimer _ _ _) as [timeout st3] eqn:E. cbn [snd].
  change (subscriptionEvents (sendEvent req true st3) = subscriptionEvents st ++ [JSON_stringify req]).
  rewrite sendEvent_subscriptionEvents. unfold setTimer in E. injection E as _ <-. reflexivity.
Qed.

(** X22.  The request with which [IOControlStates.init()] asks for the
    pin states is sent as a subscription, so its text stays in the
    subscription registry.  The first response settles the promise of
    [init()] and uses up the handler.  Whatever happens afterwards, short
    of a new request under the same identifier, every opening of the
    owned socket writes the request again, with the same identifier, and
    the response to such a replay finds no handler: it changes nothing
    but the log, and the promise stays as the first response left it. *)
Theorem subscription_request_is_replayed_and_the_replay_response_dropped :
  forall (io : IOControlStates.State) (st : State) (requestId : string) (f : Response)
         (l : list Turn) (ws : nat),
    IOControlStates.initialized io = false ->
    answers f ->
    frameRequestId f = requestId ->
    Forall (fun tn => ~ reuses requestId tn) l ->
    let request := JSON_stringify (IOControlStates.initRequest requestId) in
    let call := IOControlStates.init requestId io st in
    let st1 := receiveMessage (frameData f) (snd call) in
    let st2 := turns l st1 in
    let st3 := step (SocketOpen ws) st2 in
    let st4 := receiveMessage (frameData f) st3 in
    socket st2 = Some ws ->
    is_Some (readyState ws st2) ->
    fst call = Some (nextPromise st)
    /\ promises st1 !! nextPromise st = Some (settlement (frameEvent f))
    /\ (exists before after,
          sent st3 = sent st2 ++ map (pair ws) (before ++ request :: after)
                              ++ map (pair ws) (disconnectEventBuffer st2))
    /\ st4 = set_logs (logs st3
                       ++ logged (LogProcessResponse (prop (frameEvent f) "requestId")) st3
                       ++ logged LogNoListener st3) st3
    /\ promises st4 = promises st3.
Proof.
  intros io st rid f l ws Hinit Hf Hrid Hall.
  assert (Ecall : IOControlStates.init rid io st
                  = (Some (nextPromise st),
                     snd (sendEventWithResponse rid (IOControlStates.initRequest rid) true st))).
  { unfold IOControlStates.init. rewrite Hinit.
    destruct (sendEventWithResponse _ _ _ _) as [p s] eqn:E.
    assert (Hp : p = nextPromise st) by (apply (f_equal fst) in E; simpl in E; congruence).
    subst p. reflexivity. }
  pose proof (sendEventWithResponse_awaiting rid (IOControlStates.initRequest rid) true st) as Ha.
  pose proof (sendEventWithResponse_registry rid (IOControlStates.initRequest rid) st) as Hreg.
  cbv zeta. rewrite Ecall. cbn [fst snd]. clear Ecall.
  generalize dependent (snd (sendEventWithResponse rid (IOControlStates.initRequest rid) true st)).
  intros s1 Ha Hreg. subst rid.
  set (request := JSON_stringify (IOControlStates.initRequest (frameRequestId f))) in *.
  set (st2 := turns l (receiveMessage (frameData f) s1)).
  set (st3 := step (SocketOpen ws) st2).
  set (st4 := receiveMessage (frameData f) st3).
  intros Hs Hr.
  pose proof (receiveMessage_answer f _ _ s1 Hf Ha) as E1.
  assert (Hp1 : promises (receiveMessage (frameData f) s1) !! nextPromise st
                = Some (settlement (frameEvent f))).
  { rewrite E1. apply invokeResultHandler_settles with (h := {| rh_promise := nextPromise st |})
                                                       (t := nextTimer st).
    simpl. rewrite log_logs. destruct Ha as (_ & _ & Hp). exact Hp. }
  assert (Hh1 : eventResultHandlers (receiveMessage (frameData f) s1) !! frameRequestId f = None).
  { rewrite E1, invokeResultHandler_eventResultHandlers, log_logs. simpl.
    apply lookup_delete_eq. }
  assert (Hreg1 : subscriptionEvents (receiveMessage (frameData f) s1)
                  = subscriptionEvents st ++ [request]).
  { rewrite receiveMessage_subscriptionEvents. exact Hreg. }
  pose proof (turns_no_handler _ l _ Hall Hh1) as Hh2. fold st2 in Hh2.
  destruct (turns_subscriptionEvents l (receiveMessage (frameData f) s1)) as (later & Hreg2).
  fold st2 in Hreg2. rewrite Hreg1 in Hreg2.
  destruct (open_owned_traffic st2 ws Hs Hr) as (G1 & _). fold st3 in G1.
  assert (Hh3 : eventResultHandlers st3 !! frameRequestId f = None).
  { subst st3. rewrite open_eventResultHandlers. exact Hh2. }
  assert (E4 : st4 = set_logs (logs st3
                       ++ logged (LogProcessResponse (prop (frameEvent f) "requestId")) st3
                       ++ logged LogNoListener st3) st3).
  { subst st4. destruct Hf as (Hparse & Hprop & Hne).
    rewrite (receiveMessage_response _ _ _ Hparse (answers_truthy f (conj Hparse (conj Hprop Hne)))).
    apply processResponse_unknown. unfold getResultHandler. rewrite Hprop, Hh3. reflexivity. }
  split; [reflexivity|]. split; [exact Hp1|]. split; [|split; [exact E4|]].
  - exists (subscriptionEvents st), later. rewrite G1, Hreg2, <- app_assoc. reflexivity.
  - rewrite E4. reflexivity.
Qed.

End Replay.

(** ** Properties of RetryUtil *)

Section Retry.

Import RetryUtil.

Context {T E : Type}.

Implicit Types (process : list (Attempt T E)) (errors : list E).

Lemma runAsync_retry process (e : E) (retryCount retryDelayMs : Z) :
  (retryCount < 0 \/ 1 < retryCount)%Z ->
  let retryCount' := (if (retryCount <? 0)%Z then retryCount else retryCount - 1)%Z in
  fst (runAsync (Fails e :: process) retryCount retryDelayMs)
  = fst (runAsync process retryCount' retryDelayMs)
  /\ calls (snd (runAsync (Fails e :: process) retryCount retryDelayMs))
     = S (calls (snd (runAsync process retryCount' retryDelayMs)))
  /\ sleeps (snd (runAsync (Fails e :: process) retryCount retryDelayMs))
     = retryDelayMs :: sleeps (snd (runAsync process retryCount' retryDelayMs)).
Proof.
  intros H. cbv zeta. simpl.
  destruct (Z.gtb_spec retryCount 0), (Z.ltb_spec retryCount 0); try lia.
  - destruct (Z.eqb_spec (retryCount - 1) 0); [lia|].
    destruct (runAsync process (retryCount - 1) retryDelayMs). auto.
  - destruct (Z.eqb_spec retryCount 0); [lia|].
    destruct (runAsync process retryCount retryDelayMs). auto.
Qed.

(** X8.  With a retry count of [n >= 1], [runAsync] gives up at the
    [n]-th failure in a row: it rethrows the error of that attempt, has
    called [process()] exactly [n] times and has slept [retryDelayMs]
    after each of the [n - 1] failures before.  A count of 0 allows one
    attempt, like a count of 1. *)
Theorem runAsync_gives_up_after_retryCount_failures :
  forall errors (last : E) process (retryCount retryDelayMs : Z),
    (0 <= retryCount)%Z ->
    Z.of_nat (length errors) = (Z.max retryCount 1 - 1)%Z ->
    let run := runAsync (map Fails errors ++ Fails last :: process) retryCount retryDelayMs in
    fst run = Throws last
    /\ calls (snd run) = S (length errors)
    /\ sleeps (snd run) = repeat retryDelayMs (length errors).
Proof.
  intros errors. induction errors as [|e errors IH]; intros last process rc d Hrc Hlen run.
  - subst run. simpl in *.
    destruct (Z.gtb_spec rc 0).
    + destruct (Z.eqb_spec (rc - 1) 0); [|lia]. auto.
    + destruct (Z.eqb_spec rc 0); [|lia]. auto.
  - subst run. change (map Fails (e :: errors) ++ Fails last :: process)
      with (Fails e :: (map Fails errors ++ Fails last :: process)).
    simpl length in *.
    destruct (runAsync_retry (map Fails errors ++ Fails last :: process) e rc d ltac:(lia))
      as (E1 & E2 & E3).
    cbv zeta in *. destruct (Z.ltb_spec rc 0); [lia|].
    destruct (IH last process (rc - 1)%Z d ltac:(lia) ltac:(lia)) as (F1 & F2 & F3).
    rewrite E1, E2, E3, F1, F2, F3. auto.
Qed.

(** X9.  [runAsync] returns the value of the first call of [process()]
    that succeeds, provided the failures before it number fewer than the
    retry count, or the count is negative (the default, -1): the calls
    made are those failures and the success, none after it, with one
    sleep of [retryDelayMs] after each failure. *)
Theorem runAsync_returns_the_first_success_within_the_count :
  forall errors (v : T) process (retryCount retryDelayMs : Z),
    (retryCount < 0 \/ Z.of_nat (length errors) < Z.max retryCount 1)%Z ->
    let run := runAsync (map Fails errors ++ Succeeds v :: process) retryCount retryDelayMs in
    fst run = Returns v
    /\ calls (snd run) = S (length errors)
    /\ sleeps (snd run) = repeat retryDelayMs (length errors).
Proof.
  intros errors. induction errors as [|e errors IH]; intros v process rc d Hrc run.
  - subst run. simpl. auto.
  - subst run. change (map Fails (e :: errors) ++ Succeeds v :: process)
      with (Fails e :: (map Fails errors ++ Succeeds v :: process)).
    simpl length in *.
    destruct (runAsync_retry (map Fails errors ++ Succeeds v :: process) e rc d ltac:(lia))
      as (E1 & E2 & E3).
    cbv zeta in *. rewrite E1, E2, E3.
    destruct (Z.ltb_spec rc 0).
    + destruct (IH v process rc d ltac:(lia)) as (F1 & F2 & F3). rewrite F1, F2, F3. auto.
    + destruct (IH v process (rc - 1)%Z d ltac:(lia)) as (F1 & F2 & F3).
      rewrite F1, F2, F3. auto.
Qed.

(** X10.  With a negative retry count, and so with the default count,
    [runAsync] never rejects, however many calls of [process()] fail: it
    returns the value of the first call that succeeds, and until then it
    keeps retrying.  The remote fetch of the design loader is such a
    call. *)
Theorem runAsync_without_limit_never_throws :
  forall process (retryCount retryDelayMs : Z),
    (retryCount < 0)%Z ->
    let result :=
      match firstSuccess process with
      | Some v => Returns v
      | None => Retrying
      end in
    fst (runAsync process retryCount retryDelayMs) = result
    /\ fst (runAsync_default process) = result.
Proof.
  assert (H : forall process (rc d : Z),
             (rc < 0)%Z ->
             fst (runAsync process rc d) = match firstSuccess process with
                                           | Some v => Returns v
                                           | None => Retrying
                                           end).
  { intros process. induction process as [|[e'|v] rest IH]; intros rc d Hrc; simpl.
    - reflexivity.
    - destruct (Z.gtb_spec rc 0); [lia|]. destruct (Z.eqb_spec rc 0); [lia|].
      specialize (IH rc d Hrc). destruct (runAsync rest rc d). exact IH.
    - reflexivity. }
  intros process rc d Hrc result. split; [apply H; exact Hrc | apply H; lia].
Qed.

End Retry.

(** ** Properties of the design getters *)

Section DesignGetters.

Import DesignUtil.

Context (numberToString : Z -> string).

Lemma loadDesign_LOADING (identifier : string) (st : State) :
  state (snd (loadDesign identifier st)) = LOADING.
Proof.
  unfold loadDesign, loadDesignInternal.
  destruct (isLOADING (state st)) eqn:E; simpl; [|reflexivity].
  destruct (negb _); simpl; [|reflexivity].
  rewrite E. simpl. destruct (state st); try discriminate. reflexivity.
Qed.

(** X11.  Every call of [load()] leaves the state at [LOADING], also
    one made when a design was loaded before, and so does a design
    change; a fetch that found no design leaves it at [ERROR].  In all
    these states both getters throw "Design is not available.": the
    design can be read only from the return of a fetch that brought one
    until the next load or design change. *)
Theorem design_is_unavailable_from_load_until_the_fetch_returns :
  forall (st : State) (identifier : string) (id : ComponentRef) (type : string)
         (dspDesign : DspDesign),
    let loading := snd (loadDesign identifier st) in
    let changed := snd (onDesignChangeNotify identifier st) in
    let failed := loadDesignInternal_resume None st in
    let loaded := loadDesignInternal_resume (Some dspDesign) st in
    state loading = LOADING
    /\ state changed = LOADING
    /\ state failed = ERROR
    /\ state loaded = DONE
    /\ getComponentId numberToString id loading = Throw "Design is not available."
    /\ getComponentMetadata numberToString id type loading
       = ([], Throw "Design is not available.")
    /\ getComponentId numberToString id changed = Throw "Design is not available."
    /\ getComponentMetadata numberToString id type changed
       = ([], Throw "Design is not available.")
    /\ getComponentId numberToString id failed = Throw "Design is not available."
    /\ getComponentMetadata numberToString id type failed
       = ([], Throw "Design is not available.")
    /\ getComponentId numberToString id loaded = Return (Some (
         match id with
         | ByNumber n => numberToString n
         | ByName name =>
             match pd_nameToId (partialOf dspDesign) !! name with
             | Some id_number => if (id_number =? 0)%Z then name else numberToString id_number
             | None => name
             end
         end)).
Proof.
  intros st identifier id type dspDesign loading changed failed loaded.
  assert (H1 : state loading = LOADING) by apply loadDesign_LOADING.
  assert (H2 : state changed = LOADING) by apply loadDesign_LOADING.
  split; [exact H1|]. split; [exact H2|]. split; [reflexivity|]. split; [reflexivity|].
  unfold getComponentMetadata, getComponentId. rewrite H1, H2. simpl.
  repeat split; try reflexivity.
  destruct id as [n|name]; [reflexivity|].
  destruct (_ !! name) as [k|]; [|reflexivity].
  destruct (k =? 0)%Z; reflexivity.
Qed.

Lemma resume_loaded (dspDesign : DspDesign) (st : State) :
  state (loadDesignInternal_resume (Some dspDesign) st) = DONE
  /\ partialDesign (loadDesignInternal_resume (Some dspDesign) st) = Some (partialOf dspDesign).
Proof. split; reflexivity. Qed.

Lemma kept_runtime_desired (dspDesign : DspDesign) (key : string) (config : ANpdConfig) :
  pd_runtime (partialOf dspDesign) !! key = Some config <->
  runtime dspDesign !! key = Some config /\ desired (cmpType config) = true.
Proof.
  unfold partialOf. simpl.
  exact (map_lookup_filter_Some (fun entry : string * ANpdConfig => desired (cmpType entry.2) = true)
           (runtime dspDesign) key config).
Qed.

Lemma getComponentId_loaded (id : ComponentRef) (st : State) (design : PartialDesign) :
  state st = DONE -> partialDesign st = Some design ->
  exists componentId, getComponentId numberToString id st = Return (Some componentId).
Proof.
  intros Hst Hpd. unfold getComponentId. rewrite Hst, Hpd. simpl.
  destruct id as [n|name]; [eauto|].
  destruct (pd_nameToId design !! name) as [k|]; [|eauto]. destruct (k =? 0)%Z; eauto.
Qed.

Lemma getComponentMetadata_other_type (id : ComponentRef) (type : string) (st : State)
    (design : PartialDesign) :
  state st = DONE -> partialDesign st = Some design ->
  (forall key config, pd_runtime design !! key = Some config -> cmpType config <> type) ->
  snd (getComponentMetadata numberToString id type st)
  = Throw ("Cannot find component with ID or name '" +:+ refText numberToString id
           +:+ "' of type '" +:+ type +:+ "'.")
  /\ map lineAvailable (fst (getComponentMetadata numberToString id type st)) = [∅].
Proof.
  intros Hst Hpd Hnone.
  assert (Hav : dom (filter (fun entry => cmpType entry.2 = type) (pd_runtime design))
                = (∅ : gset string)).
  { apply dom_empty_iff_L. apply map_empty_filter_2. intros key config Hk Heq. simpl in Heq.
    exact (Hnone key config Hk Heq). }
  destruct (getComponentId_loaded id st design Hst Hpd) as (componentId & Hid).
  unfold getComponentMetadata. rewrite Hid, Hst, Hpd. simpl.
  destruct (pd_runtime design !! componentId) as [config|] eqn:Hk.
  - destruct (String.eqb_spec (cmpType config) type) as [Heq|_].
    + destruct (Hnone _ _ Hk Heq).
    + simpl. rewrite Hav. split; reflexivity.
  - simpl. rewrite Hav. split; reflexivity.
Qed.

Lemma handle_keptOnly (e : Event) (st : State) : keptOnly st -> keptOnly (handle e st).
Proof.
  intros (Hk & Hd). destruct e as [identifier|data|identifier|time]; cbn [handle].
  - split.
    + intros design key config Hpd. apply (Hk design key config).
      rewrite <- Hpd. unfold loadDesign, loadDesignInternal.
      destruct (_ && _); [destruct (isLOADING _)|]; reflexivity.
    + rewrite loadDesign_LOADING. discriminate.
  - destruct (fetchesInFlight st); [split; assumption|].
    destruct data as [dspDesign|]; split; simpl; try discriminate; eauto.
    intros design key config [= <-] Hkey. apply kept_runtime_desired in Hkey as (_ & Hdes).
    exact Hdes.
  - unfold onDesignChangeNotify. split; [|rewrite loadDesign_LOADING; discriminate].
    intros design key config Hpd. exfalso. revert Hpd.
    unfold loadDesign, loadDesignInternal.
    destruct (_ && _); [destruct (isLOADING _)|]; discriminate.
  - split; assumption.
Qed.

(** Whatever calls of [load()], fetch returns and design changes there
    were, the cached design holds entries of the desired types only. *)
Lemma handleAll_keptOnly (events : list Event) (st : State) :
  keptOnly st -> keptOnly (handleAll events st).
Proof.
  revert st. induction events as [|e rest IH]; intros st Hk; simpl; [exact Hk|].
  apply IH, handle_keptOnly, Hk.
Qed.

Lemma new_keptOnly (time : Z) : keptOnly (new time).
Proof. split; discriminate. Qed.

(** X12.  The loader keeps the runtime entries of the four component
    types [gain], [net_rx], [net_tx] and [ducker] only.  As long as the
    cached design is the one a load left (no runtime-change notice,
    which stores entries of any type, has been processed since the
    loader was made), a component of any other type is never returned.
    In the state that the return of a fetch with a design leaves,
    [getComponentMetadata] throws whatever the identifier, also when the
    design on the device has such a component under it, and the line it
    logs lists no identifier as available.  After any calls of [load()],
    fetch returns and design changes it throws as well: that the
    component cannot be found when the state is DONE, and that the
    design is not available otherwise. *)
Theorem components_of_other_types_are_not_found_until_a_runtime_change :
  forall (id : ComponentRef) (type : string),
    desired type = false ->
    (forall (st : State) (dspDesign : DspDesign),
        let st' := loadDesignInternal_resume (Some dspDesign) st in
        snd (getComponentMetadata numberToString id type st')
        = Throw ("Cannot find component with ID or name '" +:+ refText numberToString id
                 +:+ "' of type '" +:+ type +:+ "'.")
        /\ map lineAvailable (fst (getComponentMetadata numberToString id type st')) = [∅])
    /\ (forall (time : Z) (events : list Event),
           let st := handleAll events (new time) in
           snd (getComponentMetadata numberToString id type st)
           = Throw (if isDONE (state st)
                    then "Cannot find component with ID or name '"
                         +:+ refText numberToString id +:+ "' of type '" +:+ type +:+ "'."
                    else "Design is not available.")
           /\ map lineAvailable (fst (getComponentMetadata numberToString id type st))
              = if isDONE (state st) then [∅] else []).
Proof.
  intros id type Hdes. split.
  - intros st dspDesign st'.
    apply (getComponentMetadata_other_type id type st' (partialOf dspDesign));
      [reflexivity | reflexivity |].
    intros key config Hk Heq. apply kept_runtime_desired in Hk as (_ & Hd). congruence.
  - intros time events st.
    destruct (handleAll_keptOnly events (new time) (new_keptOnly time)) as (Hk & Hd).
    fold st in Hk, Hd. clearbody st.
    destruct (isDONE (state st)) eqn:E.
    + assert (Hst : state st = DONE) by (destruct (state st); try discriminate; reflexivity).
      destruct (Hd Hst) as (design & Hpd).
      apply (getComponentMetadata_other_type id type st design Hst Hpd).
      intros key config Hkey Heq. pose proof (Hk design key config Hpd Hkey). congruence.
    + unfold getComponentMetadata. rewrite E. split; reflexivity.
Qed.

Lemma nameToId_untouched (name : string) (nodes : list DrawflowNode) (m : gmap string Z) :
  Forall (fun other => nodeName other <> name) nodes ->
  fold_left (fun m node => <[nodeName node := nodeId node]> m) nodes m !! name = m !! name.
Proof.
  revert m. induction nodes as [|node rest IH]; intros m Hall; simpl; [reflexivity|].
  apply Forall_cons in Hall as (Hne & Hrest). rewrite (IH _ Hrest).
  apply lookup_insert_ne. exact Hne.
Qed.

(** The last node of a kept type under a name gives the name its
    number. *)
Lemma nameToId_last (dspDesign : DspDesign) (node : DrawflowNode)
    (before after : list DrawflowNode) :
  drawflowHomeData dspDesign = before ++ node :: after ->
  Forall (fun other => desired (nodeType other) = true -> nodeName other <> nodeName node)
    after ->
  desired (nodeType node) = true ->
  pd_nameToId (partialOf dspDesign) !! nodeName node = Some (nodeId node).
Proof.
  intros Hdata Hafter Hdes. unfold partialOf. simpl. rewrite Hdata.
  rewrite List.filter_app. simpl. rewrite Hdes. rewrite fold_left_app. simpl.
  rewrite nameToId_untouched; [apply lookup_insert_eq|].
  apply Forall_forall. intros other Hin. apply list_elem_of_In, filter_In in Hin as (Hin & Hd).
  rewrite Forall_forall in Hafter. apply Hafter; [apply list_elem_of_In; exact Hin | exact Hd].
Qed.

(** X13.  After a load, a component of a kept type is found under its
    number and under the name of its drawflow node alike: both calls
    return the runtime entry that the design holds under the number,
    together with the kept runtime and the design's metadata.  The name
    stands for the last node of a kept type that bears it, and its
    number must not be 0. *)
Theorem loaded_component_is_found_by_number_and_by_name :
  forall (st : State) (dspDesign : DspDesign) (node : DrawflowNode)
         (before after : list DrawflowNode) (config : ANpdConfig),
    drawflowHomeData dspDesign = before ++ node :: after ->
    Forall (fun other => desired (nodeType other) = true -> nodeName other <> nodeName node)
      after ->
    desired (nodeType node) = true ->
    nodeId node <> 0%Z ->
    runtime dspDesign !! numberToString (nodeId node) = Some config ->
    desired (cmpType config) = true ->
    let st' := loadDesignInternal_resume (Some dspDesign) st in
    let found :=
      ([], Return {| npdComponentConfig := config;
                     designRuntime := pd_runtime (partialOf dspDesign);
                     designMetadata := metadata dspDesign |}) in
    getComponentMetadata numberToString (ByName (nodeName node)) (cmpType config) st' = found
    /\ getComponentMetadata numberToString (ByNumber (nodeId node)) (cmpType config) st' = found.
Proof.
  intros st dspDesign node before after config Hdata Hafter Hdes Hid Hrun Hcfg st' found.
  pose proof (nameToId_last dspDesign node before after Hdata Hafter Hdes) as Hname.
  assert (Hkept : pd_runtime (partialOf dspDesign) !! numberToString (nodeId node) = Some config).
  { apply kept_runtime_desired. auto. }
  assert (Hst : state st' = DONE) by reflexivity.
  assert (Hpd : partialDesign st' = Some (partialOf dspDesign)) by reflexivity.
  assert (Hmeta : pd_metadata (partialOf dspDesign) = metadata dspDesign) by reflexivity.
  clearbody st'. subst found. rewrite <- Hmeta. clear Hmeta.
  generalize dependent (partialOf dspDesign). intros design Hname Hkept Hpd.
  unfold getComponentMetadata, getComponentId.
  rewrite Hst, Hpd. simpl. rewrite Hname.
  destruct (Z.eqb_spec (nodeId node) 0); [contradiction|].
  rewrite Hkept, String.eqb_refl. split; reflexivity.
Qed.

End DesignGetters.

(** ** Properties of the listener registries *)

Section Arrays.

Import JsArray.

Context {A : Type} `{EqDecision A}.

Lemma indexOf_absent (x : A) (array : list A) : x ∉ array -> indexOf x array = (-1)%Z.
Proof.
  induction array as [|y rest IH]; intros Hnot; simpl; [reflexivity|].
  apply not_elem_of_cons in Hnot as (Hne & Hrest).
  destruct (decide (x = y)); [contradiction|]. rewrite (IH Hrest). reflexivity.
Qed.

Lemma indexOf_first (x : A) (before after : list A) :
  x ∉ before -> indexOf x (before ++ x :: after) = Z.of_nat (length before).
Proof.
  induction before as [|y rest IH]; intros Hnot; simpl.
  - destruct (decide (x = x)); [reflexivity | contradiction].
  - apply not_elem_of_cons in Hnot as (Hne & Hrest).
    destruct (decide (x = y)); [contradiction|]. rewrite (IH Hrest).
    destruct (Z.ltb_spec (Z.of_nat (length rest)) 0); lia.
Qed.

Lemma splice_one (x : A) (before after : list A) :
  splice (Z.of_nat (length before)) 1 (before ++ x :: after) = before ++ after.
Proof.
  unfold splice. rewrite length_app. simpl length.
  destruct (Z.ltb_spec (Z.of_nat (length before)) 0); [lia|].
  replace (Z.min (Z.of_nat (length before)) (Z.of_nat (length before + S (length after))))
    with (Z.of_nat (length before)) by lia.
  replace (Z.of_nat (length before)
           + Z.min (Z.max 1 0)
               (Z.of_nat (length before + S (length after)) - Z.of_nat (length before)))%Z
    with (Z.of_nat (S (length before))) by lia.
  rewrite !Nat2Z.id. rewrite take_app_length.
  change (before ++ x :: after) with (before ++ [x] ++ after).
  rewrite app_assoc. rewrite drop_app_length'; [reflexivity|].
  rewrite length_app. simpl. lia.
Qed.

(** [array.splice(-1, 1)] removes the last element. *)
Lemma splice_last (array : list A) : splice (-1) 1 array = removelast array.
Proof.
  unfold splice.
  induction array as [|y rest _] using rev_ind.
  - reflexivity.
  - rewrite removelast_last, length_app. simpl length.
    change (-1 <? 0)%Z with true. cbv iota.
    replace (Z.max (Z.of_nat (length rest + 1) + -1) 0) with (Z.of_nat (length rest)) by lia.
    replace (Z.of_nat (length rest)
             + Z.min (Z.max 1 0) (Z.of_nat (length rest + 1) - Z.of_nat (length rest)))%Z
      with (Z.of_nat (length rest + 1)) by lia.
    rewrite !Nat2Z.id, take_app_length.
    rewrite drop_ge by (rewrite length_app; simpl; lia). apply app_nil_r.
Qed.

(** Registering [x] at the end of an array that does not hold it, and
    removing it by [indexOf] and [splice] once and twice. *)
Lemma push_remove_remove (x : A) (array : list A) :
  x ∉ array ->
  splice (indexOf x (array ++ [x])) 1 (array ++ [x]) = array
  /\ splice (indexOf x array) 1 array = removelast array.
Proof.
  intros Hnot. split.
  - rewrite (indexOf_first x array [] Hnot), splice_one. apply app_nil_r.
  - rewrite (indexOf_absent x array Hnot). apply splice_last.
Qed.

End Arrays.

Section Ducker.

Import NnDuckerStatesUtil.

(** X14.  A listener registered with [onActiveChange] is called, after
    those registered before it for the component, with the value of each
    change reported for that component.  The first call of the
    [removeListener] it was given takes exactly this listener out.  A
    second call of the same [removeListener] does not find it and takes
    out the listener registered last for the component instead.  The
    listeners of other components are not touched. *)
Theorem removing_a_ducker_listener_twice_removes_another_one :
  forall (st : State) (componentId : string) (listener : nat) (priorityActive : bool),
    listener ∉ listenersOf componentId st ->
    let st1 := onActiveChange componentId listener st in
    let st2 := removeListener componentId listener st1 in
    let st3 := removeListener componentId listener st2 in
    called (onPrimaryActiveChangeEvent componentId priorityActive st1)
    = called st ++ map (fun cb => (cb, priorityActive)) (listenersOf componentId st)
                ++ [(listener, priorityActive)]
    /\ listenersOf componentId st2 = listenersOf componentId st
    /\ listenersOf componentId st3 = removelast (listenersOf componentId st)
    /\ forall other, other <> componentId -> listenersOf other st3 = listenersOf other st.
Proof.
  intros st c x b Hnot st1 st2 st3.
  destruct (push_remove_remove x (listenersOf c st) Hnot) as (E1 & E2).
  assert (L1 : listenersOf c st1 = listenersOf c st ++ [x]).
  { unfold listenersOf at 1. simpl. rewrite lookup_insert_eq. reflexivity. }
  assert (L2 : listenersOf c st2 = listenersOf c st).
  { unfold listenersOf at 1. simpl. rewrite lookup_insert_eq. simpl.
    fold (listenersOf c st1). rewrite L1. exact E1. }
  assert (L3 : listenersOf c st3 = removelast (listenersOf c st)).
  { unfold listenersOf at 1. simpl. rewrite lookup_insert_eq. simpl.
    fold (listenersOf c st2). rewrite L2. exact E2. }
  split; [|split; [exact L2 | split; [exact L3|]]].
  - unfold onPrimaryActiveChangeEvent. destruct (loggerEnabled st1) eqn:El; simpl;
      rewrite lookup_insert_eq; simpl; rewrite map_app; reflexivity.
  - intros other Hne. unfold listenersOf. simpl. rewrite !lookup_insert_ne by congruence.
    reflexivity.
Qed.

End Ducker.

Section IOControl.

Import IOControlStates.

Lemma latest_cons (kind : IoControl -> bool) (p : Z) (ioControl : IoControl)
    (states : list IoControl) :
  latest kind p (ioControl :: states) =
    match latest kind p states with
    | Some found => Some found
    | None => if kind ioControl && bool_decide (pin ioControl = p) then Some ioControl else None
    end.
Proof.
  unfold latest. simpl.
  destruct (kind ioControl && bool_decide (pin ioControl = p)); [|
    destruct (last _); reflexivity].
  rewrite last_cons. destruct (last _); reflexivity.
Qed.

Lemma updateOutputValues_frame (states : list IoControl) (st : State) :
  inputStates (updateOutputValues states st) = inputStates st
  /\ inputChangeListeners (updateOutputValues states st) = inputChangeListeners st
  /\ loggerEnabled (updateOutputValues states st) = loggerEnabled st
  /\ called (updateOutputValues states st) = called st
  /\ logs (updateOutputValues states st) = logs st.
Proof.
  unfold updateOutputValues. revert st.
  induction states as [|ioControl rest IH]; intros st; simpl; [auto|].
  destruct (IH (if isOutputControl ioControl
                then set_outputStates (<[pin ioControl := ioControl]> (outputStates st)) st
                else st)) as (E1 & E2 & E3 & E4 & E5).
  rewrite E1, E2, E3, E4, E5. destruct (isOutputControl ioControl); auto.
Qed.

Lemma updateOutputValues_latest (states : list IoControl) (st : State) (p : Z) :
  outputStates (updateOutputValues states st) !! p =
    match latest isOutputControl p states with
    | Some ioControl => Some ioControl
    | None => outputStates st !! p
    end.
Proof.
  unfold updateOutputValues. revert st.
  induction states as [|ioControl rest IH]; intros st; simpl; [reflexivity|].
  rewrite IH, latest_cons. destruct (latest isOutputControl p rest); [reflexivity|].
  destruct (isOutputControl ioControl); simpl; [|reflexivity].
  destruct (decide (pin ioControl = p)) as [<-|Hne].
  - rewrite bool_decide_eq_true_2 by reflexivity. apply lookup_insert_eq.
  - rewrite bool_decide_eq_false_2 by exact Hne. apply lookup_insert_ne. exact Hne.
Qed.

Lemma onInputState_frame (ioControl : IoControl) (st : State) (p : Z) :
  outputStates (onInputState ioControl st) = outputStates st
  /\ inputStates (onInputState ioControl st) = <[pin ioControl := value ioControl]> (inputStates st).
Proof.
  unfold onInputState. destruct (isChangeOnInput _ _ st); [|auto].
  destruct (loggerEnabled _); simpl;
    destruct (inputChangeListeners st !! pin ioControl); auto.
Qed.

(** Either loop over the input entries of an event leaves each pin at
    its latest entry. *)
Lemma inputs_latest (step : IoControl -> State -> State) (states : list IoControl) (st : State)
    (p : Z) :
  (forall ioControl s,
      outputStates (step ioControl s) = outputStates s
      /\ inputStates (step ioControl s) = <[pin ioControl := value ioControl]> (inputStates s)) ->
  let st' := fold_left (fun s ioControl => step ioControl s) (List.filter isInputControl states) st in
  outputStates st' = outputStates st
  /\ inputStates st' !! p =
       match latest isInputControl p states with
       | Some ioControl => Some (value ioControl)
       | None => inputStates st !! p
       end.
Proof.
  intros Hstep. revert st.
  induction states as [|ioControl rest IH]; intros st; simpl; [auto|].
  rewrite latest_cons. destruct (isInputControl ioControl) eqn:Hkind; simpl.
  - destruct (IH (step ioControl st)) as (E1 & E2). destruct (Hstep ioControl st) as (F1 & F2).
    cbv zeta in *. rewrite E1, E2, F1, F2. split; [reflexivity|].
    destruct (latest isInputControl p rest); [reflexivity|].
    destruct (decide (pin ioControl = p)) as [<-|Hne].
    + rewrite bool_decide_eq_true_2 by reflexivity. apply lookup_insert_eq.
    + rewrite bool_decide_eq_false_2 by exact Hne. apply lookup_insert_ne. exact Hne.
  - destruct (IH st) as (E1 & E2). cbv zeta in *. rewrite E1, E2. split; [reflexivity|].
    destruct (latest isInputControl p rest); reflexivity.
Qed.

(** X15.  After an event with pin states, whether it is the first or a
    later one, [getOutputValue(p)] is the last entry of the event for pin
    [p] that is an output of type control, and [getInputValue(p)] the
    value of the last entry for [p] that is an input of type control; a
    pin without such an entry keeps what it had.  Entries of type gpio
    are stored nowhere. *)
Theorem control_event_leaves_each_pin_at_its_latest_entry :
  forall (states : list IoControl) (st : State) (p : Z),
    let st' := onControlStateEvent states st in
    getOutputValue p st' =
      match latest isOutputControl p states with
      | Some ioControl => Some ioControl
      | None => getOutputValue p st
      end
    /\ getInputValue p st' =
         match latest isInputControl p states with
         | Some ioControl => value ioControl
         | None => getInputValue p st
         end.
Proof.
  intros states st p st'. subst st'. unfold onControlStateEvent, getOutputValue, getInputValue.
  destruct (updateOutputValues_frame states st) as (Hin & _).
  pose proof (updateOutputValues_latest states st p) as Hout.
  destruct (bool_decide _).
  - match goal with |- context [fold_left ?f _ _] =>
      destruct (inputs_latest
                  (fun ioControl s =>
                     set_inputStates (<[pin ioControl := value ioControl]> (inputStates s)) s)
                  states (updateOutputValues states st) p) as (E1 & E2)
    end.
    { intros ioControl s. split; reflexivity. }
    cbv zeta in *. rewrite E1, E2, Hout, Hin. split; [reflexivity|].
    destruct (latest isInputControl p states); reflexivity.
  - destruct (inputs_latest onInputState states (updateOutputValues states st) p) as (E1 & E2).
    { intros ioControl s. apply onInputState_frame. exact p. }
    cbv zeta in *. rewrite E1, E2, Hout, Hin. split; [reflexivity|].
    destruct (latest isInputControl p states); reflexivity.
Qed.

(** X16.  While no input value has been stored, an event only stores
    the values it brings: no listener is called and no change is logged,
    whatever the values are.  An event that brings no input of type
    control leaves the class in that condition. *)
Theorem first_control_event_notifies_nobody :
  forall (states : list IoControl) (st : State),
    inputStates st = ∅ ->
    let st' := onControlStateEvent states st in
    called st' = called st
    /\ logs st' = logs st
    /\ inputChangeListeners st' = inputChangeListeners st
    /\ (List.filter isInputControl states = [] -> inputStates st' = ∅).
Proof.
  intros states st Hempty st'. subst st'. unfold onControlStateEvent.
  destruct (updateOutputValues_frame states st) as (Hin & Hl & _ & Hc & Hlog).
  rewrite Hin, Hempty, map_size_empty. simpl.
  revert Hin Hl Hc Hlog. generalize (updateOutputValues states st). intros s0 Hin Hl Hc Hlog.
  rewrite <- Hc, <- Hlog, <- Hl.
  assert (H : forall inputs s,
             let s' := fold_left
                         (fun s ioControl =>
                            set_inputStates (<[pin ioControl := value ioControl]> (inputStates s)) s)
                         inputs s in
             called s' = called s /\ logs s' = logs s
             /\ inputChangeListeners s' = inputChangeListeners s).
  { intros inputs. induction inputs as [|ioControl rest IH]; intros s; simpl; [auto|].
    destruct (IH (set_inputStates (<[pin ioControl := value ioControl]> (inputStates s)) s))
      as (E1 & E2 & E3).
    rewrite E1, E2, E3. auto. }
  destruct (H (List.filter isInputControl states) s0) as (E1 & E2 & E3).
  repeat split; try assumption.
  intros ->. simpl. rewrite Hin. exact Hempty.
Qed.

(** X17.  [onInputChange] followed by the [removeListener] it returned
    leaves the listeners of the pin as they were.  If [removeListener]
    is called once more, [indexOf] answers -1 and [splice(-1, 1)] removes
    the listener that was registered last for the pin, which is not the
    one asked for. *)
Theorem removing_an_input_listener_twice_removes_another_one :
  forall (st : State) (input : Z) (listener : nat),
    listener ∉ listenersOf input st ->
    let st1 := onInputChange input listener st in
    let st2 := removeListener input listener st1 in
    let st3 := removeListener input listener st2 in
    listenersOf input st1 = listenersOf input st ++ [listener]
    /\ listenersOf input st2 = listenersOf input st
    /\ listenersOf input st3 = removelast (listenersOf input st)
    /\ forall other, other <> input -> listenersOf other st3 = listenersOf other st.
Proof.
  intros st c x Hnot st1 st2 st3.
  destruct (push_remove_remove x (listenersOf c st) Hnot) as (E1 & E2).
  assert (L1 : listenersOf c st1 = listenersOf c st ++ [x]).
  { unfold listenersOf at 1. simpl. rewrite lookup_insert_eq. reflexivity. }
  assert (L2 : listenersOf c st2 = listenersOf c st).
  { unfold listenersOf at 1. simpl. rewrite lookup_insert_eq. simpl.
    fold (listenersOf c st1). rewrite L1. exact E1. }
  assert (L3 : listenersOf c st3 = removelast (listenersOf c st)).
  { unfold listenersOf at 1. simpl. rewrite lookup_insert_eq. simpl.
    fold (listenersOf c st2). rewrite L2. exact E2. }
  split; [exact L1 | split; [exact L2 | split; [exact L3|]]].
  intros other Hne. unfold listenersOf. simpl. rewrite !lookup_insert_ne by congruence.
  reflexivity.
Qed.

(** X18.  Once input values are stored, an event entry for an input
    pin always replaces the stored value, but the listeners of the pin
    are called only if the new value differs from the stored one (0 if
    the pin is new) by more than a tenth; they are then called in the
    order of registration with the new and the old value.  So the value
    that [digital(pin).getValue()] reads can move across its threshold
    of 0.6 in a step of at most a tenth without any listener being
    called. *)
Theorem input_change_is_reported_only_beyond_a_tenth :
  forall (st : State) (p : Z) (v : float),
    size (inputStates st) <> 0 ->
    let ioControl := {| pinType := CONTROL; pinMode := INPUT; pin := p; value := v |} in
    let lastState := orZero (inputStates st !! p) in
    let st' := onControlStateEvent [ioControl] st in
    getInputValue p st' = v
    /\ NnControlInputsDefinition.digital_getValue p st' = NnControlInputsDefinition.high v
    /\ called st' =
         called st ++ (if isChangeOnInput v lastState st
                       then map (fun cb => (cb, v, lastState)) (listenersOf p st)
                       else []).
Proof.
  intros st p v Hsize ioControl lastState st'.
  assert (E : st' = onInputState ioControl st).
  { subst st'. unfold onControlStateEvent. simpl.
    rewrite bool_decide_eq_false_2 by exact Hsize. reflexivity. }
  rewrite E. unfold NnControlInputsDefinition.digital_getValue.
  assert (G : getInputValue p (onInputState ioControl st) = v).
  { unfold getInputValue. destruct (onInputState_frame ioControl st p) as (_ & ->).
    simpl. rewrite lookup_insert_eq. reflexivity. }
  rewrite G. split; [reflexivity|]. split; [reflexivity|].
  unfold onInputState. simpl. fold lastState.
  destruct (isChangeOnInput v lastState st); simpl; [|rewrite app_nil_r; reflexivity].
  unfold listenersOf.
  destruct (loggerEnabled st); simpl; destruct (inputChangeListeners st !! p); simpl;
    rewrite ?app_nil_r; reflexivity.
Qed.

End IOControl.

Section Buttons.

Import ButtonStates.

Lemma get_set_same {V : Type} (key : string) (v : V) (entries : list (string * V)) :
  JsMap.get key (JsMap.set key v entries) = Some v.
Proof.
  induction entries as [|[k w] rest IH]; simpl.
  - rewrite String.eqb_refl. reflexivity.
  - destruct (String.eqb k key) eqn:E; simpl; rewrite E; [reflexivity | exact IH].
Qed.

Lemma get_set_other {V : Type} (key key' : string) (v : V) (entries : list (string * V)) :
  key' <> key -> JsMap.get key' (JsMap.set key v entries) = JsMap.get key' entries.
Proof.
  intros Hne. induction entries as [|[k w] rest IH]; simpl.
  - destruct (String.eqb_spec key key'); [congruence | reflexivity].
  - destruct (String.eqb_spec k key) as [->|Hk]; simpl.
    + destruct (String.eqb_spec key key'); [congruence | reflexivity].
    + destruct (String.eqb k key'); [reflexivity | exact IH].
Qed.

Lemma keys_set {V : Type} (key : string) (v : V) (entries : list (string * V)) :
  JsMap.keys (JsMap.set key v entries) =
    if bool_decide (key ∈ JsMap.keys entries) then JsMap.keys entries
    else JsMap.keys entries ++ [key].
Proof.
  unfold JsMap.keys. induction entries as [|[k w] rest IH]; simpl.
  - reflexivity.
  - destruct (String.eqb_spec k key) as [->|Hk]; simpl.
    + rewrite bool_decide_eq_true_2; [reflexivity | apply elem_of_cons; left; reflexivity].
    + rewrite IH. destruct (decide (key ∈ map fst rest)) as [Hin|Hnot].
      * rewrite !bool_decide_eq_true_2; [reflexivity | apply elem_of_cons; right | ]; exact Hin.
      * rewrite !bool_decide_eq_false_2; [reflexivity | | exact Hnot].
        intros [?|?]%elem_of_cons; [congruence | contradiction].
Qed.

Lemma lastHeard_app (cb : nat) (st st' : State) (extra : list (nat * bool)) :
  called st' = called st ++ extra ->
  lastHeard cb st' =
    match last (map snd (List.filter (fun c => Nat.eqb (fst c) cb) extra)) with
    | Some v => Some v
    | None => lastHeard cb st
    end.
Proof.
  intros E. unfold lastHeard. rewrite E, List.filter_app, map_app, last_app. reflexivity.
Qed.

Lemma heard_from_calls (cb : nat) (v : bool) (cbs : list nat) :
  last (map snd (List.filter (fun c => Nat.eqb (fst c) cb) (map (fun c => (c, v)) cbs)))
  = if bool_decide (cb ∈ cbs) then Some v else None.
Proof.
  induction cbs as [|c rest IH] using rev_ind.
  - reflexivity.
  - rewrite map_app, List.filter_app, map_app, last_app, IH. simpl.
    destruct (Nat.eqb_spec c cb) as [->|Hne]; simpl.
    + rewrite bool_decide_eq_true_2; [reflexivity|].
      apply elem_of_app. right. apply elem_of_cons. left. reflexivity.
    + destruct (decide (cb ∈ rest)) as [Hin|Hnot].
      * rewrite !bool_decide_eq_true_2; [reflexivity | apply elem_of_app; left |]; exact Hin.
      * rewrite !bool_decide_eq_false_2; [reflexivity | | exact Hnot].
        intros [?|Hc]%elem_of_app; [contradiction|].
        apply elem_of_cons in Hc as [?|Hc]; [congruence|]. apply elem_of_nil in Hc. exact Hc.
Qed.

Lemma addButtonListener_listeners (buttonName other : string) (listener : nat) (st : State) :
  listenersOf other (addButtonListener buttonName listener st) =
    if bool_decide (other = buttonName) then listenersOf buttonName st ++ [listener]
    else listenersOf other st.
Proof.
  assert (E : buttonChangeListeners (addButtonListener buttonName listener st)
              = <[buttonName := listenersOf buttonName st ++ [listener]]>
                  (buttonChangeListeners st)).
  { unfold addButtonListener. simpl. destruct (JsMap.get buttonName (buttonStates st));
      reflexivity. }
  unfold listenersOf at 1. rewrite E. destruct (decide (other = buttonName)) as [->|Hne].
  - rewrite bool_decide_eq_true_2 by reflexivity. rewrite lookup_insert_eq. reflexivity.
  - rewrite bool_decide_eq_false_2 by exact Hne. rewrite lookup_insert_ne by congruence.
    reflexivity.
Qed.

Lemma addButtonListener_called (buttonName : string) (listener : nat) (st : State) :
  called (addButtonListener buttonName listener st) =
    called st ++ match JsMap.get buttonName (buttonStates st) with
                 | Some a => [(listener, a)]
                 | None => []
                 end.
Proof.
  unfold addButtonListener. simpl. destruct (JsMap.get buttonName (buttonStates st)); simpl;
    [reflexivity | rewrite app_nil_r; reflexivity].
Qed.

Lemma addButtonListener_buttonStates (buttonName : string) (listener : nat) (st : State) :
  buttonStates (addButtonListener buttonName listener st) = buttonStates st.
Proof.
  unfold addButtonListener. simpl. destruct (JsMap.get buttonName (buttonStates st)); reflexivity.
Qed.

Lemma inSync_addButtonListener (buttonName : string) (listener : nat) (st : State) :
  inSync st -> inSync (addButtonListener buttonName listener st).
Proof.
  intros Inv b cb v Hin Hex Hget.
  rewrite addButtonListener_buttonStates in Hget.
  rewrite (lastHeard_app cb st _ _ (addButtonListener_called buttonName listener st)).
  destruct (decide (cb = listener)) as [->|Hcb].
  - assert (Hb : buttonName = b).
    { apply Hex. rewrite addButtonListener_listeners, bool_decide_eq_true_2 by reflexivity.
      apply elem_of_app. right. apply elem_of_cons. left. reflexivity. }
    subst b. rewrite Hget. simpl. rewrite Nat.eqb_refl. reflexivity.
  - assert (Hold : cb ∈ listenersOf b st).
    { rewrite addButtonListener_listeners in Hin. destruct (decide (b = buttonName)) as [->|Hne].
      - rewrite bool_decide_eq_true_2 in Hin by reflexivity.
        apply elem_of_app in Hin as [Hin|Hin]; [exact Hin|].
        apply elem_of_cons in Hin as [?|Hin]; [contradiction|]. apply elem_of_nil in Hin.
        contradiction.
      - rewrite bool_decide_eq_false_2 in Hin by exact Hne. exact Hin. }
    assert (Hexold : forall other, cb ∈ listenersOf other st -> other = b).
    { intros other Ho. apply Hex. rewrite addButtonListener_listeners.
      destruct (decide (other = buttonName)) as [->|Hne].
      - rewrite bool_decide_eq_true_2 by reflexivity. apply elem_of_app. left. exact Ho.
      - rewrite bool_decide_eq_false_2 by exact Hne. exact Ho. }
    rewrite (Inv b cb v Hold Hexold Hget).
    destruct (JsMap.get buttonName (buttonStates st)) as [a|]; simpl; [|reflexivity].
    destruct (Nat.eqb_spec listener cb); [congruence | reflexivity].
Qed.

(** One entry of an event. *)
Lemma onButtonState_one (buttonState : ButtonState) (st : State) :
  let st' := onButtonStateEvent [buttonState] st in
  buttonStates st' = JsMap.set (name buttonState) (active buttonState) (buttonStates st)
  /\ buttonChangeListeners st' = buttonChangeListeners st
  /\ called st' = called st ++ map (fun cb => (cb, active buttonState))
                                 (listenersOf (name buttonState) st).
Proof.
  unfold onButtonStateEvent, listenersOf. simpl.
  destruct (buttonChangeListeners st !! name buttonState); simpl;
    rewrite ?app_nil_r; auto.
Qed.

Lemma onButtonStateEvent_cons (buttonState : ButtonState) (states : list ButtonState)
    (st : State) :
  onButtonStateEvent (buttonState :: states) st
  = onButtonStateEvent states (onButtonStateEvent [buttonState] st).
Proof. reflexivity. Qed.

Lemma inSync_onButtonStateEvent (states : list ButtonState) (st : State) :
  inSync st -> inSync (onButtonStateEvent states st).
Proof.
  revert st. induction states as [|buttonState rest IH]; intros st Inv; [exact Inv|].
  rewrite onButtonStateEvent_cons. apply IH. clear IH.
  destruct (onButtonState_one buttonState st) as (E1 & E2 & E3).
  cbv zeta in *. generalize dependent (onButtonStateEvent [buttonState] st).
  intros st' E1 E2 E3 b cb v Hin Hex Hget.
  unfold listenersOf in Hin, Hex. rewrite E2 in Hin, Hex. rewrite E1 in Hget.
  fold (listenersOf b st) in Hin.
  rewrite (lastHeard_app cb st st' _ E3), heard_from_calls.
  destruct (decide (b = name buttonState)) as [->|Hne].
  - rewrite get_set_same in Hget. injection Hget as ->.
    rewrite bool_decide_eq_true_2 by exact Hin. reflexivity.
  - rewrite get_set_other in Hget by exact Hne.
    rewrite bool_decide_eq_false_2.
    + exact (Inv b cb v Hin Hex Hget).
    + intros Hn. apply Hne. symmetry. exact (Hex _ Hn).
Qed.

Lemma inSync_ops (l : list Op) (st : State) : inSync st -> inSync (ops l st).
Proof.
  unfold ops. revert st. induction l as [|o rest IH]; intros st Inv; simpl; [exact Inv|].
  apply IH. destruct o as [b cb|states]; simpl;
    [apply inSync_addButtonListener | apply inSync_onButtonStateEvent]; exact Inv.
Qed.

(** X19.  A listener registered for one button only always holds the
    current state of that button: however registrations and events have
    followed one another since the class was created, as soon as the
    state of its button is known the value it was called with last is
    the value that [getButtonActive] returns.  (A listener registered
    while the state is known is called at once; every event calls it
    again.) *)
Theorem button_listener_has_heard_the_current_state :
  forall (l : list Op) (buttonName : string) (listener : nat) (v : bool),
    let st := ops l new in
    listener ∈ listenersOf buttonName st ->
    (forall other, listener ∈ listenersOf other st -> other = buttonName) ->
    JsMap.get buttonName (buttonStates st) = Some v ->
    lastHeard listener st = Some v /\ getButtonActive buttonName st = v.
Proof.
  intros l b cb v st Hin Hex Hget. split.
  - refine (inSync_ops l new _ b cb v Hin Hex Hget).
    intros b' cb' v' Hin'. unfold listenersOf, new in Hin'. simpl in Hin'.
    rewrite lookup_empty in Hin'. apply elem_of_nil in Hin'. contradiction.
  - unfold getButtonActive. rewrite Hget. reflexivity.
Qed.

Lemma onButtonStateEvent_snoc (states : list ButtonState) (buttonState : ButtonState)
    (st : State) :
  onButtonStateEvent (states ++ [buttonState]) st
  = onButtonStateEvent [buttonState] (onButtonStateEvent states st).
Proof. unfold onButtonStateEvent. rewrite fold_left_app. reflexivity. Qed.

Lemma onButtonStateEvent_buttonStates (states : list ButtonState) (st : State) :
  buttonStates (onButtonStateEvent states st)
  = fold_left (fun m buttonState => JsMap.set (name buttonState) (active buttonState) m)
      states (buttonStates st).
Proof.
  unfold onButtonStateEvent. revert st.
  induction states as [|[n a] rest IH]; intros st; simpl; [reflexivity|].
  rewrite IH. simpl. destruct (buttonChangeListeners st !! n); reflexivity.
Qed.

Lemma set_keys_NoDup {V : Type} (key : string) (v : V) (entries : list (string * V)) :
  NoDup (JsMap.keys entries) -> NoDup (JsMap.keys (JsMap.set key v entries)).
Proof.
  intros Hnd. rewrite keys_set. destruct (decide (key ∈ JsMap.keys entries)) as [Hin|Hnot].
  - rewrite bool_decide_eq_true_2 by exact Hin. exact Hnd.
  - rewrite bool_decide_eq_false_2 by exact Hnot. apply NoDup_app. split; [exact Hnd|].
    split; [|apply NoDup_singleton].
    intros x Hx [->|H]%elem_of_cons; [contradiction | apply elem_of_nil in H; exact H].
Qed.

Lemma names_NoDup (l : list Op) (st : State) :
  NoDup (getButtonNames st) -> NoDup (getButtonNames (ops l st)).
Proof.
  unfold ops, getButtonNames. revert st.
  induction l as [|o rest IH]; intros st Hnd; simpl; [exact Hnd|].
  apply IH. destruct o as [b cb|states]; simpl.
  - rewrite addButtonListener_buttonStates. exact Hnd.
  - rewrite onButtonStateEvent_buttonStates. revert Hnd. generalize (buttonStates st).
    induction states as [|[n a] more IHs]; intros m Hnd; simpl; [exact Hnd|].
    apply IHs, set_keys_NoDup, Hnd.
Qed.

(** X20.  [getButtonNames] lists every button once, whatever events
    and registrations came before.  An event keeps the names known so
    far in their places and appends the names it reports for the first
    time; after it [getButtonActive] returns, for each button, the value
    of the last entry of the event for that button, and what it returned
    before for a button the event does not mention. *)
Theorem button_event_updates_states_and_keeps_names_unique :
  forall (l : list Op) (states : list ButtonState) (buttonName : string),
    let st := ops l new in
    let st' := onButtonStateEvent states st in
    NoDup (getButtonNames st')
    /\ getButtonNames st `prefix_of` getButtonNames st'
    /\ (buttonName ∈ getButtonNames st' <->
        buttonName ∈ getButtonNames st \/ buttonName ∈ map name states)
    /\ getButtonActive buttonName st' =
         match last (List.filter (fun s => String.eqb (name s) buttonName) states) with
         | Some buttonState => active buttonState
         | None => getButtonActive buttonName st
         end.
Proof.
  intros l states b st st'.
  split.
  { change st' with (ops [ButtonStateEvent states] st). subst st.
    apply names_NoDup, names_NoDup. apply NoDup_nil_2. }
  subst st'. unfold getButtonNames, getButtonActive.
  rewrite onButtonStateEvent_buttonStates. generalize (buttonStates st). clear st l.
  induction states as [|[n a] rest IH] using rev_ind; intros m.
  - simpl. split; [reflexivity|]. split; [|reflexivity].
    split; [auto|]. intros [H|H]; [exact H | apply elem_of_nil in H; contradiction].
  - rewrite fold_left_app. simpl. destruct (IH m) as (P & M & G).
    rewrite keys_set, List.filter_app, last_app, map_app. simpl.
    set (m' := fold_left _ rest m) in *.
    split; [|split].
    + destruct (bool_decide _); [exact P|]. etransitivity; [exact P|]. apply prefix_app_r.
      reflexivity.
    + rewrite elem_of_app, list_elem_of_singleton.
      destruct (decide (n ∈ JsMap.keys m')) as [Hin|Hnot].
      * rewrite bool_decide_eq_true_2 by exact Hin. rewrite M.
        split; [tauto|]. intros [H|[H| ->]]; [tauto | tauto |]. apply M. exact Hin.
      * rewrite bool_decide_eq_false_2 by exact Hnot. rewrite elem_of_app, list_elem_of_singleton, M.
        tauto.
    + destruct (String.eqb_spec n b) as [->|Hne]; simpl.
      * rewrite get_set_same. reflexivity.
      * rewrite get_set_other by congruence. exact G.
Qed.

End Buttons.

(** ** Properties of ANnDspComponent *)

Section Component.

Import ANnDspComponent.

Lemma sends_logged (enabled : bool) (line : Effect) (effects : list Effect) :
  isSend line = false ->
  length (List.filter isSend (logged enabled line ++ effects))
  = length (List.filter isSend effects).
Proof. intros H. unfold logged. destruct enabled; simpl; rewrite ?H; reflexivity. Qed.

Lemma setGainInternal_sends (enabled : bool) (value : float) (n : nat)
    (attempts : list Attempt) :
  sends (setGainInternal enabled value n attempts) <= n.
Proof.
  revert attempts. induction n as [|n IH]; intros attempts; unfold sends; simpl.
  - unfold logged. destruct enabled; simpl; lia.
  - destruct attempts as [|[message| |[[| | |error| |]|]] rest]; simpl; try lia.
    + unfold logged. destruct enabled; simpl; lia.
    + specialize (IH rest). unfold sends in IH.
      destruct (setGainInternal enabled value n rest) as [[again effects] rest'].
      simpl in IH. destruct again; simpl; rewrite ?List.filter_app, ?length_app; simpl; lia.
Qed.

Lemma setGainInternal_refused (enabled : bool) (value : float) (n : nat) (error : string)
    (rest : list Attempt) :
  setGainInternal enabled value (S n) (refused error :: rest) =
    let sent := [GetComponentMetadata; AssignGain value; StampRuntime; SendRuntimeUpdate] in
    let '(again, effects, rest') := setGainInternal enabled value n rest in
    match again with
    | Returns =>
        (Throws (Reason (Some (JStr error))),
         sent ++ [WarnNotUpdated error] ++ effects ++ [ConsoleWarn (Some (JStr error))], rest')
    | _ => (again, sent ++ [WarnNotUpdated error] ++ effects, rest')
    end.
Proof. reflexivity. Qed.

(** The rounds are refused, each with a text, until one is accepted. *)
Lemma setGainInternal_refused_then_accepted (enabled : bool) (value : float)
    (errors : list string) (error : string) (rest : list Attempt) (n : nat) :
  S (length errors) < n ->
  let run := setGainInternal enabled value n
               (map refused (errors ++ [error]) ++ Accepted :: rest) in
  outcome run = Throws (Reason (Some (JStr error)))
  /\ sends run = S (S (length errors))
  /\ snd run = rest.
Proof.
  revert n. induction errors as [|e errors IH]; intros n Hn; (destruct n as [|n]; [lia|]).
  - destruct n as [|n]; [lia|]. unfold outcome, sends. simpl.
    unfold logged. destruct enabled; simpl; auto.
  - destruct (IH n ltac:(simpl in Hn; lia)) as (E1 & E2 & E3).
    unfold outcome, sends in *. cbv zeta in *.
    change (map refused ((e :: errors) ++ [error]) ++ Accepted :: rest)
      with (refused e :: (map refused (errors ++ [error]) ++ Accepted :: rest)).
    rewrite setGainInternal_refused. cbv zeta.
    destruct (setGainInternal enabled value n _) as [[again effects] rest'].
    simpl in E1, E2, E3. subst again rest'. cbv iota beta. simpl fst. simpl snd.
    simpl. rewrite E2. auto.
Qed.

(** Every round is refused with a text until the attempts are used up. *)
Lemma setGainInternal_all_refused (enabled : bool) (value : float)
    (errors : list string) (error : string) (rest : list Attempt) :
  let run := setGainInternal enabled value (S (length errors))
               (map refused (errors ++ [error]) ++ rest) in
  outcome run = Throws (Reason (Some (JStr error)))
  /\ sends run = S (length errors)
  /\ snd run = rest.
Proof.
  induction errors as [|e errors IH].
  - unfold outcome, sends. simpl. unfold logged. destruct enabled; simpl; auto.
  - destruct IH as (E1 & E2 & E3).
    unfold outcome, sends in *. cbv zeta in *.
    change (map refused ((e :: errors) ++ [error]) ++ rest)
      with (refused e :: (map refused (errors ++ [error]) ++ rest)).
    change (length (e :: errors)) with (S (length errors)).
    rewrite setGainInternal_refused. cbv zeta.
    destruct (setGainInternal enabled value (S (length errors)) _) as [[again effects] rest'].
    simpl in E1, E2, E3. subst again rest'. cbv iota beta. simpl fst. simpl snd.
    simpl. rewrite E2. auto.
Qed.

(** X21.  [setGain] sends at most five runtime updates.  When an update
    is refused with a text as the reason, the value is sent again; but
    once the first update has been refused the call ends by throwing,
    also when a later update is accepted: it throws the reason of the
    refusal that came last.  If all five updates are refused it throws
    the reason of the fifth.  A refusal whose reason is not a text is
    thrown at once, without another update. *)
Theorem setGain_throws_the_last_refusal_even_if_a_retry_succeeds :
  forall (enabled : bool) (value : float) (errors : list string) (error : string)
         (reason : option JsValue) (attempts rest : list Attempt),
    length errors <= 4 ->
    (forall text, reason <> Some (JStr text)) ->
    let accepted := setGain true enabled (JNum value)
                      (map refused (errors ++ [error]) ++ Accepted :: rest) in
    let exhausted := setGain true enabled (JNum value)
                       (map refused (errors ++ [error]) ++ rest) in
    let other := setGain true enabled (JNum value) (Refused reason :: rest) in
    sends (setGain true enabled (JNum value) attempts) <= 5
    /\ (length errors < 4 ->
        outcome accepted = Throws (Reason (Some (JStr error)))
        /\ sends accepted = S (S (length errors)))
    /\ (length errors = 4 ->
        outcome exhausted = Throws (Reason (Some (JStr error))) /\ sends exhausted = 5)
    /\ outcome other = Throws (Reason reason)
    /\ sends other = 1.
Proof.
  intros enabled value errors error reason attempts rest Hlen Hreason accepted exhausted other.
  split; [apply setGainInternal_sends|]. split; [|split].
  - intros Hlt.
    destruct (setGainInternal_refused_then_accepted enabled value errors error rest 5
                ltac:(lia)) as (A1 & A2 & _).
    split; [exact A1 | exact A2].
  - intros Heq.
    destruct (setGainInternal_all_refused enabled value errors error rest) as (A1 & A2 & _).
    subst exhausted. unfold setGain, CHECK_DESIGN_UPDATE_ATTEMPT. simpl negb. cbv iota.
    rewrite Heq in A1, A2. split; [exact A1 | exact A2].
  - subst other. unfold setGain, outcome, sends. simpl.
    destruct reason as [[| | |text| |]|]; simpl; auto. destruct (Hreason text eq_refl).
Qed.

End Component.

(** ** Properties of SystemVariablesControlDefinition *)

Section SystemVariables.

Import SystemVariablesControlDefinition.

Lemma applyEntries_lookup (entries : gmap string (option string))
    (systemVariablesMap : gmap string string) (name : string) :
  map_fold applyEntry systemVariablesMap entries !! name =
    match entries !! name with
    | Some (Some v) => Some v
    | Some None => None
    | None => systemVariablesMap !! name
    end.
Proof.
  revert name.
  apply (map_fold_weak_ind
           (fun r d => forall name,
                r !! name = match d !! name with
                            | Some (Some v) => Some v
                            | Some None => None
                            | None => systemVariablesMap !! name
                            end)).
  - intros name. rewrite lookup_empty. reflexivity.
  - intros i x d r Hnone IH name. destruct (decide (name = i)) as [->|Hne].
    + rewrite lookup_insert_eq. destruct x as [v|]; simpl;
        [apply lookup_insert_eq | apply lookup_delete_eq].
    + rewrite lookup_insert_ne by congruence. rewrite <- IH.
      destruct x as [v|]; simpl; [apply lookup_insert_ne | apply lookup_delete_ne]; congruence.
Qed.

(** X23.  After a [systemVariableChangeNotify] event, [get(name)]
    returns the value that the event gives for the name; [undefined] if
    the event gives [null] for it; and for a name that the event does not
    mention, what it returned before, or [undefined] if the event is a
    full state.  Handling the same event a second time changes
    nothing. *)
Theorem system_variable_event_sets_deletes_and_keeps :
  forall (event : SystemVariableChangeNotifyEvent) (systemVariablesMap : gmap string string)
         (name : string),
    let after := systemVariableChange event systemVariablesMap in
    get name after =
      match data event !! name with
      | Some (Some v) => Some v
      | Some None => None
      | None => if fullState event then None else get name systemVariablesMap
      end
    /\ systemVariableChange event after = after.
Proof.
  intros event m name after.
  assert (H : forall m' k,
             systemVariableChange event m' !! k =
               match data event !! k with
               | Some (Some v) => Some v
               | Some None => None
               | None => if fullState event then None else m' !! k
               end).
  { intros m' k. unfold systemVariableChange. rewrite applyEntries_lookup.
    destruct (data event !! k) as [[v|]|]; try reflexivity.
    destruct (fullState event); [apply lookup_empty | reflexivity]. }
  split; [apply H|]. apply map_eq. intros k. rewrite H. subst after. rewrite H.
  destruct (data event !! k) as [[v|]|]; try reflexivity.
  destruct (fullState event); reflexivity.
Qed.

End SystemVariables.

(** ** The theorems at the concrete instances *)

Import WebSocketCommunication Examples.

(** A premise of [H] at a concrete input, settled by evaluation. *)
Ltac evaluate :=
  vm_compute;
  first [ reflexivity | eexists; reflexivity | repeat constructor; discriminate ].

Ltac premise H :=
  match type of H with
  | ?P -> _ => let h := fresh in assert (h : P) by evaluate; specialize (H h); clear h
  end.

Lemma C1_witness :
  let st' := receiveMessage (platform := platform0) "frame" awaiting_r1 in
  eventResultHandlers st' = delete "r1" (eventResultHandlers awaiting_r1)
  /\ promises st' !! 1 = Some (Fulfilled okResponse).
Proof.
  pose proof (C1_response_resolves_one_pending_request_once (platform := platform0)
                awaiting_r1 "frame" okResponse) as H.
  do 2 premise H. vm_compute in H. destruct H as (_ & Hmap & _ & Hp & _).
  vm_compute. split; [exact Hmap | exact (Hp 1 eq_refl)].
Defined.

Lemma C4_witness :
  let st3 := step (platform := platform0) (TimerFires 1)
               (turns (platform := platform0)
                  [HostTurn (SocketOpen 1); HostTurn (ClockAdvance 60000)] awaiting_r1) in
  promises st3 !! 1 = Some (Rejected (Some (JStr "Response was not obtained in 60s")))
  /\ eventResultHandlers st3 !! "r1" = None.
Proof.
  assert (Hunused : unused "r1" new0).
  { repeat split; try (intros ? ? H; vm_compute in H; discriminate).
    - intros ? H; vm_compute in H; discriminate.
    - vm_compute. lia. }
  assert (Hquiet : Forall (quiet (platform := platform0) "r1" (nextTimer new0))
                     [HostTurn (SocketOpen 1); HostTurn (ClockAdvance 60000)]).
  { repeat constructor. }
  destruct (C4_timeout_rejects_and_late_response_is_dropped (platform := platform0)
              new0 "r1" request_r1 false _ Hunused Hquiet) as (_ & _ & Hp & _ & Hh & _).
  vm_compute in Hp, Hh. vm_compute. split; [exact Hp | exact Hh].
Defined.

Lemma C3_witness :
  let st' := step (platform := platform0) (SocketOpen 1) queued0 in
  sent st' = [(1, "subReq"); (1, "ping")] /\ disconnectEventBuffer st' = [].
Proof.
  pose proof (C3_connect_replays_registry_then_flushes_buffer (platform := platform0)
                queued0 1) as H.
  do 2 premise H. destruct H as (H1 & H2 & _). vm_compute in H1, H2. vm_compute.
  split; [exact H1 | exact H2].
Defined.


Lemma C7_witness :
  let calls := [Live "subReq" (ClientHandler 1); Live "subReq" (ClientHandler 2)] in
  let st' := fold_left (fun s c => subscribe (platform := platform0) "subNotify" c s)
               calls new0 in
  subscriptionEvents st' = ["subReq"; "subReq"]
  /\ eventHandlers st' !! "subNotify" = Some (ClientHandler 2)
  /\ sent (step (platform := platform0) (SocketOpen 1) st') = [(1, "subReq"); (1, "subReq")].
Proof.
  destruct (C7_resubscribe_replaces_handler_and_appends_replay_entry (platform := platform0)
              new0 "subNotify"
              [Live "subReq" (ClientHandler 1); Live "subReq" (ClientHandler 2)])
    as (H1 & _ & H2 & _ & H3).
  specialize (H3 [] 1). cbv zeta in H3. do 2 premise H3.
  destruct H3 as (later & H3 & H4).
  destruct later as [|json later]; [|vm_compute in H3; discriminate].
  vm_compute in H1, H2, H4. vm_compute.
  split; [exact H1|]. split; [exact H2 | exact H4].
Defined.

Lemma C8_witness :
  let tick := step (platform := platform0) (TimerFires 1) silent0 in
  let closing := step (platform := platform0) (SocketClose 1) tick in
  let reconnected := step (platform := platform0) (TimerFires 2) closing in
  sent tick = [(1, "heartbeat")]
  /\ closed tick = [(1, Some "Missing heartbeat")]
  /\ readyState 1 tick = Some CLOSING
  /\ timers closing !! 2 = Some {| task := Reconnect; delay := 1000 |}
  /\ socket reconnected = Some 2
  /\ readyState 2 reconnected = Some CONNECTING.
Proof.
  pose proof (C8_missing_heartbeat_forces_close_and_reconnect_cycle (platform := platform0)
                silent0 1 1 0) as H.
  do 4 premise H. cbv zeta in H. destruct H as (_ & H1 & _ & H2). premise H2.
  destruct H2 as (H3 & H4 & H5 & _ & _ & _ & H7).
  vm_compute in H1, H3, H4, H5, H7. destruct H7 as (H7 & H8). vm_compute.
  repeat split; assumption.
Defined.

Lemma C9_witness :
  let st := subscribeToLiveEvent (platform := platform1) "subReq" "subNotify"
              (ClientHandler 7) new0 in
  let st' := receiveMessage (platform := platform1) "frame" st in
  dispatched st' = [(7, notifyFrame)]
  /\ eventResultHandlers st' = eventResultHandlers st
  /\ promises st' = promises st.
Proof.
  pose proof (C9_routing_discriminates_on_truthy_requestId (platform := platform1)
                (subscribeToLiveEvent (platform := platform1) "subReq" "subNotify"
                   (ClientHandler 7) new0)
                "frame" notifyFrame) as H.
  do 2 premise H. cbv zeta in H. destruct H as (_ & H). specialize (H (or_introl eq_refl)).
  destruct H as (H1 & H2 & H3 & _).
  assert (H0 : dispatched (receiveMessage (platform := platform1) "frame"
                             (subscribeToLiveEvent (platform := platform1) "subReq"
                                "subNotify" (ClientHandler 7) new0))
               = [(7, notifyFrame)]).
  { rewrite H1. vm_compute. reflexivity. }
  vm_compute in H0, H2, H3. vm_compute.
  split; [exact H0|]. split; [exact H2 | exact H3].
Defined.

(** C6.  The [close] listener checks that the signalling socket is the
    one owned; the [error] listener does not, and every signal arms a
    reconnect timer of its own.  After socket 1 has been replaced by
    socket 2, a [close] event of socket 1 changes no timer, but an [error]
    event of socket 1 arms a reconnect timer, and when it fires the
    healthy socket 2 is closed and replaced by socket 3.  On the owned
    socket, an [error] event followed by the [close] event leaves two
    reconnect timers pending. *)
Theorem C6_error_signal_is_not_checked_against_the_owned_socket :
  socket replaced0 = Some 2
  /\ readyState 1 replaced0 = Some CLOSING
  /\ timers (step (platform := platform0) (SocketClose 1) replaced0) = timers replaced0
  /\ timers (step (platform := platform0) (SocketError 1) replaced0) !! 2
     = Some {| task := Reconnect; delay := 1000 |}
  /\ closed (run (platform := platform0) [SocketError 1; TimerFires 2] replaced0)
     = [(1, None); (2, None)]
  /\ socket (run (platform := platform0) [SocketError 1; TimerFires 2] replaced0) = Some 3
  /\ timers (run (platform := platform0) [SocketError 1; SocketClose 1] new0) !! 1
     = Some {| task := Reconnect; delay := 1000 |}
  /\ timers (run (platform := platform0) [SocketError 1; SocketClose 1] new0) !! 2
     = Some {| task := Reconnect; delay := 1000 |}.
Proof. vm_compute. repeat split; reflexivity. Qed.

Lemma unused_new0 (requestId : string) : unused requestId new0.
Proof.
  repeat split; try (intros ? ? H; vm_compute in H; discriminate).
  - intros ? H; vm_compute in H; discriminate.
  - vm_compute. lia.
Qed.

Lemma waits_r1 : waits "r1" 1 1 awaiting_r1_r2.
Proof.
  apply (waits_sendEventWithResponse (platform := platform2)); [|discriminate].
  exact (proj1 (sendEventWithResponse_waits (platform := platform0) "r1" request_r1 false new0
                  (unused_new0 "r1"))).
Qed.

Lemma responses_in_any_order_witness :
  promises (deliver (platform := platform2) ["r2"; "r1"] awaiting_r1_r2) !! 1
  = Some (Fulfilled (responseTo "r1")).
Proof.
  pose proof (responses_in_any_order_settle_their_own_requests (platform := platform2)
                [response_r2; response_r1] awaiting_r1_r2 "r1" 1 1) as H.
  premise H.
  assert (Hnd : NoDup (map frameRequestId [response_r2; response_r1])).
  { apply (bool_decide_eq_true_1 _). vm_compute. reflexivity. }
  destruct (H Hnd waits_r1) as (H1 & _).
  specialize (H1 response_r1).
  assert (Hin : response_r1 ∈ [response_r2; response_r1]).
  { apply elem_of_cons. right. apply elem_of_cons. left. reflexivity. }
  specialize (H1 Hin eq_refl). vm_compute in H1. vm_compute. exact H1.
Defined.

Lemma response_clears_the_timeout_witness :
  let failed := receiveMessage (platform := platform2) "r2" awaiting_r1_r2 in
  let answered := receiveMessage (platform := platform2) "r1" awaiting_r1_r2 in
  promises failed !! 2 = Some (Rejected (Some (JStr "busy")))
  /\ timers failed !! 2 = Some {| task := ResponseTimeout "r2" 2; delay := 60000 |}
  /\ promises (step (platform := platform2) (TimerFires 2) failed) !! 2
     = Some (Rejected (Some (JStr "busy")))
  /\ promises answered !! 1 = Some (Fulfilled (responseTo "r1"))
  /\ timers answered !! 1 = None.
Proof.
  pose proof (response_clears_the_timeout_only_on_success (platform := platform2)
                response_r2 awaiting_r1_r2 2 2) as H2.
  pose proof (response_clears_the_timeout_only_on_success (platform := platform2)
                response_r1 awaiting_r1_r2 1 1) as H1.
  do 2 premise H2. do 2 premise H1.
  vm_compute in H1, H2. destruct H2 as (_ & A & B & _ & C). destruct H1 as (_ & D & E).
  vm_compute. split; [exact A|]. split; [reflexivity|]. split; [reflexivity|].
  split; [exact D | reflexivity].
Defined.

Lemma at_most_one_heartbeat_interval_witness :
  let st := turns (platform := platform0) reopened0 new0 in
  timers st !! 3 = Some {| task := Heartbeat; delay := 5000 |}
  /\ timers st !! 1 = None
  /\ heartbeatSendingInterval st = Some 3.
Proof.
  pose proof (at_most_one_heartbeat_interval_is_armed (platform := platform0)
                "device.local" None false 0 reopened0 3 3
                {| task := Heartbeat; delay := 5000 |} {| task := Heartbeat; delay := 5000 |}) as H.
  cbv zeta in H. do 4 premise H. destruct H as (_ & H). vm_compute in H. vm_compute.
  split; [reflexivity|]. split; [reflexivity | exact H].
Defined.

Lemma failing_connect_is_retried_witness :
  let st := retries (platform := platform4) 3
              (new (platform := platform4) "device.local" None false 0) in
  socket st = None
  /\ timers st !! 4 = Some {| task := Reconnect; delay := 1000 |}
  /\ timers st !! 3 = None.
Proof.
  pose proof (failing_connect_is_retried_every_second_without_leftover (platform := platform4)
                "device.local" None false 0 3) as H.
  premise H. cbv zeta in H. destruct H as (A & _ & _ & B). vm_compute in A.
  cbv zeta. rewrite B. split; [exact A|]. split; reflexivity.
Defined.

Lemma inbound_heartbeat_witness :
  let st1 := receiveMessage (platform := platform3) "frame" open0 in
  lastIncomeHeartbeat st1 = Some 7000%Z
  /\ closed (heartbeatTick (platform := platform3) (set_clock 20000 st1)) = []
  /\ closed (heartbeatTick (platform := platform3) (set_clock 20000 open0))
     = [(1, Some "Missing heartbeat")].
Proof.
  pose proof (inbound_heartbeat_postpones_the_forced_close (platform := platform3)
                open0 "frame" heartbeatEvent 20000) as H.
  do 2 premise H. cbv zeta in H. destruct H as (A & B & _).
  assert (Hle : (20000 - clock open0 <= WS_MISSING_HEARTBEAT_TIMEOUT_MS (Platform := platform3))%Z)
    by (vm_compute; discriminate).
  destruct (B Hle) as (B1 & _). cbv zeta. rewrite A in *.
  split; [vm_compute; reflexivity|]. split; [rewrite B1; vm_compute; reflexivity|].
  vm_compute. reflexivity.
Defined.

Lemma client_handler_for_heartbeat_witness :
  let st1 := addEventHandler "heartbeat" (ClientHandler 9) open0 in
  let st2 := deliver (platform := platform3) ["frame"; "frame"] st1 in
  lastIncomeHeartbeat st2 = Some 0%Z
  /\ dispatched st2 = [(9, heartbeatEvent); (9, heartbeatEvent)]
  /\ closed (heartbeatTick (platform := platform3) (set_clock 20000 st2))
     = [(1, Some "Missing heartbeat")].
Proof.
  pose proof (client_handler_for_heartbeat_replaces_the_liveness_stamp (platform := platform3)
                open0 9 [("frame", heartbeatEvent); ("frame", heartbeatEvent)]) as H.
  premise H. cbv zeta in H. destruct H as (A & B & _). vm_compute in A, B. vm_compute.
  split; [exact A|]. split; [exact B | reflexivity].
Defined.

Lemma request_timed_out_while_disconnected_witness :
  let st2 := step (platform := platform0) (TimerFires 1) awaiting_r1 in
  promises st2 !! 1 = Some (Rejected (Some (JStr "Response was not obtained in 60s")))
  /\ sent (step (platform := platform0) (SocketOpen 1) st2) = [(1, "designLoad")].
Proof.
  pose proof (request_timed_out_while_disconnected_is_still_sent_on_connect
                (platform := platform0) new0 "r1" request_r1 1) as H.
  do 3 premise H. cbv zeta in H. destruct H as (_ & _ & A & _ & B & _).
  vm_compute in A, B. vm_compute. split; [exact A | exact B].
Defined.

Lemma subscription_request_replay_witness :
  let st := run (platform := platform2) [SocketOpen 1] new0 in
  let call := IOControlStates.init (platform := platform2) "r1" (IOControlStates.new false) st in
  let st1 := receiveMessage (platform := platform2) "r1" (snd call) in
  let st2 := turns (platform := platform2)
               [HostTurn (SocketClose 1); HostTurn (TimerFires 3)] st1 in
  let st3 := step (platform := platform2) (SocketOpen 2) st2 in
  let st4 := receiveMessage (platform := platform2) "r1" st3 in
  promises st1 !! 1 = Some (Fulfilled (responseTo "r1"))
  /\ sent st3 = [(1, "ioPinStateSubscriptionRequest"); (2, "ioPinStateSubscriptionRequest")]
  /\ promises st4 = promises st3.
Proof.
  pose proof (subscription_request_is_replayed_and_the_replay_response_dropped
                (platform := platform2) (IOControlStates.new false)
                (run (platform := platform2) [SocketOpen 1] new0) "r1" response_r1
                [HostTurn (SocketClose 1); HostTurn (TimerFires 3)] 2) as H.
  do 3 premise H.
  assert (Hall : Forall (fun tn => ~ reuses "r1" tn)
                   [HostTurn (SocketClose 1); HostTurn (TimerFires 3)]).
  { repeat constructor; exact id. }
  specialize (H Hall). cbv zeta in H. do 2 premise H.
  destruct H as (_ & H1 & _ & _ & H2). vm_compute in H1, H2. vm_compute.
  split; [exact H1|]. split; [reflexivity | exact H2].
Defined.

Import DesignUtil.

Lemma C2_witness :
  let st' := loadAll ["b"; "c"] loading_a in
  fetchesInFlight st' = 1
  /\ fetchesStarted st' = 1
  /\ loadFinishConsumers st' = [1; 2]
  /\ resolved (loadDesignInternal_resume None st') = [1; 2]
  /\ state (loadDesignInternal_resume None st') = ERROR.
Proof.
  pose proof (C2_loads_while_loading_share_the_single_fetch_in_flight 0 [Load "a"]) as H.
  premise H. cbv zeta in H. destruct H as (_ & _ & H). premise H.
  destruct H as (loader & Hloader & H). vm_compute in Hloader. injection Hloader as <-.
  specialize (H ["b"; "c"] None).
  assert (Hall : Forall (fun identifier : string => identifier <> "a") ["b"; "c"]).
  { repeat constructor; discriminate. }
  destruct (H Hall) as (_ & H1 & H2 & H3 & H4 & H5 & _).
  split; [exact H1|]. split; [exact H2|]. split; [exact H3|]. split; [exact H5 | exact H4].
Defined.

(** The claim as the specification words it fails here: the load under
    identity [a] is in flight when a [designChangeNotify] frame arrives.
    Its handler resets the state and calls [load()], which runs under
    identity [b].  That call, made while a load is in flight and under
    an identity other than the loader's, is not queued: it starts a
    second fetch beside the first. *)
Lemma C2_counterexample :
  fetchesInFlight reset_a = 1
  /\ fetchesStarted reset_a = 1
  /\ loaderIdentifier reset_a = Some "a"
  /\ handle (DesignChangeNotify "b") loading_a = snd (loadDesign "b" reset_a)
  /\ fst (loadDesign "b" reset_a) = Fetches
  /\ loadFinishConsumers (snd (loadDesign "b" reset_a)) = []
  /\ fetchesStarted (snd (loadDesign "b" reset_a)) = 2
  /\ fetchesInFlight (snd (loadDesign "b" reset_a)) = 2
  /\ fetchesInFlight (handleAll [Load "a"; DesignChangeNotify "b"] (new 0)) = 2.
Proof. repeat split; reflexivity. Qed.

Lemma C5_witness :
  fetchesStarted (snd (loadDesign "a" loading_a)) = 2
  /\ loadFinishConsumers (snd (loadDesign "a" loading_a)) = [].
Proof.
  pose proof (C5_same_identity_reloads_and_other_identity_waits loading_a "a") as H.
  premise H. vm_compute in H. destruct H as (_ & H1 & _ & _ & H2 & _).
  split; [exact H2 | exact H1].
Defined.

(** The claim as the specification words it fails here: the loader is in
    flight under identity [a], one fetch has been started, and a further
    [load()] under the same identity starts a second one. *)
Lemma C5_counterexample :
  state loading_a = LOADING
  /\ loaderIdentifier loading_a = Some "a"
  /\ fetchesStarted loading_a = 1
  /\ fetchesInFlight loading_a = 1
  /\ fetchesStarted (snd (loadDesign "a" loading_a)) = 2
  /\ fetchesInFlight (snd (loadDesign "a" loading_a)) = 2.
Proof. repeat split; reflexivity. Qed.

Lemma design_getters_witness_other_type :
  snd (getComponentMetadata pretty (ByNumber 4) "mixer" loaded0)
  = Throw "Cannot find component with ID or name '4' of type 'mixer'."
  /\ snd (getComponentMetadata pretty (ByNumber 4) "mixer"
            (handleAll [Load "a"; FetchReturns (Some design0); ClockReads 9;
                        DesignChangeNotify "b"; FetchReturns (Some design0)] (new 0)))
     = Throw "Cannot find component with ID or name '4' of type 'mixer'."
  /\ snd (getComponentMetadata pretty (ByNumber 4) "mixer"
            (handleAll [Load "a"; FetchReturns (Some design0); Load "b"] (new 0)))
     = Throw "Design is not available.".
Proof.
  pose proof (components_of_other_types_are_not_found_until_a_runtime_change pretty
                (ByNumber 4) "mixer") as H.
  premise H. destruct H as (H1 & H2).
  specialize (H1 loading_a design0).
  pose proof (H2 0%Z [Load "a"; FetchReturns (Some design0); ClockReads 9;
                      DesignChangeNotify "b"; FetchReturns (Some design0)]) as H3.
  specialize (H2 0%Z [Load "a"; FetchReturns (Some design0); Load "b"]).
  cbv zeta in H1, H2, H3.
  destruct H1 as (H1 & _). destruct H2 as (H2 & _). destruct H3 as (H3 & _).
  vm_compute in H1, H2, H3. vm_compute.
  split; [exact H1|]. split; [exact H3 | exact H2].
Defined.

Lemma design_getters_witness_found :
  snd (getComponentMetadata pretty (ByName "Mic") "gain" loaded0)
  = Return {| npdComponentConfig := gain3;
              designRuntime := pd_runtime (partialOf design0);
              designMetadata := JObj [("name", JStr "demo")] |}
  /\ getComponentMetadata pretty (ByNumber 3) "gain" loaded0
     = getComponentMetadata pretty (ByName "Mic") "gain" loaded0.
Proof.
  pose proof (loaded_component_is_found_by_number_and_by_name pretty loading_a design0
                node_Mic [] [node_Mix] gain3) as H.
  do 6 premise H. cbv zeta in H. destruct H as (H1 & H2).
  vm_compute in H1, H2. vm_compute. split; [exact (f_equal snd H1) | exact H2].
Defined.

Section Witnesses.

Import RetryUtil.

Lemma runAsync_gives_up_witness :
  let run := runAsync [Fails "e1"; Fails "e2"; Fails "e3"; Succeeds 7] 3 1000 in
  fst run = Throws "e3" /\ calls (snd run) = 3 /\ sleeps (snd run) = [1000; 1000]%Z.
Proof.
  pose proof (runAsync_gives_up_after_retryCount_failures (T := nat) ["e1"; "e2"] "e3"
                [Succeeds 7] 3 1000) as H.
  specialize (H ltac:(lia) eq_refl). exact H.
Defined.

Lemma runAsync_returns_witness :
  let run := runAsync [Fails "e1"; Fails "e2"; Succeeds 7; Fails "e3"] 3 1000 in
  fst run = Returns 7 /\ calls (snd run) = 3 /\ sleeps (snd run) = [1000; 1000]%Z.
Proof.
  pose proof (runAsync_returns_the_first_success_within_the_count (T := nat) ["e1"; "e2"] 7
                [Fails "e3"] 3 1000) as H.
  specialize (H ltac:(right; simpl; lia)). exact H.
Defined.

Lemma runAsync_without_limit_witness :
  fst (runAsync_default (T := nat) [Fails "e1"; Fails "e2"; Fails "e3"]) = Retrying
  /\ fst (runAsync_default [Fails "e1"; Succeeds 7]) = Returns 7.
Proof.
  destruct (runAsync_without_limit_never_throws (T := nat)
              [Fails "e1"; Fails "e2"; Fails "e3"] (-1) 1000 ltac:(lia)) as (_ & H1).
  destruct (runAsync_without_limit_never_throws [Fails "e1"; Succeeds 7] (-1) 1000
              ltac:(lia)) as (_ & H2).
  split; [exact H1 | exact H2].
Defined.

End Witnesses.

Lemma ducker_listener_witness :
  let st1 := NnDuckerStatesUtil.onActiveChange "12" 3 ducking0 in
  let st2 := NnDuckerStatesUtil.removeListener "12" 3 st1 in
  let st3 := NnDuckerStatesUtil.removeListener "12" 3 st2 in
  NnDuckerStatesUtil.called (NnDuckerStatesUtil.onPrimaryActiveChangeEvent "12" true st1)
  = [(1, true); (2, true); (3, true)]
  /\ NnDuckerStatesUtil.listenersOf "12" st2 = [1; 2]
  /\ NnDuckerStatesUtil.listenersOf "12" st3 = [1].
Proof.
  pose proof (removing_a_ducker_listener_twice_removes_another_one ducking0 "12" 3 true) as H.
  assert (Hnot : 3 ∉ NnDuckerStatesUtil.listenersOf "12" ducking0).
  { apply (bool_decide_eq_true_1 _). vm_compute. reflexivity. }
  destruct (H Hnot) as (H1 & H2 & H3 & _). vm_compute in H1, H2, H3. vm_compute.
  split; [exact H1|]. split; [exact H2 | exact H3].
Defined.

Lemma first_control_event_witness :
  IOControlStates.called listening1 = []
  /\ IOControlStates.getInputValue 5 listening1 = low5.
Proof.
  pose proof (first_control_event_notifies_nobody [input5 low5] listening0) as H.
  premise H. destruct H as (H & _). split; [exact H | vm_compute; reflexivity].
Defined.

Lemma input_listener_witness :
  let st1 := IOControlStates.onInputChange 5 3 listening0 in
  let st2 := IOControlStates.removeListener 5 3 st1 in
  let st3 := IOControlStates.removeListener 5 3 st2 in
  IOControlStates.listenersOf 5 st2 = [1; 2] /\ IOControlStates.listenersOf 5 st3 = [1].
Proof.
  pose proof (removing_an_input_listener_twice_removes_another_one listening0 5 3) as H.
  assert (Hnot : 3 ∉ IOControlStates.listenersOf 5 listening0).
  { apply (bool_decide_eq_true_1 _). vm_compute. reflexivity. }
  destruct (H Hnot) as (_ & H2 & H3 & _). vm_compute in H2, H3. vm_compute.
  split; [exact H2 | exact H3].
Defined.

Lemma input_change_witness :
  let st' := IOControlStates.onControlStateEvent [input5 high5] listening1 in
  let st'' := IOControlStates.onControlStateEvent [input5 1] st' in
  NnControlInputsDefinition.digital_getValue 5 listening1 = false
  /\ NnControlInputsDefinition.digital_getValue 5 st' = true
  /\ IOControlStates.called st' = []
  /\ IOControlStates.called st'' = [(1, 1%float, high5); (2, 1%float, high5)]
  /\ NnControlInputsDefinition.digital_onChange 1 high5 = None.
Proof.
  pose proof (input_change_is_reported_only_beyond_a_tenth listening1 5 high5) as H.
  premise H. cbv zeta in H. destruct H as (_ & H1 & H2). vm_compute in H1, H2. vm_compute.
  split; [reflexivity|]. split; [exact H1|]. split; [exact H2|]. split; reflexivity.
Defined.

Lemma button_listener_witness :
  ButtonStates.lastHeard 7 (ButtonStates.ops pressed_released ButtonStates.new) = Some false
  /\ ButtonStates.getButtonActive "ptt1" (ButtonStates.ops pressed_released ButtonStates.new)
     = false.
Proof.
  pose proof (button_listener_has_heard_the_current_state pressed_released "ptt1" 7 false) as H.
  cbv zeta in H.
  assert (E : ButtonStates.buttonChangeListeners
                (ButtonStates.ops pressed_released ButtonStates.new)
              = {[ "ptt1" := [7] ]}) by (vm_compute; reflexivity).
  assert (Hin : 7 ∈ ButtonStates.listenersOf "ptt1"
                      (ButtonStates.ops pressed_released ButtonStates.new)).
  { unfold ButtonStates.listenersOf. rewrite E, lookup_singleton_eq. simpl.
    apply elem_of_cons. left. reflexivity. }
  assert (Hex : forall other,
             7 ∈ ButtonStates.listenersOf other
                   (ButtonStates.ops pressed_released ButtonStates.new) ->
             other = "ptt1").
  { intros other Ho. destruct (decide (other = "ptt1")) as [->|Hne]; [reflexivity|].
    unfold ButtonStates.listenersOf in Ho. rewrite E, lookup_singleton_ne in Ho by congruence.
    apply elem_of_nil in Ho. contradiction. }
  exact (H Hin Hex eq_refl).
Defined.

Lemma setGain_witness :
  let run := ANnDspComponent.setGain true false (JNum 1)
               [ANnDspComponent.refused "design changed"; ANnDspComponent.refused "busy";
                ANnDspComponent.Accepted] in
  ANnDspComponent.outcome run
  = ANnDspComponent.Throws (ANnDspComponent.Reason (Some (JStr "busy")))
  /\ ANnDspComponent.sends run = 3.
Proof.
  pose proof (setGain_throws_the_last_refusal_even_if_a_retry_succeeds false 1
                ["design changed"] "busy" None [] []) as H.
  specialize (H ltac:(simpl; lia) ltac:(discriminate)). cbv zeta in H.
  destruct H as (_ & H & _). exact (H ltac:(simpl; lia)).
Defined.
